(** * indoxMiner/loader.py: the document-processing core

    A shallow embedding of [DocumentType], [DocumentProcessor] and their
    helpers, and the properties of the orchestration core: format
    classification, element filtering, page aggregation, chunking and the
    per-source fan-out of [process].

    Conventions of the embedding.
    - A Python [str] is a [string] whose characters are the code points
      U+0000 to U+00FF, one per character; on these code points the
      whitespace class and the case mapping are Python's.
    - A Python [int] is a [Z].
    - A [dict] used as a map ([doc_types], the result of [process]) is a
      [gmap]; a metadata dict literal is an association list in the order
      of the literal.
    - Code that may raise returns an [Outcome]; [try]/[except Exception]
      is [catch].
    - The external collaborators (the partition functions of the
      unstructured library, the OCR capability, [urlparse], the clock) are
      the fields of a [World]. *)

From Stdlib Require Import ZArith Ascii String List Permutation Sorted Lia.
From stdpp Require Import base gmap strings list fin_maps.

Local Open Scope Z_scope.

(* ===================================================================== *)
(** ** Python string primitives *)
(* ===================================================================== *)

Module Py.

(** [c.isspace()], which is also the whitespace of [split()] and
  [strip()]: TAB, LF, VT, FF, CR, the four separators FS, GS, RS, US, the
  space, NEL (U+0085) and the no-break space (U+00A0). *)
Definition isspace (c : ascii) : bool :=
let n := N_of_ascii c in
((9 <=? n)%N && (n <=? 13)%N) || ((28 <=? n)%N && (n <=? 32)%N)
|| (n =? 133)%N || (n =? 160)%N.

(** [c.lower()]: the letters A to Z, and the capital letters U+00C0 to
  U+00DE without the multiplication sign U+00D7, move up by 32. *)
Definition lower_char (c : ascii) : ascii :=
let n := N_of_ascii c in
if ((65 <=? n)%N && (n <=? 90)%N)
   || ((192 <=? n)%N && (n <=? 222)%N && negb (n =? 215)%N)
then ascii_of_N (n + 32) else c.

(** [s.lower()] *)
Fixpoint lower (s : string) : string :=
match s with
| EmptyString => EmptyString
| String c s' => String (lower_char c) (lower s')
end.

(** [len(s)] *)
Definition len (s : string) : Z := Z.of_nat (String.length s).

(** [s.startswith(p)] *)
Fixpoint startswith (s p : string) : bool :=
match p, s with
| EmptyString, _ => true
| String _ _, EmptyString => false
| String b p', String a s' => Ascii.eqb a b && startswith s' p'
end.

(** [s.startswith((p1, ..., pn))] *)
Definition startswith_any (s : string) (ps : list string) : bool :=
existsb (startswith s) ps.

(** [s.endswith(p)]: the reversed suffix is a prefix of the reversed string. *)
Definition endswith (s p : string) : bool :=
startswith (String.rev s) (String.rev p).

(** [s.endswith((p1, ..., pn))] *)
Definition endswith_any (s : string) (ps : list string) : bool :=
existsb (endswith s) ps.

(** [cons_word w ws]: a completed word is kept when it is not empty. *)
Definition cons_word (w : string) (ws : list string) : list string :=
match w with
| EmptyString => ws
| _ => w :: ws
end.

(** [split_scan s] reads [s] from the left and returns the word that starts
  at its first character (empty when [s] starts with whitespace or is
  empty) and the words after it. *)
Fixpoint split_scan (s : string) : string * list string :=
match s with
| EmptyString => (EmptyString, [])
| String c s' =>
    let '(w, ws) := split_scan s' in
    if isspace c then (EmptyString, cons_word w ws) else (String c w, ws)
end.

(** [s.split()]: the maximal runs of non-whitespace characters, in order. *)
Definition split (s : string) : list string :=
let '(w, ws) := split_scan s in cons_word w ws.

(** [s.split(sep)] for a one-character separator: the pieces between the
  separators, empty pieces included. *)
Fixpoint split_on (sep : ascii) (s : string) : list string :=
match s with
| EmptyString => [EmptyString]
| String c s' =>
    if Ascii.eqb c sep then EmptyString :: split_on sep s'
    else match split_on sep s' with
         | w :: ws => String c w :: ws
         | [] => [String c EmptyString]
         end
end.

(** [sep.join(l)] *)
Fixpoint join (sep : string) (l : list string) : string :=
match l with
| [] => EmptyString
| [x] => x
| x :: l' => x +:+ sep +:+ join sep l'
end.

(** [s.replace(a, b)] for one-character [a] and [b]. *)
Fixpoint replace (a b : ascii) (s : string) : string :=
match s with
| EmptyString => EmptyString
| String c s' => String (if Ascii.eqb c a then b else c) (replace a b s')
end.

(** [s.lstrip()] *)
Fixpoint lstrip (s : string) : string :=
match s with
| String c s' => if isspace c then lstrip s' else s
| EmptyString => EmptyString
end.

(** [s.strip()] *)
Definition strip (s : string) : string :=
String.rev (lstrip (String.rev (lstrip s))).

(** [s.lstrip(c)] for a one-character set. *)
Fixpoint lstrip_char (c : ascii) (s : string) : string :=
match s with
| String a s' => if Ascii.eqb a c then lstrip_char c s' else s
| EmptyString => EmptyString
end.

(** [s.rfind(c)] as an option: the index of the last [c] in [s]. *)
Fixpoint rfind (c : ascii) (s : string) : option nat :=
match s with
| EmptyString => None
| String a s' =>
    match rfind c s' with
    | Some i => Some (S i)
    | None => if Ascii.eqb a c then Some 0%nat else None
    end
end.

(** [s[i:]] *)
Fixpoint drop (i : nat) (s : string) : string :=
match i, s with
| O, _ => s
| S i', String _ s' => drop i' s'
| S _, EmptyString => EmptyString
end.

(** Truthiness of a [str]. *)
Definition truthy (s : string) : bool :=
match s with EmptyString => false | _ => true end.

End Py.

(* ===================================================================== *)
(** ** Exceptions *)
(* ===================================================================== *)

Inductive Exn : Type :=
  | ValueError (msg : string)
  | AttributeError (attr : string)
  | KeyError (key : string)
  | TypeError
  | ExternalError (msg : string).

Inductive Outcome (A : Type) : Type :=
  | Ok (a : A)
  | Raise (e : Exn).
Arguments Ok {A} a.
Arguments Raise {A} e.

(** Sequencing: the first raise aborts what follows.  With this instance
    [x ← m; k] is the monadic bind of [Outcome]. *)
Global Instance Outcome_bind : MBind Outcome := fun A B k m =>
  match m with
  | Ok a => k a
  | Raise e => Raise e
  end.

(** [try: m  except Exception: handler] *)
Definition catch {A} (m : Outcome A) (handler : Exn -> A) : A :=
  match m with
  | Ok a => a
  | Raise e => handler e
  end.

(** A list comprehension [[x for x in l if p(x)]] whose condition may
    raise: the first raise, from the left, aborts the comprehension. *)
Fixpoint filterM {A} (p : A -> Outcome bool) (l : list A) : Outcome (list A) :=
  match l with
  | [] => Ok []
  | x :: l' =>
      b ← p x;
      r ← filterM p l';
      Ok (if (b : bool) then x :: r else r)
  end.

(** [[f(x) for x in l]] with [f] that may raise. *)
Fixpoint mapM {A B} (f : A -> Outcome B) (l : list A) : Outcome (list B) :=
  match l with
  | [] => Ok []
  | x :: l' =>
      y ← f x;
      r ← mapM f l';
      Ok (y :: r)
  end.

(** Attribute access [obj.attr] on an object that may lack the attribute. *)
Definition getattr_or_raise {A} (name : string) (a : option A) : Outcome A :=
  match a with
  | Some v => Ok v
  | None => Raise (AttributeError name)
  end.

(* ===================================================================== *)
(** ** pathlib.Path, POSIX flavour *)
(* ===================================================================== *)

Module Path.

(** The components of a path: empty components and [.] are dropped. *)
Definition parts (p : string) : list string :=
List.filter (fun c => negb (String.eqb c "") && negb (String.eqb c "."))
            (Py.split_on "/" p).

(** The root: [/], or [//] for exactly two leading slashes. *)
Definition root (p : string) : string :=
if Py.startswith p "/" then
  if Py.startswith p "//" && negb (Py.startswith p "///") then "//" else "/"
else "".

(** [Path(p).name]: the final component, if any. *)
Definition name (p : string) : string := List.last (parts p) "".

(** [Path(p).suffix]: the final component from its last dot, when that dot
  is neither its first nor its last character. *)
Definition suffix (p : string) : string :=
let nm := name p in
match Py.rfind "." nm with
| Some i =>
    if (0 <? Z.of_nat i) && (Z.of_nat i <? Py.len nm - 1)
    then Py.drop i nm else ""
| None => ""
end.

(** [str(Path(p).parent)] *)
Definition parent (p : string) : string :=
let ps := removelast (parts p) in
match root p, ps with
| EmptyString, [] => "."
| r, _ => r +:+ Py.join "/" ps
end.

End Path.

(* ===================================================================== *)
(** ** Data model *)
(* ===================================================================== *)

(** Values stored in metadata dicts. *)
Inductive PyVal : Type :=
  | VStr (s : string)
  | VInt (z : Z).

Global Instance PyVal_eq_dec : EqDecision PyVal.
Proof. solve_decision. Defined.

(** [d.get(k)] on a dict literal. *)
Fixpoint dict_get (k : string) (d : list (string * PyVal)) : option PyVal :=
  match d with
  | [] => None
  | (k', v) :: d' => if String.eqb k' k then Some v else dict_get k d'
  end.

(** The [metadata] of an element: either the library's metadata object,
    which answers each of its fields and gives Python's [None] for a field
    that is not set, or a plain dict (which has none of these attributes;
    this is what [_create_element_from_ocr] stores). *)
Inductive Metadata : Type :=
  | ElementMetadata (page_number : option Z) (parent_id : option string)
                    (text_as_html : option string)
  | MetadataDict (items : list (string * PyVal)).

(** An element as delivered by an extraction adapter.  [None] stands for
    an attribute the object does not have; a [text] that is Python's
    [None] behaves as the empty string everywhere in this code and is
    represented by it. *)
Record Element : Type := {
  el_text : option string;
  el_category : option string;
  el_id : option string;
  el_metadata : option Metadata
}.

(** [getattr(md, 'page_number', default)]: an integer or Python's [None].
    The default is used only where the attribute does not exist, which is
    the case of the dict; the library's object has the attribute, with the
    value [None] when no page number is set. *)
Definition getattr_page_number (md : Metadata) (default : Z) : option Z :=
  match md with
  | ElementMetadata page_number _ _ => page_number
  | MetadataDict _ => Some default
  end.

(** [getattr(md, 'parent_id', None)] *)
Definition getattr_parent_id (md : Metadata) : option string :=
  match md with
  | ElementMetadata _ p _ => p
  | MetadataDict _ => None
  end.

(** [getattr(md, 'text_as_html', None)] *)
Definition getattr_text_as_html (md : Metadata) : option string :=
  match md with
  | ElementMetadata _ _ h => h
  | MetadataDict _ => None
  end.

(** [getattr(el, 'category', '')] *)
Definition getattr_category (el : Element) : string :=
  match el_category el with
  | Some c => c
  | None => ""
  end.

Record Document : Type := {
  page_content : string;
  metadata : list (string * PyVal)
}.

Record ProcessingConfig : Type := {
  chunk_size : Z;
  hi_res_pdf : bool;
  infer_tables : bool;
  custom_splitter : option (string -> Z -> Outcome (list string));
  max_workers : Z;
  remove_headers : bool;
  remove_references : bool;
  filter_empty_elements : bool;
  ocr_for_images : bool;
  ocr_model : string
}.

(** [ProcessingConfig()] *)
Definition default_config : ProcessingConfig := {|
  chunk_size := 500;
  hi_res_pdf := true;
  infer_tables := false;
  custom_splitter := None;
  max_workers := 4;
  remove_headers := false;
  remove_references := false;
  filter_empty_elements := true;
  ocr_for_images := false;
  ocr_model := "tesseract"
|}.

Inductive DocumentType : Type :=
  | BMP | CSV | DOC | DOCX | EML | EPUB | HEIC | HTML | JPEG | JPG
  | MARKDOWN | MSG | ODT | ORG | P7S | PDF | PNG | PPT | PPTX | RST
  | RTF | TIFF | TEXT | TSV | XLS | XLSX | XML.

Global Instance DocumentType_eq_dec : EqDecision DocumentType.
Proof. solve_decision. Defined.

(** The value of each member. *)
Definition value (t : DocumentType) : string :=
  match t with
  | BMP => "bmp" | CSV => "csv" | DOC => "doc" | DOCX => "docx"
  | EML => "eml" | EPUB => "epub" | HEIC => "heic" | HTML => "html"
  | JPEG => "jpeg" | JPG => "jpg" | MARKDOWN => "md" | MSG => "msg"
  | ODT => "odt" | ORG => "org" | P7S => "p7s" | PDF => "pdf"
  | PNG => "png" | PPT => "ppt" | PPTX => "pptx" | RST => "rst"
  | RTF => "rtf" | TIFF => "tiff" | TEXT => "txt" | TSV => "tsv"
  | XLS => "xls" | XLSX => "xlsx" | XML => "xml"
  end.

(** The members in definition order. *)
Definition members : list DocumentType :=
  [BMP; CSV; DOC; DOCX; EML; EPUB; HEIC; HTML; JPEG; JPG; MARKDOWN; MSG;
   ODT; ORG; P7S; PDF; PNG; PPT; PPTX; RST; RTF; TIFF; TEXT; TSV; XLS;
   XLSX; XML].

(** [DocumentType(v)]: lookup of a member by value; [None] stands for the
    [ValueError] of the enum. *)
Definition by_value (v : string) : option DocumentType :=
  List.find (fun t => String.eqb (value t) v) members.

(** Modelled from the spec: the OCR capability [OCRProcessor] of
    [ocr_processor.py], which is not part of the sources at hand.  It is
    constructed with a model selector and offers
    [extract_text(source) -> text]; the recognition itself is a field of
    the [World]. *)
Record OCRProcessor : Type := { model : string }.

Record DocumentProcessor : Type := {
  sources : list string;
  doc_types : gmap string DocumentType;
  ocr_processor : option OCRProcessor
}.

(** The external collaborators.  Each may raise. *)
Record World : Type := {
  (** [OCRProcessor.extract_text(file_path)] *)
  ocr_extract_text : OCRProcessor -> string -> Outcome string;
  (** [partition_pdf(filename, strategy, infer_table_structure)] *)
  partition_pdf : string -> string -> bool -> Outcome (list Element);
  (** [partition_xlsx(filename)] *)
  partition_xlsx : string -> Outcome (list Element);
  (** [partition_html(url)] *)
  partition_html : string -> Outcome (list Element);
  (** [partition_image(filename)] *)
  partition_image : string -> Outcome (list Element);
  (** [partition_email(filename)] *)
  partition_email : string -> Outcome (list Element);
  (** [importlib.import_module] and [getattr] of
      [import_unstructured_partition]: the partition function of a
      content type, when the library has one. *)
  partition_module : string -> Outcome (string -> Outcome (list Element));
  (** [urlparse(s).scheme]; [urlparse] raises on a malformed address. *)
  urlparse_scheme : string -> Outcome string;
  (** [datetime.datetime.now().isoformat()] *)
  now_isoformat : string;
  (** The category and the identity the library gives to [Text(text=t)]. *)
  Text_category : string;
  Text_id : string -> string
}.

(* ===================================================================== *)
(** ** sorted, groupby, enumerate *)
(* ===================================================================== *)

(** [a < b] on keys that are an integer or [None]: [None] is ordered
    neither against an integer nor against [None].  The message of the
    [TypeError], which names the two types, is left out. *)
Definition py_lt (a b : option Z) : Outcome bool :=
  match a, b with
  | Some m, Some n => Ok (m <? n)
  | _, _ => Raise TypeError
  end.

Section Builtins.
Context {A : Type} (key : A -> option Z).

(** Insertion of [x], which comes from the left of the elements already
    placed, before the first element whose key is not smaller than its
    own.  Only [<] is used, as in the sort of the language, and a
    comparison that raises aborts the insertion. *)
Fixpoint insert_sorted (x : A) (l : list A) : Outcome (list A) :=
  match l with
  | [] => Ok [x]
  | y :: l' =>
      smaller ← py_lt (key y) (key x);
      if (smaller : bool)
      then r ← insert_sorted x l'; Ok (y :: r)
      else Ok (x :: l)
  end.

(** [sorted(l, key=key)]: a stable sort.  A sequence of fewer than two
    elements is returned without any comparison; in a longer one every
    element is compared with another at least once, here as in the
    list sort of CPython, so that both raise on the same inputs. *)
Fixpoint sorted (l : list A) : Outcome (list A) :=
  match l with
  | [] => Ok []
  | x :: l' => s ← sorted l'; insert_sorted x s
  end.

(** [itertools.groupby(l, key=key)]: the maximal runs of consecutive
    elements with equal keys, each with its key.  Keys are compared with
    [==], which is defined on [None] too. *)
Fixpoint groupby (l : list A) : list (option Z * list A) :=
  match l with
  | [] => []
  | x :: l' =>
      match groupby l' with
      | (k, g) :: gs =>
          if bool_decide (key x = k) then (k, x :: g) :: gs
          else (key x, [x]) :: (k, g) :: gs
      | [] => [(key x, [x])]
      end
  end.

(** [enumerate(l, start)] *)
Fixpoint enumerate (start : Z) (l : list A) : list (Z * A) :=
  match l with
  | [] => []
  | x :: l' => (start, x) :: enumerate (start + 1) l'
  end.
End Builtins.

(* ===================================================================== *)
(** ** DocumentType.from_file *)
(* ===================================================================== *)

(** The extension looked up by [from_file]. *)
Definition extension (file_path : string) : string :=
  let extension := Py.lstrip_char "." (Py.lower (Path.suffix file_path)) in
  if String.eqb extension "jpg" then "jpeg" else extension.

Definition from_file (file_path : string) : Outcome DocumentType :=
  if Py.startswith_any (Py.lower file_path) ["http://"; "https://"; "www."]
  then Ok HTML
  else
    let extension := extension file_path in
    match by_value extension with
    | Some t => Ok t
    | None => Raise (ValueError ("Unsupported file type: " +:+ extension))
    end.

(* ===================================================================== *)
(** ** DocumentProcessor *)
(* ===================================================================== *)

(** The dict comprehension [{source: from_file(source) for source in l}]. *)
Fixpoint build_doc_types (l : list string) (acc : gmap string DocumentType)
  : Outcome (gmap string DocumentType) :=
  match l with
  | [] => Ok acc
  | source :: l' =>
      t ← from_file source;
      build_doc_types l' (<[source := t]> acc)
  end.

(** [DocumentProcessor(sources)] for a list of sources already converted
    with [str]; a single source is the one-element list. *)
Definition __init__ (srcs : list string) : Outcome DocumentProcessor :=
  dt ← build_doc_types srcs ∅;
  Ok {| sources := srcs; doc_types := dt; ocr_processor := None |}.

Definition _init_ocr_processor (self : DocumentProcessor)
    (config : ProcessingConfig) : DocumentProcessor :=
  if ocr_for_images config && negb (bool_decide (is_Some (ocr_processor self)))
  then {| sources := sources self;
          doc_types := doc_types self;
          ocr_processor := Some {| model := ocr_model config |} |}
  else self.

Definition _get_filetype (self : DocumentProcessor) (source : string)
  : Outcome string :=
  match doc_types self !! source with
  | None => Raise (KeyError source)
  | Some doc_type =>
      Ok match doc_type with
         | PDF => "application/pdf"
         | XLSX => "application/vnd.openxmlformats-officedocument.spreadsheetml.sheet"
         | XLS => "application/vnd.ms-excel"
         | DOCX => "application/vnd.openxmlformats-officedocument.wordprocessingml.document"
         | DOC => "application/msword"
         | PPTX => "application/vnd.openxmlformats-officedocument.presentationml.presentation"
         | PPT => "application/vnd.ms-powerpoint"
         | HTML => "text/html"
         | TEXT => "text/plain"
         | MARKDOWN => "text/markdown"
         | XML => "application/xml"
         | CSV => "text/csv"
         | TSV => "text/tab-separated-values"
         | RTF => "application/rtf"
         | EPUB => "application/epub+zip"
         | MSG => "application/vnd.ms-outlook"
         | EML => "message/rfc822"
         | PNG => "image/png"
         | JPEG => "image/jpeg"
         | TIFF => "image/tiff"
         | BMP => "image/bmp"
         | HEIC => "image/heic"
         | _ => "application/octet-stream"
         end
  end.

Section Processor.
Variable W : World.
Variable self : DocumentProcessor.
(** [self.config], assigned by [process] before any helper runs. *)
Variable config : ProcessingConfig.

Definition _create_element_from_ocr (text file_path : string)
  : Outcome (list Element) :=
  filetype ← _get_filetype self file_path;
  let metadata :=
    [ ("filename", VStr (Path.name file_path));
      ("file_directory", VStr (Path.parent file_path));
      ("filetype", VStr filetype);
      ("page_number", VInt 1);
      ("text_as_html", VStr text);
      ("last_modified", VStr (now_isoformat W)) ] in
  Ok [ {| el_text := Some text;
          el_category := Some (Text_category W);
          el_id := Some (Text_id W text);
          el_metadata := Some (MetadataDict metadata) |} ].

(** [hasattr(el, 'text') and el.text and el.text.strip()] *)
Definition has_content (el : Element) : bool :=
  match el_text el with
  | Some t => Py.truthy t && Py.truthy (Py.strip t)
  | None => false
  end.

(** The condition of the [reference_titles] comprehension. *)
Definition is_reference_title (el : Element) : Outcome bool :=
  t ← getattr_or_raise "text" (el_text el);
  Ok (Py.truthy t
      && String.eqb (Py.lower (Py.strip t)) "references"
      && String.eqb (getattr_category el) "Title").

(** The condition of the comprehension that excludes the children of
    the references title. *)
Definition not_child_of (reference_id : string) (el : Element)
  : Outcome bool :=
  md ← getattr_or_raise "metadata" (el_metadata el);
  Ok (negb (bool_decide (getattr_parent_id md = Some reference_id))).

(** The body of the [try] of the reference step. *)
Definition remove_references_try (filtered : list Element)
  : Outcome (list Element) :=
  reference_titles ← filterM is_reference_title filtered;
  match reference_titles with
  | first :: _ =>
      reference_id ← getattr_or_raise "id" (el_id first);
      filterM (not_child_of reference_id) filtered
  | [] => Ok filtered
  end.

Definition _filter_elements (elements : list Element) : list Element :=
  match elements with
  | [] => elements
  | _ =>
      let filtered := elements in
      let filtered :=
        if filter_empty_elements config
        then List.filter has_content filtered else filtered in
      let filtered :=
        if remove_headers config
        then List.filter
               (fun el => negb (String.eqb (getattr_category el) "Header"))
               filtered
        else filtered in
      let filtered :=
        if remove_references config
        then catch (remove_references_try filtered) (fun _ => filtered)
        else filtered in
      filtered
  end.

Definition image_suffixes : list string :=
  [".png"; ".jpg"; ".jpeg"; ".tiff"; ".bmp"; ".heic"].

(** The body of the [try] of [_get_elements]. *)
Definition _get_elements_try (file_path : string) : Outcome (list Element) :=
  let lp := Py.lower file_path in
  if Py.endswith_any lp image_suffixes && ocr_for_images config then
    ocr ← getattr_or_raise "extract_text" (ocr_processor self);
    text ← ocr_extract_text W ocr file_path;
    _create_element_from_ocr text file_path
  else if Py.endswith lp ".pdf" then
    partition_pdf W file_path
      (if hi_res_pdf config then "hi_res" else "fast") (infer_tables config)
  else if Py.endswith_any lp [".xlsx"; ".xls"] then
    elements ← partition_xlsx W file_path;
    filterM (fun el =>
               md ← getattr_or_raise "metadata" (el_metadata el);
               Ok (bool_decide (is_Some (getattr_text_as_html md))))
            elements
  else if Py.startswith_any lp ["www"; "http"] || Py.endswith lp ".html" then
    scheme ← urlparse_scheme W file_path;
    let url := if Py.truthy scheme then file_path
               else "https://" +:+ file_path in
    partition_html W url
  else if Py.endswith_any lp image_suffixes then
    partition_image W file_path
  else if Py.endswith_any lp [".eml"; ".msg"] then
    partition_email W file_path
  else if Py.endswith_any lp [".docx"; ".doc"; ".pptx"; ".ppt"] then
    let content_type :=
      if Py.endswith_any lp [".docx"; ".doc"] then "docx" else "pptx" in
    partition_func ← partition_module W content_type;
    partition_func file_path
  else
    let doc_type := List.last (Py.split_on "." lp) "" in
    partition_func ← partition_module W doc_type;
    partition_func file_path.

Definition _get_elements (file_path : string) : list Element :=
  catch (_get_elements_try file_path) (fun _ => []).

Definition get_page_number (element : Element) : Outcome (option Z) :=
  md ← getattr_or_raise "metadata" (el_metadata element);
  Ok (getattr_page_number md 1).

(** The text of one page group. *)
Definition page_text (page_elements : list Element) : string :=
  let page_content :=
    Py.join " "
      (omap (fun el => match el_text el with
                       | Some t => if Py.truthy t then Some t else None
                       | None => None
                       end) page_elements) in
  Py.strip (Py.replace "010" " " page_content).

(** [sorted] computes the key of every element first and then compares
    the keys; the groups are taken over the sorted sequence. *)
Definition _combine_elements_by_page (elements : list Element)
  : Outcome (list string) :=
  keyed ← mapM (fun el => k ← get_page_number el; Ok (k, el)) elements;
  sorted_elements ← sorted fst keyed;
  Ok (List.filter Py.truthy
        (List.map (fun g => page_text (List.map snd (snd g)))
                  (groupby fst sorted_elements))).

Definition _should_chunk_content (content : string) (chunk_size : Z) : bool :=
  Z.of_nat (length (Py.split content)) >? chunk_size.

(** The state of the packing loop. *)
Record Packer : Type := {
  chunks : list string;
  current_chunk : list string;
  current_count : Z
}.

(** One iteration of [for word in words]. *)
Definition pack_word (chunk_size : Z) (st : Packer) (word : string) : Packer :=
  let n := Z.of_nat (length (Py.split word)) in
  if current_count st + n >? chunk_size then
    {| chunks := if bool_decide (current_chunk st = [])
                 then chunks st
                 else chunks st ++ [Py.join " " (current_chunk st)];
       current_chunk := [word];
       current_count := n |}
  else
    {| chunks := chunks st;
       current_chunk := current_chunk st ++ [word];
       current_count := current_count st + n |}.

(** The default greedy packer: the part of [_chunk_content] after the
    custom-splitter test. *)
Definition default_chunks (content : string) (chunk_size : Z) : list string :=
  let words := Py.split content in
  let st := foldl (pack_word chunk_size)
                  {| chunks := []; current_chunk := []; current_count := 0 |}
                  words in
  if bool_decide (current_chunk st = [])
  then chunks st
  else chunks st ++ [Py.join " " (current_chunk st)].

Definition _chunk_content (content : string) (chunk_size : Z)
  : Outcome (list string) :=
  match custom_splitter config with
  | Some splitter => splitter content chunk_size
  | None => Ok (default_chunks content chunk_size)
  end.

(** The output units of the page at position [idx]: the body of the
    loop over [enumerate(page_contents, 1)]. *)
Definition page_documents (source : string) (idx : Z) (content : string)
  : Outcome (list Document) :=
  if _should_chunk_content content (chunk_size config) then
    chunks ← _chunk_content content (chunk_size config);
    mapM (fun '(chunk_idx, chunk) =>
            filetype ← _get_filetype self source;
            Ok {| page_content := chunk;
                  metadata := [ ("filename", VStr (Path.name source));
                                ("filetype", VStr filetype);
                                ("page_number", VInt idx);
                                ("chunk_number", VInt chunk_idx);
                                ("source", VStr source) ] |})
         (enumerate 1 chunks)
  else
    filetype ← _get_filetype self source;
    Ok [ {| page_content := content;
            metadata := [ ("filename", VStr (Path.name source));
                          ("filetype", VStr filetype);
                          ("page_number", VInt idx);
                          ("source", VStr source) ] |} ].

Definition _process_elements_to_document (elements : list Element)
    (source : string) : Outcome (list Document) :=
  page_contents ← _combine_elements_by_page elements;
  per_page ← mapM (fun '(idx, content) => page_documents source idx content)
                  (enumerate 1 page_contents);
  Ok (concat per_page).

(** The body of the loop over the completed futures: the value stored
    under [Path(source).name]. *)
Definition source_result (source : string) : list Document :=
  catch (let elements := _get_elements source in
         let filtered_elements := _filter_elements elements in
         _process_elements_to_document filtered_elements source)
        (fun _ => []).
End Processor.

(** [ThreadPoolExecutor(max_workers=n)] of the standard library refuses a
    worker count that is not positive. *)
Definition ThreadPoolExecutor (max_workers : Z) : Outcome unit :=
  if max_workers <=? 0
  then Raise (ValueError "max_workers must be greater than 0")
  else Ok tt.

(** [process(config)].  The futures run [_get_elements] on each source;
    [completed] lists the sources in the order in which [as_completed]
    hands their futures over, which is some permutation of [self.sources].
    The call yields the processor as it leaves it, together with what it
    returns or raises: the OCR processor is created before the executor
    is, so a call that raises there has already stored it. *)
Definition process (W : World) (self : DocumentProcessor)
    (config : option ProcessingConfig) (completed : list string)
  : DocumentProcessor * Outcome (gmap string (list Document)) :=
  let config := default default_config config in
  let self := _init_ocr_processor self config in
  (self,
   _ ← ThreadPoolExecutor (max_workers config);
   let results :=
     foldl (fun (results : gmap string (list Document)) source =>
              <[Path.name source := source_result W self config source]> results)
           ∅ completed in
   Ok results).

(* ===================================================================== *)
(** ** Notions used by the properties *)
(* ===================================================================== *)

(** No character of [s] is whitespace. *)
Fixpoint nospace (s : string) : bool :=
  match s with
  | EmptyString => true
  | String c s' => negb (Py.isspace c) && nospace s'
  end.

(** A word: not empty and free of whitespace. *)
Definition word (w : string) : Prop := w ≠ EmptyString ∧ nospace w = true.

(** The loop invariant: the sealed chunks are the joins of groups of at
    most [n] words, the open bucket holds [current_count] words, and the
    groups followed by the bucket are the words read so far. *)
Definition packed (n : Z) (st : Packer) (seen : list string) : Prop :=
  ∃ gs : list (list string),
    chunks st = Py.join " " <$> gs
    ∧ Forall (λ g, g ≠ [] ∧ Z.of_nat (length g) ≤ n) gs
    ∧ concat gs ++ current_chunk st = seen
    ∧ current_count st = Z.of_nat (length (current_chunk st))
    ∧ current_count st ≤ n.

(** The metadata every output unit of the page at position [idx] of
    [source] carries. *)
Definition unit_of (source filetype : string) (idx : Z) (d : Document) : Prop :=
  dict_get "filename" (metadata d) = Some (VStr (Path.name source))
  ∧ dict_get "filetype" (metadata d) = Some (VStr filetype)
  ∧ dict_get "page_number" (metadata d) = Some (VInt idx)
  ∧ dict_get "source" (metadata d) = Some (VStr source).

Section Keyed.
Context {A : Type} (key : A → Z).

(** Stable insertion by an integer key: [x] goes before the first element
    whose key is not smaller. *)
Fixpoint stable_insert (x : A) (l : list A) : list A :=
  match l with
  | [] => [x]
  | y :: l' => if key x <=? key y then x :: l else y :: stable_insert x l'
  end.

(** The stable sort by an integer key: what [sorted] returns when every
    key is an integer. *)
Fixpoint stable_sort (l : list A) : list A :=
  match l with
  | [] => []
  | x :: l' => stable_insert x (stable_sort l')
  end.

(** The maximal runs of consecutive elements with equal integer keys. *)
Fixpoint runs (l : list A) : list (Z * list A) :=
  match l with
  | [] => []
  | x :: l' =>
      match runs l' with
      | (k, g) :: gs =>
          if key x =? k then (k, x :: g) :: gs
          else (key x, [x]) :: (k, g) :: gs
      | [] => [(key x, [x])]
      end
  end.

(** The elements of [l] with key [p], in the order of [l]. *)
Definition with_key (p : Z) (l : list A) : list A :=
  List.filter (λ x, key x =? p) l.

(** Every later element has a key at least as large. *)
Definition ascending (l : list A) : Prop :=
  StronglySorted (λ a b, key a ≤ key b) l.

(** The keys of the runs, in order. *)
Definition group_keys (l : list A) : list Z := (runs l).*1.

End Keyed.

(** [html.escape(s)] of the standard library, the escaping the
    specification speaks of: the five characters [&], [<], [>], the
    double quote and the single quote are replaced by entities. *)
Fixpoint html_escape (s : string) : string :=
  match s with
  | EmptyString => EmptyString
  | String c s' =>
      (if Ascii.eqb c "&" then "&amp;"
       else if Ascii.eqb c "<" then "&lt;"
       else if Ascii.eqb c ">" then "&gt;"
       else if Ascii.eqb c "034" then "&quot;"
       else if Ascii.eqb c "'" then "&#x27;"
       else String c EmptyString) +:+ html_escape s'
  end.

(** The element [_create_element_from_ocr] builds. *)
Definition ocr_element (W : World) (file_path filetype text : string) : Element :=
  {| el_text := Some text;
     el_category := Some (Text_category W);
     el_id := Some (Text_id W text);
     el_metadata :=
       Some (MetadataDict
               [ ("filename", VStr (Path.name file_path));
                 ("file_directory", VStr (Path.parent file_path));
                 ("filetype", VStr filetype);
                 ("page_number", VInt 1);
                 ("text_as_html", VStr text);
                 ("last_modified", VStr (now_isoformat W)) ]) |}.

(** The elements that survive the empty filter and the header filter. *)
Definition surviving (config : ProcessingConfig) (elements : list Element)
  : list Element :=
  let filtered :=
    if filter_empty_elements config
    then List.filter has_content elements else elements in
  if remove_headers config
  then List.filter (λ el, negb (String.eqb (getattr_category el) "Header"))
                   filtered
  else filtered.

(** A references heading: the stripped, lowercased text is [references]
    and the category is [Title]. *)
Definition is_references_heading (el : Element) : bool :=
  match el_text el with
  | Some t => String.eqb (Py.lower (Py.strip t)) "references"
              && String.eqb (getattr_category el) "Title"
  | None => false
  end.

(** The parent-identity reference of an element, if it carries one. *)
Definition parent_identity (el : Element) : option string :=
  match el_metadata el with
  | Some md => getattr_parent_id md
  | None => None
  end.

(** The elements that are not direct children of [i]. *)
Definition without_children_of (i : string) (l : list Element) : list Element :=
  List.filter (λ el, negb (bool_decide (parent_identity el = Some i))) l.

(** The page number of an element, when it has one: the page number set
    in the library's metadata, and 1 for an element whose metadata is a
    plain dict.  An element without metadata, or whose library metadata
    has no page number set, has none. *)
Definition page_key (el : Element) : option Z :=
  match el_metadata el with
  | Some (ElementMetadata (Some n) _ _) => Some n
  | Some (MetadataDict _) => Some 1
  | _ => None
  end.

(** The elements of page [p], in the order of [l]. *)
Definition on_page (p : Z) (l : list Element) : list Element :=
  List.filter (λ el, bool_decide (page_key el = Some p)) l.

(** The integer a page key stands for, for keys that are integers. *)
Definition key_number {A} (kx : option Z * A) : Z := default 0 kx.1.

(** One iteration of the loop over the completed futures, when the
    source [s] yields [f s]. *)
Definition store (f : string → list Document)
    (results : gmap string (list Document)) (source : string)
  : gmap string (list Document) :=
  <[Path.name source := f source]> results.

(** The mapping the loop over the completed futures builds. *)
Definition collect (f : string → list Document) (completed : list string)
  : gmap string (list Document) :=
  foldl (store f) ∅ completed.

(** Different sources have different file names. *)
Definition names_distinct (srcs : list string) : Prop :=
  ∀ s s', s ∈ srcs → s' ∈ srcs → Path.name s = Path.name s' → s = s'.

(** The pipeline of one source without the two handlers: extraction,
    filtering, aggregation and chunking, raising when a stage raises. *)
Definition source_pipeline (W : World) (self : DocumentProcessor)
    (config : ProcessingConfig) (source : string) : Outcome (list Document) :=
  elements ← _get_elements_try W self config source;
  _process_elements_to_document self config
    (_filter_elements config elements) source.

(** [l] without the source [s]. *)
Definition without (s : string) (l : list string) : list string :=
  List.filter (λ x, negb (String.eqb x s)) l.

(** The world [W] at another time. *)
Definition with_clock (W : World) (t : string) : World := {|
  ocr_extract_text := ocr_extract_text W;
  partition_pdf := partition_pdf W;
  partition_xlsx := partition_xlsx W;
  partition_html := partition_html W;
  partition_image := partition_image W;
  partition_email := partition_email W;
  partition_module := partition_module W;
  urlparse_scheme := urlparse_scheme W;
  now_isoformat := t;
  Text_category := Text_category W;
  Text_id := Text_id W
|}.

(** An element without the entries of its metadata dict, which nothing
    after extraction reads. *)
Definition forget_items (el : Element) : Element :=
  {| el_text := el_text el;
     el_category := el_category el;
     el_id := el_id el;
     el_metadata := match el_metadata el with
                    | Some (MetadataDict _) => Some (MetadataDict [])
                    | m => m
                    end |}.

(** The outcome of [m] with [h] applied to its value. *)
Definition outcome_map {A B} (h : A → B) (m : Outcome A) : Outcome B :=
  match m with
  | Ok a => Ok (h a)
  | Raise e => Raise e
  end.

(** [from_file] tests these prefixes. *)
Definition url_like (file_path : string) : bool :=
  Py.startswith_any (Py.lower file_path) ["http://"; "https://"; "www."].

(** The element has metadata with an HTML table representation. *)
Definition has_table_html (el : Element) : bool :=
  match el_metadata el with
  | Some md => bool_decide (is_Some (getattr_text_as_html md))
  | None => false
  end.

(** The element has a [metadata] attribute. *)
Definition has_metadata (el : Element) : bool :=
  bool_decide (is_Some (el_metadata el)).

(** The invariant of the packing loop for a positive bound [n]: every
    sealed chunk is the join of exactly [n] words, and nothing is sealed
    while the bucket is still empty. *)
Definition packed_full (n : Z) (st : Packer) (seen : list string) : Prop :=
  ∃ gs : list (list string),
    chunks st = Py.join " " <$> gs
    ∧ Forall (λ g, Z.of_nat (length g) = n) gs
    ∧ concat gs ++ current_chunk st = seen
    ∧ current_count st = Z.of_nat (length (current_chunk st))
    ∧ current_count st ≤ n
    ∧ (current_chunk st = [] → gs = []).

(** The invariant of the packing loop for a bound of at most one: the
    sealed chunks are the words themselves and the bucket holds at most
    one word. *)
Definition packed_single (st : Packer) (seen : list string) : Prop :=
  chunks st ++ current_chunk st = seen
  ∧ current_count st = Z.of_nat (length (current_chunk st))
  ∧ current_count st ≤ 1.

(** The character [c] occurs in [s]. *)
Fixpoint occurs (c : ascii) (s : string) : Prop :=
  match s with
  | EmptyString => False
  | String a s' => a = c ∨ occurs c s'
  end.

(** [s] does not begin with whitespace. *)
Definition starts_clean (s : string) : Prop :=
  match s with
  | EmptyString => True
  | String a _ => Py.isspace a = false
  end.

(** [s] contains neither a slash nor a dot. *)
Fixpoint plain (s : string) : bool :=
  match s with
  | EmptyString => true
  | String c s' => negb (Ascii.eqb c "/") && negb (Ascii.eqb c ".") && plain s'
  end.

(** Every character of [s] is whitespace. *)
Fixpoint blank (s : string) : bool :=
  match s with
  | EmptyString => true
  | String c s' => Py.isspace c && blank s'
  end.

(** The text of an element as page aggregation reads it: nothing when
    the element has no text. *)
Definition element_text (el : Element) : string :=
  match el_text el with
  | Some t => t
  | None => EmptyString
  end.

(** The words of the texts of a sequence of elements, in order. *)
Definition element_words (l : list Element) : list string :=
  concat (Py.split <$> (element_text <$> l)).

(** The texts of a sequence of elements that are not empty, in order. *)
Definition texts (l : list Element) : list string :=
  List.filter (λ t, negb (String.eqb t "")) (element_text <$> l).

(** The text the specification gives a page: the texts joined with
    single spaces, newlines replaced by spaces, stripped. *)
Definition joined_text (ts : list string) : string :=
  Py.strip (Py.replace "010" " " (Py.join " " ts)).

(* ===================================================================== *)
(** ** Sample inputs *)
(* ===================================================================== *)

(** A world in which no partition function finds anything and the OCR
    capability reads [ocr]. *)
Definition quiet_world (ocr : Outcome string) : World := {|
  ocr_extract_text := λ _ _, ocr;
  partition_pdf := λ _ _ _, Ok [];
  partition_xlsx := λ _, Ok [];
  partition_html := λ _, Ok [];
  partition_image := λ _, Ok [];
  partition_email := λ _, Ok [];
  partition_module := λ _, Ok (λ _, Ok []);
  urlparse_scheme := λ _, Ok "";
  now_isoformat := "2024-01-01T00:00:00";
  Text_category := "UncategorizedText";
  Text_id := λ t, t
|}.

(** The default configuration with OCR switched on. *)
Definition ocr_config : ProcessingConfig := {|
  chunk_size := 500;
  hi_res_pdf := true;
  infer_tables := false;
  custom_splitter := None;
  max_workers := 4;
  remove_headers := false;
  remove_references := false;
  filter_empty_elements := true;
  ocr_for_images := true;
  ocr_model := "tesseract"
|}.

(** The processor of the single source [scan.png], as [process] sees it
    once the OCR processor is in place. *)
Definition scan_processor : DocumentProcessor :=
  _init_ocr_processor
    {| sources := ["scan.png"];
       doc_types := {[ "scan.png" := PNG ]};
       ocr_processor := None |}
    ocr_config.

(** A configuration that only removes references. *)
Definition references_config : ProcessingConfig := {|
  chunk_size := 500;
  hi_res_pdf := true;
  infer_tables := false;
  custom_splitter := None;
  max_workers := 4;
  remove_headers := false;
  remove_references := true;
  filter_empty_elements := true;
  ocr_for_images := false;
  ocr_model := "tesseract"
|}.

(** An element of a parsed document. *)
Definition parsed (text category id : string) (page : option Z)
    (parent : option string) : Element :=
  {| el_text := Some text;
     el_category := Some category;
     el_id := Some id;
     el_metadata := Some (ElementMetadata page parent None) |}.

(** A body paragraph, a references heading, a direct child of the
    heading, and a child of that child. *)
Definition paper : list Element :=
  [ parsed "Results hold." "NarrativeText" "e1" (Some 1) None;
    parsed " References " "Title" "e2" (Some 2) None;
    parsed "[1] A. Author" "ListItem" "e3" (Some 2) (Some "e2");
    parsed "continued" "NarrativeText" "e4" (Some 2) (Some "e3") ].

(** Elements of pages 5, 1, 5 and 3, out of order; the element of page 3
    is blank, and the page number of one element is not set. *)
Definition shuffled : list Element :=
  [ parsed "five, first" "NarrativeText" "a" (Some 5) None;
    parsed "one" "NarrativeText" "b" (Some 1) None;
    parsed "five,
second" "NarrativeText" "c" (Some 5) None;
    parsed "  " "NarrativeText" "d" (Some 3) None;
    parsed "unnumbered" "NarrativeText" "e" None None ].

(** Elements of pages 5, 1, 5 and 3, out of order, all numbered; the
    element of page 3 is blank. *)
Definition numbered : list Element :=
  [ parsed "five, first" "NarrativeText" "a" (Some 5) None;
    parsed "one" "NarrativeText" "b" (Some 1) None;
    parsed "five,
second" "NarrativeText" "c" (Some 5) None;
    parsed "  " "NarrativeText" "d" (Some 3) None ].

(** The elements of [numbered] with the pages interleaved in another
    way. *)
Definition interleaved : list Element :=
  [ parsed "one" "NarrativeText" "b" (Some 1) None;
    parsed "five, first" "NarrativeText" "a" (Some 5) None;
    parsed "  " "NarrativeText" "d" (Some 3) None;
    parsed "five,
second" "NarrativeText" "c" (Some 5) None ].

(** A parsed page with one paragraph. *)
Definition one_paragraph : list Element :=
  [parsed "hello world" "NarrativeText" "p1" (Some 1) None].

(** What a partition function of [text_world] does with a file. *)
Definition read_paragraph (fails : string → bool) (filename : string)
  : Outcome (list Element) :=
  if fails filename then Raise (ExternalError "cannot read")
  else Ok one_paragraph.

(** A world in which every partition function reads one paragraph, except
    from the files on which [fails] holds, where it raises. *)
Definition text_world (fails : string → bool) : World := {|
  ocr_extract_text := λ _ _, Ok "";
  partition_pdf := λ filename _ _, read_paragraph fails filename;
  partition_xlsx := λ _, Ok [];
  partition_html := read_paragraph fails;
  partition_image := read_paragraph fails;
  partition_email := read_paragraph fails;
  partition_module := λ _, Ok (read_paragraph fails);
  urlparse_scheme := λ _, Ok "";
  now_isoformat := "2024-01-01T00:00:00";
  Text_category := "UncategorizedText";
  Text_id := λ t, t
|}.

(** Two sources in different directories with the same file name. *)
Definition same_name_processor : DocumentProcessor :=
  {| sources := ["a/x.pdf"; "b/x.pdf"];
     doc_types := {[ "a/x.pdf" := PDF; "b/x.pdf" := PDF ]};
     ocr_processor := None |}.

(** Two sources with different file names. *)
Definition two_files_processor : DocumentProcessor :=
  {| sources := ["a/x.pdf"; "b/y.pdf"];
     doc_types := {[ "a/x.pdf" := PDF; "b/y.pdf" := PDF ]};
     ocr_processor := None |}.

(** The configuration [ocr_config] with the other OCR model. *)
Definition paddle_config : ProcessingConfig := {|
  chunk_size := 500;
  hi_res_pdf := true;
  infer_tables := false;
  custom_splitter := None;
  max_workers := 4;
  remove_headers := false;
  remove_references := false;
  filter_empty_elements := true;
  ocr_for_images := true;
  ocr_model := "paddle"
|}.

(** The configuration [ocr_config] without any worker. *)
Definition no_workers_config : ProcessingConfig := {|
  chunk_size := 500;
  hi_res_pdf := true;
  infer_tables := false;
  custom_splitter := None;
  max_workers := 0;
  remove_headers := false;
  remove_references := false;
  filter_empty_elements := true;
  ocr_for_images := true;
  ocr_model := "tesseract"
|}.

(** The default configuration with chunks of two words. *)
Definition small_chunks_config : ProcessingConfig := {|
  chunk_size := 2;
  hi_res_pdf := true;
  infer_tables := false;
  custom_splitter := None;
  max_workers := 4;
  remove_headers := false;
  remove_references := false;
  filter_empty_elements := true;
  ocr_for_images := false;
  ocr_model := "tesseract"
|}.

(** A sheet title without a table representation and a table with one. *)
Definition sheet_elements : list Element :=
  [ parsed "Sheet1" "Title" "t0" (Some 1) None;
    {| el_text := Some "a b";
       el_category := Some "Table";
       el_id := Some "t1";
       el_metadata :=
         Some (ElementMetadata (Some 1) None (Some "<table></table>")) |} ].

(** A world in which the spreadsheet partition function reads
    [sheet_elements]. *)
Definition sheet_world : World := {|
  ocr_extract_text := λ _ _, Ok "";
  partition_pdf := λ _ _ _, Ok [];
  partition_xlsx := λ _, Ok sheet_elements;
  partition_html := λ _, Ok [];
  partition_image := λ _, Ok [];
  partition_email := λ _, Ok [];
  partition_module := λ _, Ok (λ _, Ok []);
  urlparse_scheme := λ _, Ok "";
  now_isoformat := "2024-01-01T00:00:00";
  Text_category := "UncategorizedText";
  Text_id := λ t, t
|}.

(** A world in which the PDF partition function reads [shuffled]. *)
Definition report_world : World := {|
  ocr_extract_text := λ _ _, Ok "";
  partition_pdf := λ _ _ _, Ok shuffled;
  partition_xlsx := λ _, Ok [];
  partition_html := λ _, Ok [];
  partition_image := λ _, Ok [];
  partition_email := λ _, Ok [];
  partition_module := λ _, Ok (λ _, Ok []);
  urlparse_scheme := λ _, Ok "";
  now_isoformat := "2024-01-01T00:00:00";
  Text_category := "UncategorizedText";
  Text_id := λ t, t
|}.

(** The processor of the single source [report.pdf]. *)
Definition report_processor : DocumentProcessor :=
  {| sources := ["report.pdf"];
     doc_types := {[ "report.pdf" := PDF ]};
     ocr_processor := None |}.

(** Three sources, two of them with the same file name. *)
Definition three_files_processor : DocumentProcessor :=
  {| sources := ["a/x.pdf"; "b/x.pdf"; "b/y.pdf"];
     doc_types := {[ "a/x.pdf" := PDF; "b/x.pdf" := PDF; "b/y.pdf" := PDF ]};
     ocr_processor := None |}.

(* ===================================================================== *)
(** ** Words, [split] and [join] *)
(* ===================================================================== *)

Lemma append_String c s r : String c s +:+ r = String c (s +:+ r).
Proof. reflexivity. Qed.

Lemma append_empty_l r : EmptyString +:+ r = r.
Proof. reflexivity. Qed.

Lemma append_empty_r s : s +:+ EmptyString = s.
Proof. induction s as [|c s IH]; [done|]. by rewrite append_String, IH. Qed.

Lemma cons_word_word w ws : w ≠ EmptyString → Py.cons_word w ws = w :: ws.
Proof. by destruct w. Qed.

Lemma split_scan_words s :
  nospace (Py.split_scan s).1 = true ∧ Forall word (Py.split_scan s).2.
Proof.
  induction s as [|c s [IHw IHws]]; simpl; [by split|].
  destruct (Py.split_scan s) as [w ws] eqn:E; simpl in *.
  destruct (Py.isspace c) eqn:Hc; simpl.
  - split; [done|]. destruct w as [|a w]; simpl; [done|].
    constructor; [|done]. by split.
  - split; [|done]. by rewrite Hc.
Qed.

Lemma split_words s : Forall word (Py.split s).
Proof.
  unfold Py.split. pose proof (split_scan_words s) as [Hw Hws].
  destruct (Py.split_scan s) as [w ws]; simpl in *.
  destruct w as [|a w]; simpl; [done|]. constructor; [|done]. by split.
Qed.

Lemma split_scan_nospace_app w s :
  nospace w = true →
  Py.split_scan (w +:+ s) = (w +:+ (Py.split_scan s).1, (Py.split_scan s).2).
Proof.
  induction w as [|c w IH]; simpl; intros Hw.
  - rewrite !append_empty_l. by destruct (Py.split_scan s).
  - apply andb_prop in Hw as [Hc Hw]. rewrite !append_String. simpl.
    rewrite (IH Hw). apply negb_true_iff in Hc. by rewrite Hc.
Qed.

Lemma split_scan_space s :
  Py.split_scan (String " " s) = (EmptyString, Py.split s).
Proof. simpl. unfold Py.split. by destruct (Py.split_scan s). Qed.

Lemma split_word w : word w → Py.split w = [w].
Proof.
  intros [Hne Hw]. unfold Py.split.
  rewrite <- (append_empty_r w) at 1.
  rewrite (split_scan_nospace_app _ _ Hw). simpl.
  rewrite append_empty_r. by apply cons_word_word.
Qed.

Lemma split_join ws : Forall word ws → Py.split (Py.join " " ws) = ws.
Proof.
  induction 1 as [|w ws Hw Hws IH]; [done|].
  destruct ws as [|w' ws]; [by apply split_word|].
  change (Py.join " " (w :: w' :: ws))
    with (w +:+ String " " (Py.join " " (w' :: ws))).
  destruct Hw as [Hne Hw]. unfold Py.split at 1.
  rewrite (split_scan_nospace_app _ _ Hw), split_scan_space. cbn [fst snd].
  rewrite append_empty_r, IH. by apply cons_word_word.
Qed.

Lemma append_assoc (a b c : string) : (a +:+ b) +:+ c = a +:+ (b +:+ c).
Proof. induction a as [|x a IH]; [done|]. by rewrite !append_String, IH. Qed.

Lemma join_app sep (l1 l2 : list string) :
  l1 ≠ [] → l2 ≠ [] →
  Py.join sep (l1 ++ l2) = Py.join sep l1 +:+ sep +:+ Py.join sep l2.
Proof.
  intros H1 H2. induction l1 as [|x l1 IH]; [done|].
  destruct l1 as [|y l1].
  - simpl. by destruct l2.
  - change (Py.join sep ((x :: y :: l1) ++ l2))
      with (x +:+ sep +:+ Py.join sep ((y :: l1) ++ l2)).
    rewrite IH by done.
    change (Py.join sep (x :: y :: l1))
      with (x +:+ sep +:+ Py.join sep (y :: l1)).
    by rewrite !append_assoc.
Qed.

Lemma join_concat sep (gs : list (list string)) :
  Forall (λ g, g ≠ []) gs →
  Py.join sep (Py.join sep <$> gs) = Py.join sep (concat gs).
Proof.
  induction 1 as [|g gs Hg Hgs IH]; [done|].
  destruct gs as [|g' gs].
  - simpl. by rewrite app_nil_r.
  - change (Py.join sep (Py.join sep <$> g :: g' :: gs))
      with (Py.join sep g +:+ sep +:+ Py.join sep (Py.join sep <$> g' :: gs)).
    rewrite IH.
    change (concat (g :: g' :: gs)) with (g ++ concat (g' :: gs)).
    rewrite (join_app sep g (concat (g' :: gs))); [done|done|].
    inversion Hgs; subst. simpl. by destruct g'.
Qed.

(* ===================================================================== *)
(** ** The default greedy packer *)
(* ===================================================================== *)

Lemma pack_word_packed n st seen w :
  0 < n → word w → packed n st seen →
  packed n (pack_word n st w) (seen ++ [w]).
Proof.
  intros Hn Hw (gs & Hch & Hgs & Hseen & Hcnt & Hle).
  unfold pack_word. rewrite (split_word w Hw). simpl length.
  destruct (current_count st + Z.of_nat 1 >? n) eqn:Hcmp;
    rewrite Z.gtb_ltb in Hcmp;
    [apply Z.ltb_lt in Hcmp | apply Z.ltb_ge in Hcmp].
  - case_bool_decide as Hcur.
    + exists gs. simpl. split_and!; [done|done| |done|lia].
      rewrite Hcur, app_nil_r in Hseen. by rewrite <- Hseen.
    + exists (gs ++ [current_chunk st]). simpl. split_and!; [| | |done|lia].
      * by rewrite Hch, fmap_app.
      * apply Forall_app. split; [done|]. constructor; [|done].
        split; [done|lia].
      * rewrite concat_app. simpl. rewrite app_nil_r. by rewrite Hseen.
  - exists gs. simpl. split_and!; [done|done| | |lia].
    + by rewrite app_assoc, Hseen.
    + rewrite length_app. simpl. lia.
Qed.

Lemma foldl_pack_word_packed n ws st seen :
  0 < n → Forall word ws → packed n st seen →
  packed n (foldl (pack_word n) st ws) (seen ++ ws).
Proof.
  intros Hn Hws. revert st seen.
  induction Hws as [|w ws Hw Hws IH]; intros st seen Hst; simpl.
  - by rewrite app_nil_r.
  - replace (seen ++ w :: ws) with ((seen ++ [w]) ++ ws)
      by (by rewrite <- app_assoc).
    apply IH. by apply pack_word_packed.
Qed.

(** The chunks of the default packer are the joins of consecutive groups
    of at most [n] words that together make up the words of the page. *)
Lemma default_chunks_groups content n :
  0 < n →
  ∃ gs : list (list string),
    default_chunks content n = Py.join " " <$> gs
    ∧ Forall (λ g, g ≠ [] ∧ Z.of_nat (length g) ≤ n) gs
    ∧ concat gs = Py.split content.
Proof.
  intros Hn. unfold default_chunks.
  set (st0 := {| chunks := []; current_chunk := []; current_count := 0 |}).
  assert (packed n st0 []) as H0.
  { exists []. simpl. split_and!; [done|done|done|done|lia]. }
  pose proof (foldl_pack_word_packed n _ st0 [] Hn (split_words content) H0)
    as (gs & Hch & Hgs & Hseen & Hcnt & Hle).
  simpl in Hseen. case_bool_decide as Hcur.
  - exists gs. split_and!; [done|done|].
    by rewrite Hcur, app_nil_r in Hseen.
  - exists (gs ++ [current_chunk (foldl (pack_word n) st0 (Py.split content))]).
    split_and!.
    + by rewrite Hch, fmap_app.
    + apply Forall_app. split; [done|]. constructor; [|done].
      split; [done|lia].
    + rewrite concat_app. simpl. by rewrite app_nil_r.
Qed.

Lemma Forall_word_concat (gs : list (list string)) :
  Forall word (concat gs) → Forall (Forall word) gs.
Proof.
  induction gs as [|g gs IH]; simpl; [done|].
  intros [Hg Hgs]%Forall_app. constructor; auto.
Qed.

Lemma split_join_groups (gs : list (list string)) :
  Forall (Forall word) gs → Py.split <$> (Py.join " " <$> gs) = gs.
Proof.
  induction 1 as [|g gs Hg Hgs IH]; [done|].
  simpl. rewrite split_join by done. f_equal. apply IH.
Qed.

(** C3.  For every page text and every positive chunk size, with no custom
    splitter configured, [_chunk_content] returns chunks whose join with
    single spaces has exactly the word sequence of the page (it is the
    join of the page's words, and splitting the chunks one by one gives
    the page's words back in order), and no chunk has more than
    [chunk_size] words. *)
Theorem chunking_law (config : ProcessingConfig) (content : string) (n : Z) :
  custom_splitter config = None →
  0 < n →
  ∃ chunks : list string,
    _chunk_content config content n = Ok chunks
    ∧ Py.split (Py.join " " chunks) = Py.split content
    ∧ Py.join " " chunks = Py.join " " (Py.split content)
    ∧ concat (Py.split <$> chunks) = Py.split content
    ∧ Forall (λ c, Z.of_nat (length (Py.split c)) ≤ n) chunks.
Proof.
  intros Hnone Hn. unfold _chunk_content. rewrite Hnone.
  destruct (default_chunks_groups content n Hn) as (gs & Hch & Hgs & Hcat).
  exists (default_chunks content n). rewrite Hch.
  assert (Forall (λ g : list string, g ≠ []) gs) as Hne.
  { eapply Forall_impl; [exact Hgs|]. by intros g [? _]. }
  assert (Forall (Forall word) gs) as Hwords.
  { apply Forall_word_concat. rewrite Hcat. apply split_words. }
  assert (Py.join " " (Py.join " " <$> gs) = Py.join " " (Py.split content))
    as Hjoin by (by rewrite join_concat, Hcat).
  split_and!.
  - done.
  - rewrite Hjoin. apply split_join, split_words.
  - done.
  - by rewrite split_join_groups.
  - clear Hch Hcat Hjoin Hne.
    induction Hgs as [|g gs [_ Hg] Hgs IH]; [done|].
    inversion Hwords; subst. simpl. constructor; [|by apply IH].
    by rewrite split_join.
Qed.

Lemma chunking_law_witness :
  ∃ chunks : list string,
    _chunk_content default_config "a b c d e" 2 = Ok chunks
    ∧ Py.split (Py.join " " chunks) = Py.split "a b c d e"
    ∧ Py.join " " chunks = Py.join " " (Py.split "a b c d e")
    ∧ concat (Py.split <$> chunks) = Py.split "a b c d e"
    ∧ Forall (λ c, Z.of_nat (length (Py.split c)) ≤ 2) chunks.
Proof.
  apply (chunking_law default_config "a b c d e" 2); [reflexivity | lia].
Defined.

(** C9.  With no custom splitter, the page text [a b c d e] and chunk size
    2 give exactly the chunks [a b], [c d], [e], in that order. *)
Theorem default_splitter_example (config : ProcessingConfig) :
  custom_splitter config = None →
  _chunk_content config "a b c d e" 2 = Ok ["a b"; "c d"; "e"].
Proof. intros Hnone. unfold _chunk_content. by rewrite Hnone. Qed.

Lemma default_splitter_example_witness :
  _chunk_content default_config "a b c d e" 2 = Ok ["a b"; "c d"; "e"].
Proof. apply (default_splitter_example default_config). reflexivity. Defined.

(* ===================================================================== *)
(** ** Classification at construction *)
(* ===================================================================== *)

Lemma from_file_raise s e :
  from_file s = Raise e →
  Py.startswith_any (Py.lower s) ["http://"; "https://"; "www."] = false
  ∧ by_value (extension s) = None
  ∧ e = ValueError ("Unsupported file type: " +:+ extension s).
Proof.
  unfold from_file.
  destruct (Py.startswith_any _ _); [done|].
  destruct (by_value (extension s)); [done|]. intros [= <-]. done.
Qed.

Lemma from_file_unsupported s :
  Py.startswith_any (Py.lower s) ["http://"; "https://"; "www."] = false →
  by_value (extension s) = None →
  from_file s = Raise (ValueError ("Unsupported file type: " +:+ extension s)).
Proof. unfold from_file. by intros -> ->. Qed.

Lemma build_doc_types_raise l acc s :
  s ∈ l → (∃ e, from_file s = Raise e) →
  ∃ s' e, s' ∈ l ∧ from_file s' = Raise e ∧ build_doc_types l acc = Raise e.
Proof.
  revert acc. induction l as [|x l IH]; intros acc Hin Hs.
  - by apply elem_of_nil in Hin.
  - simpl. destruct (from_file x) as [t|e] eqn:Hx.
    + apply elem_of_cons in Hin as [->|Hin].
      { destruct Hs as [e He]. congruence. }
      destruct (IH (<[x:=t]> acc) Hin Hs) as (s' & e & Hs' & He & Hb).
      exists s', e. split_and!; [by right|done|done].
    + exists x, e. split_and!; [by left|done|done].
Qed.

Lemma build_doc_types_lookup l acc m :
  build_doc_types l acc = Ok m →
  ∀ s, (s ∈ l → ∃ t, from_file s = Ok t ∧ m !! s = Some t)
       ∧ (s ∉ l → m !! s = acc !! s).
Proof.
  revert acc. induction l as [|x l IH]; intros acc Hb s; simpl in Hb.
  - injection Hb as <-. split; [by intros ?%elem_of_nil|done].
  - destruct (from_file x) as [t|e] eqn:Hx; [|done]. simpl in Hb.
    destruct (IH _ Hb s) as [IHin IHout].
    destruct (decide (s ∈ l)) as [Hl|Hl].
    + split; [intros _; by apply IHin|]. intros Hn. exfalso. apply Hn. by right.
    + rewrite (IHout Hl). split.
      * intros [->|?]%elem_of_cons; [|done]. exists t.
        by rewrite lookup_insert_eq.
      * intros Hn. apply not_elem_of_cons in Hn as [Hne _].
        by rewrite lookup_insert_ne.
Qed.

Lemma build_doc_types_ok l acc :
  (∀ s, s ∈ l → ∃ t, from_file s = Ok t) →
  ∃ m, build_doc_types l acc = Ok m.
Proof.
  revert acc. induction l as [|x l IH]; intros acc Hall; simpl.
  - by eexists.
  - destruct (Hall x) as [t ->]; [by left|]. simpl.
    apply IH. intros s Hs. apply Hall. by right.
Qed.

Lemma init_ok srcs :
  (∀ s, s ∈ srcs → ∃ t, from_file s = Ok t) →
  ∃ self, __init__ srcs = Ok self.
Proof.
  intros Hall. unfold __init__.
  destruct (build_doc_types_ok srcs ∅ Hall) as [m ->]. by eexists.
Qed.

Lemma init_inv srcs self :
  __init__ srcs = Ok self →
  sources self = srcs ∧ ocr_processor self = None
  ∧ ∀ s, s ∈ srcs → ∃ t, from_file s = Ok t ∧ doc_types self !! s = Some t.
Proof.
  unfold __init__. destruct (build_doc_types srcs ∅) as [m|e] eqn:Hb; [|done].
  intros [= <-]. simpl. split_and!; [done|done|].
  intros s Hs. by apply (build_doc_types_lookup _ _ _ Hb s).
Qed.

(** C5.  If some source is not URL-like and its extension is not the value
    of a supported document type, constructing the processor raises the
    unsupported-type error of such a source: no processor exists, hence
    nothing is processed or extracted. *)
Theorem unsupported_format_fails_construction (srcs : list string) (s : string) :
  s ∈ srcs →
  Py.startswith_any (Py.lower s) ["http://"; "https://"; "www."] = false →
  by_value (extension s) = None →
  ∃ s', s' ∈ srcs
    ∧ Py.startswith_any (Py.lower s') ["http://"; "https://"; "www."] = false
    ∧ by_value (extension s') = None
    ∧ __init__ srcs
      = Raise (ValueError ("Unsupported file type: " +:+ extension s')).
Proof.
  intros Hin Hurl Hext.
  destruct (build_doc_types_raise srcs ∅ s Hin) as (s' & e & Hs' & He & Hb).
  { eexists. by apply from_file_unsupported. }
  apply from_file_raise in He as (Hu & Hx & ->).
  exists s'. split_and!; [done|done|done|].
  unfold __init__. by rewrite Hb.
Qed.

Lemma unsupported_format_fails_construction_witness :
  ∃ s', s' ∈ ["report.pdf"; "notes.xyz"; "scan.png"]
    ∧ Py.startswith_any (Py.lower s') ["http://"; "https://"; "www."] = false
    ∧ by_value (extension s') = None
    ∧ __init__ ["report.pdf"; "notes.xyz"; "scan.png"]
      = Raise (ValueError ("Unsupported file type: " +:+ extension s')).
Proof.
  apply (unsupported_format_fails_construction
           ["report.pdf"; "notes.xyz"; "scan.png"] "notes.xyz").
  - apply list_elem_of_In. simpl. tauto.
  - reflexivity.
  - reflexivity.
Defined.

(* ===================================================================== *)
(** ** Sequencing lemmas *)
(* ===================================================================== *)

Lemma bind_Ok {A B} (m : Outcome A) (k : A → Outcome B) r :
  (m ≫= k) = Ok r → ∃ a, m = Ok a ∧ k a = Ok r.
Proof. destruct m as [a|e]; [|done]. intros H. by exists a. Qed.

Lemma mapM_Ok {A B} (f : A → Outcome B) l r :
  mapM f l = Ok r → Forall2 (λ x y, f x = Ok y) l r.
Proof.
  revert r. induction l as [|x l IH]; intros r; simpl.
  - intros [= <-]. constructor.
  - intros (y & Hy & (r' & Hr' & [= <-])%bind_Ok)%bind_Ok.
    constructor; auto.
Qed.

Lemma mapM_total {A B} (f : A → Outcome B) l :
  (∀ x, x ∈ l → ∃ y, f x = Ok y) → ∃ r, mapM f l = Ok r.
Proof.
  induction l as [|x l IH]; intros Hall; simpl; [by eexists|].
  destruct (Hall x) as [y ->]; [by left|].
  destruct IH as [r ->]; [intros; apply Hall; by right|].
  by eexists.
Qed.

Lemma enumerate_lookup {A} (l : list A) start i :
  enumerate start l !! i = (λ x, (start + Z.of_nat i, x)) <$> l !! i.
Proof.
  revert start i. induction l as [|x l IH]; intros start [|i]; simpl; try done.
  - by rewrite Z.add_0_r.
  - rewrite IH. destruct (l !! i); simpl; [|done]. do 2 f_equal. lia.
Qed.

Lemma enumerate_length {A} (l : list A) start :
  length (enumerate start l) = length l.
Proof. revert start. induction l; intros; simpl; auto. Qed.

(* ===================================================================== *)
(** ** Output units *)
(* ===================================================================== *)

Lemma page_documents_units self config source idx content docs :
  page_documents self config source idx content = Ok docs →
  Forall (λ d, ∃ filetype, _get_filetype self source = Ok filetype
                           ∧ unit_of source filetype idx d) docs.
Proof.
  unfold page_documents. intros Hd.
  destruct (_should_chunk_content content (chunk_size config)).
  - apply bind_Ok in Hd as (chs & _ & Hm). apply mapM_Ok in Hm.
    induction Hm as [|[ci c] d l r Hd Hm IH]; constructor; [|done].
    apply bind_Ok in Hd as (ft & Hft & [= <-]).
    exists ft. by repeat split.
  - apply bind_Ok in Hd as (ft & Hft & [= <-]).
    constructor; [|done]. exists ft. by repeat split.
Qed.

Lemma process_elements_units self config elements source docs :
  _process_elements_to_document self config elements source = Ok docs →
  ∃ pages per_page,
    _combine_elements_by_page elements = Ok pages
    ∧ docs = concat per_page
    ∧ Forall2 (λ '(idx, content) units,
                 page_documents self config source idx content = Ok units)
              (enumerate 1 pages) per_page.
Proof.
  unfold _process_elements_to_document.
  intros (pages & Hp & (per_page & Hm & [= <-])%bind_Ok)%bind_Ok.
  exists pages, per_page. split_and!; [done|done|].
  apply mapM_Ok in Hm. eapply Forall2_impl; [exact Hm|]. by intros [idx c] u.
Qed.

Lemma init_ocr_processor_fresh self config :
  ocr_processor self = None →
  ocr_for_images config = true →
  ocr_processor (_init_ocr_processor self config)
  = Some {| model := ocr_model config |}
  ∧ doc_types (_init_ocr_processor self config) = doc_types self
  ∧ sources (_init_ocr_processor self config) = sources self.
Proof.
  intros Hnone Hocr. unfold _init_ocr_processor. by rewrite Hocr, Hnone.
Qed.

Lemma init_ocr_processor_doc_types self config :
  doc_types (_init_ocr_processor self config) = doc_types self
  ∧ sources (_init_ocr_processor self config) = sources self.
Proof. unfold _init_ocr_processor. by destruct (_ && _). Qed.

(* ===================================================================== *)
(** ** URLs that end in .pdf *)
(* ===================================================================== *)

Lemma lower_rev_app s1 s2 :
  Py.lower (String.rev_app s1 s2) = String.rev_app (Py.lower s1) (Py.lower s2).
Proof. revert s2. induction s1 as [|c s1 IH]; intros s2; simpl; [done|]. by rewrite IH. Qed.

Lemma lower_rev s : Py.lower (String.rev s) = String.rev (Py.lower s).
Proof. apply lower_rev_app. Qed.

Lemma startswith_lower s p :
  Py.startswith s p = true → Py.startswith (Py.lower s) (Py.lower p) = true.
Proof.
  revert s. induction p as [|b p IH]; intros [|a s]; simpl; try done.
  intros [Hab Hs]%andb_prop. apply Ascii.eqb_eq in Hab as ->.
  by rewrite Ascii.eqb_refl, IH.
Qed.

Lemma endswith_lower s p :
  Py.endswith s p = true → Py.endswith (Py.lower s) (Py.lower p) = true.
Proof.
  unfold Py.endswith. intros H. rewrite <- !lower_rev. by apply startswith_lower.
Qed.

Lemma startswith_String s c p :
  Py.startswith s (String c p) = true →
  ∃ s', s = String c s' ∧ Py.startswith s' p = true.
Proof.
  destruct s as [|a s]; simpl; [done|].
  intros [Hac Hs]%andb_prop. apply Ascii.eqb_eq in Hac as ->. by exists s.
Qed.

(** A lowered path that ends in [.pdf] ends in no image suffix. *)
Lemma endswith_pdf_not_image lp :
  Py.endswith lp ".pdf" = true → Py.endswith_any lp image_suffixes = false.
Proof.
  unfold Py.endswith_any, Py.endswith, image_suffixes.
  change (String.rev ".pdf") with "fdp.".
  intros (s1 & -> & (s2 & -> & (s3 & -> & (s4 & -> & _)%startswith_String
    )%startswith_String)%startswith_String)%startswith_String.
  reflexivity.
Qed.

(** C10.  A source that begins with [http://] or [https://] and ends with
    [.pdf] is classified as HTML, so construction accepts it; every output
    unit of such a source carries the file type [text/html]; and yet
    [_get_elements] hands it to the PDF partition function, whatever the
    web partition function would do. *)
Theorem url_pdf_html_type_pdf_strategy (s : string) :
  Py.startswith s "http://" = true ∨ Py.startswith s "https://" = true →
  Py.endswith s ".pdf" = true →
  from_file s = Ok HTML
  ∧ __init__ [s]
    = Ok {| sources := [s]; doc_types := {[ s := HTML ]}; ocr_processor := None |}
  ∧ ∀ srcs self0 config,
      __init__ srcs = Ok self0 → s ∈ srcs →
      let self := _init_ocr_processor self0 config in
      _get_filetype self s = Ok "text/html"
      ∧ (∀ elements docs,
           _process_elements_to_document self config elements s = Ok docs →
           Forall (λ d, dict_get "filetype" (metadata d)
                        = Some (VStr "text/html")) docs)
      ∧ (∀ W,
           _get_elements W self config s
           = catch (partition_pdf W s
                      (if hi_res_pdf config then "hi_res" else "fast")
                      (infer_tables config))
                   (λ _, [])).
Proof.
  intros Hurl Hpdf.
  assert (from_file s = Ok HTML) as Hff.
  { unfold from_file, Py.startswith_any. cbn [existsb].
    destruct Hurl as [H|H]; apply startswith_lower in H.
    - change (Py.lower "http://") with "http://" in H. by rewrite H.
    - change (Py.lower "https://") with "https://" in H.
      by rewrite H, orb_true_r. }
  split_and!; [done| |].
  - unfold __init__. simpl. by rewrite Hff.
  - intros srcs self0 config Hinit Hin self.
    destruct (init_inv _ _ Hinit) as (_ & _ & Hdt).
    destruct (Hdt s Hin) as (t & Ht & Hlook).
    assert (t = HTML) as -> by congruence.
    assert (_get_filetype self s = Ok "text/html") as Hft.
    { unfold _get_filetype, self.
      destruct (init_ocr_processor_doc_types self0 config) as [-> _].
      by rewrite Hlook. }
    split_and!; [done| |].
    + intros elements docs Hdocs.
      apply process_elements_units in Hdocs as (pages & per_page & _ & -> & Hpp).
      apply Forall_concat.
      induction Hpp as [|[idx c] units l r Hu Hpp IH]; constructor; [|done].
      eapply Forall_impl; [exact (page_documents_units _ _ _ _ _ _ Hu)|].
      intros d (ft & Hft' & _ & ? & _). congruence.
    + intros W. unfold _get_elements, _get_elements_try.
      apply endswith_lower in Hpdf.
      change (Py.lower ".pdf") with ".pdf" in Hpdf.
      by rewrite (endswith_pdf_not_image _ Hpdf), Hpdf.
Qed.

Lemma url_pdf_html_type_pdf_strategy_witness :
  let s := "https://example.org/paper.pdf" in
  from_file s = Ok HTML
  ∧ __init__ [s]
    = Ok {| sources := [s]; doc_types := {[ s := HTML ]}; ocr_processor := None |}
  ∧ ∀ srcs self0 config,
      __init__ srcs = Ok self0 → s ∈ srcs →
      let self := _init_ocr_processor self0 config in
      _get_filetype self s = Ok "text/html"
      ∧ (∀ elements docs,
           _process_elements_to_document self config elements s = Ok docs →
           Forall (λ d, dict_get "filetype" (metadata d)
                        = Some (VStr "text/html")) docs)
      ∧ (∀ W,
           _get_elements W self config s
           = catch (partition_pdf W s
                      (if hi_res_pdf config then "hi_res" else "fast")
                      (infer_tables config))
                   (λ _, [])).
Proof.
  apply (url_pdf_html_type_pdf_strategy "https://example.org/paper.pdf");
    [right|]; reflexivity.
Defined.

(* ===================================================================== *)
(** ** The OCR bridge *)
(* ===================================================================== *)

(** C6, as the code has it.  For a source accepted at construction that
    ends in an image suffix, processed with OCR enabled: when the OCR
    capability returns a text, extraction returns exactly one element,
    with that text, the category of the library's [Text] element, page
    number 1 (in its metadata, and as the key page aggregation reads), and
    metadata recording the file name, the containing directory, the file
    type derived at construction, the OCR text unchanged under
    [text_as_html], and the time stamp; when the OCR capability raises,
    extraction returns no element. *)
Theorem ocr_extraction_single_element
    (W : World) (srcs : list string) (self0 : DocumentProcessor)
    (config : ProcessingConfig) (file_path : string) :
  __init__ srcs = Ok self0 →
  file_path ∈ srcs →
  Py.endswith_any (Py.lower file_path) image_suffixes = true →
  ocr_for_images config = true →
  let self := _init_ocr_processor self0 config in
  match ocr_extract_text W {| model := ocr_model config |} file_path with
  | Ok text =>
      ∃ filetype,
        _get_filetype self file_path = Ok filetype
        ∧ _get_elements W self config file_path
          = [ocr_element W file_path filetype text]
        ∧ get_page_number (ocr_element W file_path filetype text) = Ok (Some 1)
  | Raise _ => _get_elements W self config file_path = []
  end.
Proof.
  intros Hinit Hin Himg Hocr self.
  destruct (init_inv _ _ Hinit) as (_ & Hnone & Hdt).
  destruct (Hdt _ Hin) as (t & _ & Hlook).
  destruct (init_ocr_processor_fresh self0 config Hnone Hocr) as (Hp & Hd & _).
  fold self in Hp, Hd.
  unfold _get_elements, _get_elements_try.
  rewrite Himg, Hocr, Hp. simpl.
  destruct (ocr_extract_text W _ file_path) as [text|e]; simpl; [|done].
  unfold _create_element_from_ocr, _get_filetype. rewrite Hd, Hlook. simpl.
  eexists. split_and!; reflexivity.
Qed.

Lemma ocr_extraction_single_element_witness :
  ∃ filetype,
    _get_filetype scan_processor "scan.png" = Ok filetype
    ∧ _get_elements (quiet_world (Ok "a<b")) scan_processor ocr_config "scan.png"
      = [ocr_element (quiet_world (Ok "a<b")) "scan.png" filetype "a<b"]
    ∧ get_page_number
        (ocr_element (quiet_world (Ok "a<b")) "scan.png" filetype "a<b") = Ok (Some 1).
Proof.
  apply (ocr_extraction_single_element (quiet_world (Ok "a<b")) ["scan.png"]
           {| sources := ["scan.png"];
              doc_types := {[ "scan.png" := PNG ]};
              ocr_processor := None |}
           ocr_config "scan.png").
  - reflexivity.
  - apply list_elem_of_In. simpl. tauto.
  - reflexivity.
  - reflexivity.
Defined.

(** C6 as stated fails.  The text stored under [text_as_html] is the OCR
    text itself, not its HTML-escaped copy; and when the OCR capability
    raises, extraction of the image returns no element at all. *)
Lemma ocr_text_not_escaped_and_failure_empty :
  (∃ el items,
     _get_elements (quiet_world (Ok "a<b")) scan_processor ocr_config "scan.png"
     = [el]
     ∧ el_metadata el = Some (MetadataDict items)
     ∧ dict_get "text_as_html" items = Some (VStr "a<b")
     ∧ dict_get "text_as_html" items ≠ Some (VStr (html_escape "a<b")))
  ∧ _get_elements (quiet_world (Raise (ExternalError "unreadable image")))
      scan_processor ocr_config "scan.png" = [].
Proof.
  split; [|reflexivity].
  eexists _, _. split_and!; [reflexivity|reflexivity|reflexivity|].
  vm_compute. discriminate.
Qed.

(* ===================================================================== *)
(** ** The element filter *)
(* ===================================================================== *)

Lemma filterM_Ok {A} (p : A → Outcome bool) (q : A → bool) l r :
  (∀ x b, x ∈ l → p x = Ok b → b = q x) →
  filterM p l = Ok r → r = List.filter q l.
Proof.
  revert r. induction l as [|x l IH]; intros r Hpq; simpl.
  - by intros [= <-].
  - intros (b & Hb & (r' & Hr' & [= <-])%bind_Ok)%bind_Ok.
    rewrite <- (Hpq x b) by (done || by left).
    rewrite (IH r'); [done| |done]. intros y c Hy. apply Hpq. by right.
Qed.

Lemma filterM_total {A} (p : A → Outcome bool) l :
  (∀ x, x ∈ l → ∃ b, p x = Ok b) → ∃ r, filterM p l = Ok r.
Proof.
  induction l as [|x l IH]; intros Hall; simpl; [by eexists|].
  destruct (Hall x) as [b ->]; [by left|].
  destruct IH as [r ->]; [intros; apply Hall; by right|].
  by eexists.
Qed.

Lemma find_filter_head {A} (q : A → bool) l :
  List.find q l = head (List.filter q l).
Proof. induction l as [|x l IH]; simpl; [done|]. by destruct (q x). Qed.

Lemma is_reference_title_heading el b :
  is_reference_title el = Ok b → b = is_references_heading el.
Proof.
  unfold is_reference_title, is_references_heading.
  destruct (el_text el) as [t|]; simpl; [|done]. intros [= <-].
  destruct t as [|c t]; [|done]. reflexivity.
Qed.

Lemma not_child_of_parent_identity i el b :
  not_child_of i el = Ok b →
  b = negb (bool_decide (parent_identity el = Some i)).
Proof.
  unfold not_child_of, parent_identity.
  destruct (el_metadata el) as [md|]; simpl; [|done]. by intros [= <-].
Qed.

Lemma filter_elements_unfold config elements :
  _filter_elements config elements
  = if remove_references config
    then catch (remove_references_try (surviving config elements))
               (λ _, surviving config elements)
    else surviving config elements.
Proof.
  destruct elements as [|el elements]; [|reflexivity].
  unfold surviving. simpl.
  by destruct (remove_references config), (filter_empty_elements config),
    (remove_headers config).
Qed.

(** C7.  With [remove_references] enabled, let the surviving elements be
    those left by the empty and header filters.  The filter never raises
    (it is a total function).  If the reference step raises, the result is
    the surviving sequence unchanged.  If it does not raise, then either
    no surviving element is a references heading and the result is the
    surviving sequence unchanged, or the result is the surviving sequence
    without exactly the elements whose parent identity is the identity of
    the first surviving references heading.  The step does not raise when
    every surviving element has a text, an identity and metadata. *)
Theorem reference_filter_best_effort
    (config : ProcessingConfig) (elements : list Element) :
  remove_references config = true →
  let pre := surviving config elements in
  (∀ e, remove_references_try pre = Raise e →
        _filter_elements config elements = pre)
  ∧ (∀ r, remove_references_try pre = Ok r →
          match List.find is_references_heading pre with
          | Some title =>
              ∃ i, el_id title = Some i
                   ∧ _filter_elements config elements
                     = without_children_of i pre
          | None => _filter_elements config elements = pre
          end)
  ∧ ((∀ el, el ∈ pre →
            is_Some (el_text el) ∧ is_Some (el_id el)
            ∧ is_Some (el_metadata el)) →
     ∃ r, remove_references_try pre = Ok r).
Proof.
  intros Hrr pre. rewrite filter_elements_unfold, Hrr. fold pre.
  split_and!.
  - by intros e ->.
  - intros r Hr. rewrite Hr. simpl.
    unfold remove_references_try in Hr.
    apply bind_Ok in Hr as (titles & Ht & Hr).
    apply (filterM_Ok _ is_references_heading) in Ht;
      [|intros x b _; apply is_reference_title_heading].
    rewrite find_filter_head, <- Ht.
    destruct titles as [|title titles]; simpl.
    + by injection Hr as <-.
    + apply bind_Ok in Hr as (i & Hi & Hr).
      exists i. split.
      * by destruct (el_id title); simplify_eq/=.
      * apply (filterM_Ok _ _ _ _ (λ x b _, not_child_of_parent_identity i x b)).
        exact Hr.
  - intros Hall. unfold remove_references_try.
    destruct (filterM_total is_reference_title pre) as [titles Ht].
    { intros el Hel. destruct (Hall el Hel) as ([t Ht] & _ & _).
      unfold is_reference_title. rewrite Ht. by eexists. }
    rewrite Ht. simpl.
    destruct titles as [|title titles]; [by eexists|].
    assert (title ∈ pre) as Hin.
    { apply (filterM_Ok _ is_references_heading) in Ht;
        [|intros x b _; apply is_reference_title_heading].
      assert (title ∈ List.filter is_references_heading pre) as Hf
        by (rewrite <- Ht; by left).
      apply list_elem_of_In, filter_In in Hf as [Hf _].
      by apply list_elem_of_In. }
    destruct (Hall title Hin) as (_ & [i Hi] & _). rewrite Hi. simpl.
    apply filterM_total. intros el Hel.
    destruct (Hall el Hel) as (_ & _ & [md Hmd]).
    unfold not_child_of. rewrite Hmd. by eexists.
Qed.

Lemma reference_filter_best_effort_witness :
  let pre := surviving references_config paper in
  (∀ e, remove_references_try pre = Raise e →
        _filter_elements references_config paper = pre)
  ∧ (∀ r, remove_references_try pre = Ok r →
          match List.find is_references_heading pre with
          | Some title =>
              ∃ i, el_id title = Some i
                   ∧ _filter_elements references_config paper
                     = without_children_of i pre
          | None => _filter_elements references_config paper = pre
          end)
  ∧ ((∀ el, el ∈ pre →
            is_Some (el_text el) ∧ is_Some (el_id el)
            ∧ is_Some (el_metadata el)) →
     ∃ r, remove_references_try pre = Ok r).
Proof. apply (reference_filter_best_effort references_config paper). reflexivity. Defined.

Example reference_filter_paper :
  _filter_elements references_config paper
  = [ parsed "Results hold." "NarrativeText" "e1" (Some 1) None;
      parsed " References " "Title" "e2" (Some 2) None;
      parsed "continued" "NarrativeText" "e4" (Some 2) (Some "e3") ].
Proof. reflexivity. Qed.

(* ===================================================================== *)
(** ** Stable sorting and grouping *)
(* ===================================================================== *)

Section SortGroup.
Context {A : Type} (key : A → Z).
Local Arguments with_key : simpl never.

Lemma with_key_stable_insert p x l :
  with_key key p (stable_insert key x l)
  = if key x =? p then x :: with_key key p l else with_key key p l.
Proof.
  unfold with_key. induction l as [|y l IH]; simpl; [done|].
  destruct (key x <=? key y) eqn:Hxy; simpl; [done|].
  rewrite IH. apply Z.leb_gt in Hxy.
  destruct (key x =? p) eqn:Hx; [|done].
  apply Z.eqb_eq in Hx.
  destruct (key y =? p) eqn:Hy; [|done].
  apply Z.eqb_eq in Hy. lia.
Qed.

(** Stability: the elements of each key keep their order. *)
Lemma stable_sort_stable p l : with_key key p (stable_sort key l) = with_key key p l.
Proof.
  induction l as [|x l IH]; simpl; [done|].
  rewrite with_key_stable_insert, IH. unfold with_key. simpl.
  by destruct (key x =? p).
Qed.

Lemma stable_insert_Permutation x l : stable_insert key x l ≡ₚ x :: l.
Proof.
  induction l as [|y l IH]; simpl; [done|].
  destruct (key x <=? key y); [done|]. rewrite IH. apply Permutation_swap.
Qed.

Lemma stable_sort_Permutation l : stable_sort key l ≡ₚ l.
Proof.
  induction l as [|x l IH]; simpl; [done|].
  by rewrite stable_insert_Permutation, IH.
Qed.

Lemma stable_insert_ascending x l :
  ascending key l → ascending key (stable_insert key x l).
Proof.
  unfold ascending. induction 1 as [|y l Hl IH Hy]; simpl.
  - repeat constructor.
  - destruct (key x <=? key y) eqn:Hxy.
    + apply Z.leb_le in Hxy. constructor; [by constructor|].
      constructor; [done|].
      eapply Forall_impl; [exact Hy|]. simpl. intros; lia.
    + apply Z.leb_gt in Hxy. constructor; [done|].
      rewrite (stable_insert_Permutation x l). constructor; [lia|done].
Qed.

Lemma stable_sort_ascending l : ascending key (stable_sort key l).
Proof.
  induction l as [|x l IH]; simpl; [constructor|].
  by apply stable_insert_ascending.
Qed.


Lemma with_key_nil p l :
  (∀ y, y ∈ l → key y ≠ p) → with_key key p l = [].
Proof.
  unfold with_key. induction l as [|y l IH]; intros Hall; simpl; [done|].
  destruct (key y =? p) eqn:E.
  - apply Z.eqb_eq in E. exfalso. by apply (Hall y); [left|].
  - apply IH. intros z Hz. apply Hall. by right.
Qed.

Lemma with_key_cons_ne p x l :
  key x ≠ p → with_key key p (x :: l) = with_key key p l.
Proof.
  intros Hne. unfold with_key. simpl.
  destruct (key x =? p) eqn:E; [|done]. by apply Z.eqb_eq in E.
Qed.

Lemma with_key_cons_eq x l :
  with_key key (key x) (x :: l) = x :: with_key key (key x) l.
Proof. unfold with_key. simpl. by rewrite Z.eqb_refl. Qed.

Lemma groups_ext (ks : list Z) x l :
  (∀ p, p ∈ ks → key x ≠ p) →
  (λ p, (p, with_key key p (x :: l))) <$> ks
  = (λ p, (p, with_key key p l)) <$> ks.
Proof.
  intros Hne. apply list_fmap_ext. intros i p Hp.
  rewrite with_key_cons_ne; [done|]. apply Hne.
  by apply list_elem_of_lookup_2 in Hp.
Qed.

Lemma runs_ascending l :
  ascending key l →
  runs key l = (λ p, (p, with_key key p l)) <$> group_keys key l
  ∧ StronglySorted Z.lt (group_keys key l)
  ∧ (∀ p, p ∈ group_keys key l ↔ ∃ x, x ∈ l ∧ key x = p).
Proof.
  unfold ascending, group_keys.
  induction 1 as [|x l Hl (IHg & IHs & IHk) Hx].
  { split_and!; [done|constructor|].
    intros p. split; [by intros ?%elem_of_nil|].
    by intros (x & ?%elem_of_nil & _). }
  assert (∀ p, p ∈ (runs key l).*1 → key x ≤ p) as Hmin.
  { intros p (y & Hy & <-)%IHk.
    rewrite Forall_forall in Hx. by apply Hx. }
  simpl runs.
  destruct (runs key l) as [|[k g] gs] eqn:Hg.
  - assert (l = []) as ->.
    { destruct l as [|y l]; [done|]. exfalso.
      assert (key y ∈ ([] : list Z)) as Hy%elem_of_nil; [|done].
      apply IHk. exists y. split; [by left|done]. }
    simpl. split_and!.
    + by rewrite with_key_cons_eq.
    + repeat constructor.
    + intros p. rewrite list_elem_of_singleton. split.
      * intros ->. exists x. split; [by left|done].
      * by intros (y & ->%list_elem_of_singleton & <-).
  - simpl in IHg, IHs, IHk. injection IHg as Hgk Hgs.
    apply StronglySorted_inv in IHs as [IHs Hk].
    rewrite Forall_forall in Hk.
    assert (∀ p, p ∈ gs.*1 → k < p) as Hgt.
    { intros p Hp. by apply Hk. }
    assert (key x ≤ k) as Hxk by (apply Hmin; left).
    destruct (key x =? k) eqn:E.
    + apply Z.eqb_eq in E. subst k. simpl. split_and!.
      * rewrite with_key_cons_eq, <- Hgk. f_equal.
        rewrite groups_ext; [done|]. intros p Hp%Hgt. lia.
      * constructor; [done|]. by apply Forall_forall.
      * intros p. rewrite IHk. split.
        -- intros (y & Hy & <-). exists y. split; [by right|done].
        -- intros (y & [->|Hy]%elem_of_cons & <-); [|by exists y].
           apply IHk. left.
    + apply Z.eqb_neq in E. simpl. split_and!.
      * rewrite with_key_cons_eq. f_equal.
        -- f_equal. f_equal. symmetry. apply with_key_nil.
           intros y Hy.
           assert (key y ∈ k :: gs.*1) as [->|Hin%Hgt]%elem_of_cons.
           { apply IHk. by exists y. }
           ++ lia.
           ++ lia.
        -- rewrite with_key_cons_ne by lia. rewrite <- Hgk. f_equal.
           rewrite groups_ext; [done|]. intros p Hp%Hgt. lia.
      * constructor; [constructor; [done|by apply Forall_forall]|].
        constructor; [lia|]. apply Forall_forall.
        intros p Hp%Hgt. lia.
      * intros p. rewrite elem_of_cons, IHk. split.
        -- intros [->|(y & Hy & <-)].
           ++ exists x. split; [by left|done].
           ++ exists y. split; [by right|done].
        -- intros (y & [->|Hy]%elem_of_cons & <-); [by left|].
           right. by exists y.
Qed.
End SortGroup.

(* ===================================================================== *)
(** ** [sorted] and [groupby] on page keys *)
(* ===================================================================== *)

Section SortKeys.
Context {A : Type} (key : A → option Z).

Lemma insert_sorted_raise x l e :
  insert_sorted key x l = Raise e → e = TypeError.
Proof.
  induction l as [|y l IH]; simpl; [done|].
  destruct (key y) as [m|], (key x) as [n|]; simpl; try by intros [= <-].
  destruct (m <? n); [|done].
  destruct (insert_sorted key x l) as [r|e']; simpl; [done|].
  intros [= <-]. by apply IH.
Qed.

Lemma sorted_raise l e : sorted key l = Raise e → e = TypeError.
Proof.
  revert e. induction l as [|x l IH]; intros e; simpl; [done|].
  destruct (sorted key l) as [s|e']; simpl.
  - apply insert_sorted_raise.
  - intros [= <-]. by apply IH.
Qed.

Lemma insert_sorted_Ok_Permutation x l s :
  insert_sorted key x l = Ok s → s ≡ₚ x :: l.
Proof.
  revert s. induction l as [|y l IH]; intros s; simpl; [by intros [= <-]|].
  destruct (py_lt (key y) (key x)) as [[]|]; simpl; [|by intros [= <-]|done].
  destruct (insert_sorted key x l) as [r|]; simpl; [|done].
  intros [= <-]. rewrite (IH r eq_refl). apply Permutation_swap.
Qed.

Lemma sorted_Ok_Permutation l s : sorted key l = Ok s → s ≡ₚ l.
Proof.
  revert s. induction l as [|x l IH]; intros s; simpl; [by intros [= <-]|].
  destruct (sorted key l) as [r|]; simpl; [|done].
  intros ->%insert_sorted_Ok_Permutation. by rewrite (IH r eq_refl).
Qed.

(** A key that is [None] cannot be compared. *)
Lemma insert_sorted_None x y l :
  key x = None ∨ key y = None →
  insert_sorted key x (y :: l) = Raise TypeError.
Proof.
  simpl. intros [->| ->]; [by destruct (key y)|done].
Qed.

(** With two elements or more, one key that is [None] makes the sort
    raise. *)
Lemma sorted_None l :
  (2 ≤ length l)%nat → Exists (λ x, key x = None) l →
  sorted key l = Raise TypeError.
Proof.
  induction l as [|x l IH]; simpl; [lia|]. intros Hlen Hex.
  destruct (sorted key l) as [s|e] eqn:Hs; simpl.
  - destruct s as [|y s].
    { apply sorted_Ok_Permutation, Permutation_nil_l in Hs. subst l.
      simpl in Hlen. lia. }
    apply insert_sorted_None.
    apply Exists_cons in Hex as [Hx|Hex]; [by left|].
    destruct l as [|z [|z' l]].
    + by apply Exists_nil in Hex.
    + simpl in Hs. injection Hs as <- <-. right.
      by apply Exists_cons in Hex as [?|?%Exists_nil].
    + by discriminate IH; [simpl; lia|].
  - by rewrite (sorted_raise _ _ Hs).
Qed.

(** The sort succeeds exactly on the sequences of fewer than two
    elements and on those whose keys are all integers. *)
Lemma sorted_Ok_inv l s :
  sorted key l = Ok s →
  (length l ≤ 1)%nat ∨ Forall (λ x, is_Some (key x)) l.
Proof.
  intros Hs.
  destruct (decide (length l ≤ 1)%nat) as [|Hlen]; [by left|]. right.
  destruct (decide (Forall (λ x, is_Some (key x)) l)) as [|Hex]; [done|].
  apply not_Forall_Exists in Hex; [|apply _].
  rewrite sorted_None in Hs; [done|lia|].
  eapply Exists_impl; [exact Hex|]. simpl. intros x Hx.
  destruct (key x); [|done]. exfalso. apply Hx. by eexists.
Qed.

Lemma groupby_length l : (length (groupby key l) ≤ length l)%nat.
Proof.
  induction l as [|x l IH]; simpl; [done|].
  destruct (groupby key l) as [|[k g] gs]; simpl in *; [lia|].
  case_bool_decide; simpl; lia.
Qed.
End SortKeys.

Section SortInt.
Context {A : Type} (key : A → option Z) (zkey : A → Z).

(** On integer keys the sort is the stable sort and the groups are the
    runs. *)
Lemma insert_sorted_int x l :
  key x = Some (zkey x) → Forall (λ y, key y = Some (zkey y)) l →
  insert_sorted key x l = Ok (stable_insert zkey x l).
Proof.
  intros Hx. induction 1 as [|y l Hy Hl IH]; simpl; [done|].
  rewrite Hy, Hx. simpl. rewrite IH. simpl.
  destruct (zkey y <? zkey x) eqn:E, (zkey x <=? zkey y) eqn:E'; try done.
  - apply Z.ltb_lt in E. apply Z.leb_le in E'. lia.
  - apply Z.ltb_ge in E. apply Z.leb_gt in E'. lia.
Qed.

Lemma sorted_int l :
  Forall (λ y, key y = Some (zkey y)) l →
  sorted key l = Ok (stable_sort zkey l).
Proof.
  induction 1 as [|x l Hx Hl IH]; simpl; [done|].
  rewrite IH. simpl. apply insert_sorted_int; [done|].
  by rewrite (stable_sort_Permutation zkey l).
Qed.

Lemma groupby_int l :
  Forall (λ y, key y = Some (zkey y)) l →
  groupby key l = (λ g : Z * list A, (Some g.1, g.2)) <$> runs zkey l.
Proof.
  induction 1 as [|x l Hx Hl IH]; simpl; [done|].
  rewrite IH, Hx. destruct (runs zkey l) as [|[k g] gs]; simpl; [done|].
  case_bool_decide as E; destruct (Z.eqb_spec (zkey x) k); simpl;
    [done|congruence|congruence|done].
Qed.
End SortInt.

(* ===================================================================== *)
(** ** Page aggregation *)
(* ===================================================================== *)

Lemma get_page_number_Ok el k :
  get_page_number el = Ok k → is_Some (el_metadata el) ∧ k = page_key el.
Proof.
  unfold get_page_number, page_key.
  destruct (el_metadata el) as [[[n|] ? ?|?]|]; simpl; [| | |done];
    intros [= <-]; by split; [eexists|].
Qed.

Lemma get_page_number_metadata el :
  is_Some (el_metadata el) → get_page_number el = Ok (page_key el).
Proof.
  unfold get_page_number, page_key.
  by intros [[[n|] ? ?|?] ->].
Qed.

Lemma keyed_Ok elements keyed :
  mapM (λ el, k ← get_page_number el; Ok (k, el)) elements = Ok keyed →
  keyed = (λ el, (page_key el, el)) <$> elements.
Proof.
  intros H%mapM_Ok.
  induction H as [|el [k el'] l r Hel H IH]; [done|]. simpl. f_equal; [|done].
  destruct (get_page_number el) as [k'|] eqn:Hk; simpl in Hel; [|done].
  injection Hel as <- <-. by apply get_page_number_Ok in Hk as [_ ->].
Qed.

Lemma keyed_total elements :
  Forall (λ el, is_Some (el_metadata el)) elements →
  mapM (λ el, k ← get_page_number el; Ok (k, el)) elements
  = Ok ((λ el, (page_key el, el)) <$> elements).
Proof.
  intros Hall.
  destruct (mapM_total (λ el, k ← get_page_number el; Ok (k, el)) elements)
    as [keyed Hk].
  - intros el Hel. rewrite Forall_forall in Hall.
    rewrite (get_page_number_metadata el (Hall el Hel)). by eexists.
  - by rewrite Hk, (keyed_Ok _ _ Hk).
Qed.

Lemma page_key_metadata el : is_Some (page_key el) → is_Some (el_metadata el).
Proof. unfold page_key. by destruct (el_metadata el); [eexists|intros [? ?]]. Qed.

Lemma on_page_keyed p elements :
  Forall (λ el, is_Some (page_key el)) elements →
  (with_key key_number p ((λ el, (page_key el, el)) <$> elements)).*2
  = on_page p elements.
Proof.
  unfold with_key, on_page, key_number.
  induction 1 as [|el l [n Hn] Hl IH]; simpl; [done|].
  rewrite Hn. simpl.
  case_bool_decide as E; destruct (Z.eqb_spec n p); simpl;
    [f_equal; exact IH|congruence|congruence|exact IH].
Qed.

(** The text of a page group is the text the specification describes. *)
Lemma page_text_joined g : page_text g = joined_text (texts g).
Proof.
  unfold page_text, joined_text, texts. do 3 f_equal.
  induction g as [|el g IH]; simpl; [done|].
  change (element_text el)
    with (match el_text el with Some t => t | None => EmptyString end).
  destruct (el_text el) as [[|c t]|]; simpl; [exact IH|f_equal; exact IH|exact IH].
Qed.

(** For elements that all have a page number: one group per page number,
    in increasing order, with the elements of the page in their order. *)
Lemma combine_elements_by_page_pages elements :
  Forall (λ el, is_Some (page_key el)) elements →
  ∃ ps : list Z,
    StronglySorted Z.lt ps
    ∧ (∀ p, p ∈ ps ↔ ∃ el, el ∈ elements ∧ page_key el = Some p)
    ∧ _combine_elements_by_page elements
      = Ok (List.filter Py.truthy
              ((λ p, page_text (on_page p elements)) <$> ps)).
Proof.
  intros Hnum. unfold _combine_elements_by_page.
  rewrite keyed_total
    by (eapply Forall_impl; [exact Hnum|apply page_key_metadata]).
  set (keyed := (λ el, (page_key el, el)) <$> elements). simpl.
  assert (Forall (λ kx : option Z * Element, kx.1 = Some (key_number kx))
                 keyed) as Hint.
  { apply Forall_fmap. eapply Forall_impl; [exact Hnum|].
    by intros el [n Hn]; simpl; unfold key_number; simpl; rewrite Hn. }
  rewrite (sorted_int fst key_number keyed Hint). simpl.
  rewrite (groupby_int fst key_number)
    by (by rewrite (stable_sort_Permutation key_number keyed)).
  destruct (runs_ascending key_number (stable_sort key_number keyed)
              (stable_sort_ascending key_number keyed)) as (Hg & Hs & Hk).
  exists (group_keys key_number (stable_sort key_number keyed)).
  split_and!; [done| |].
  - intros p. rewrite Hk. split.
    + intros ([k el] & Hin & <-). rewrite stable_sort_Permutation in Hin.
      apply list_elem_of_fmap in Hin as (el' & [= -> ->] & Hel).
      exists el'. split; [done|].
      rewrite Forall_forall in Hnum. destruct (Hnum _ Hel) as [n Hn].
      unfold key_number. simpl. by rewrite Hn.
    + intros (el & Hel & Hp). exists (page_key el, el). split.
      * rewrite stable_sort_Permutation. apply list_elem_of_fmap. by exists el.
      * unfold key_number. simpl. by rewrite Hp.
  - rewrite Hg. do 2 f_equal.
    change (@List.map ?X ?Y) with (@fmap list _ X Y).
    rewrite <- !list_fmap_compose.
    apply list_fmap_ext. intros _ p _. simpl.
    rewrite stable_sort_stable. unfold keyed. by rewrite on_page_keyed.
Qed.

(** C4.  The page number does not default to 1 for an element of the
    library whose page number is not set: its sort key is [None], and the
    sort raises as soon as there is a second element to compare it with.
    On the five elements [shuffled], one of them without a page number,
    page aggregation raises a [TypeError] instead of counting that element
    to page 1, so no output unit is built; a source whose extraction
    delivers these elements ends with the empty list. *)
Theorem unset_page_number_raises :
  get_page_number (parsed "unnumbered" "NarrativeText" "e" None None) = Ok None
  ∧ _combine_elements_by_page shuffled = Raise TypeError
  ∧ (∀ self config source,
       _process_elements_to_document self config shuffled source
       = Raise TypeError)
  ∧ process report_world report_processor None ["report.pdf"]
    = (report_processor, Ok {[ "report.pdf" := [] ]}).
Proof.
  assert (_combine_elements_by_page shuffled = Raise TypeError) as H
    by reflexivity.
  split_and!; [reflexivity|done| |reflexivity].
  intros. unfold _process_elements_to_document. by rewrite H.
Qed.

(** X21.  For elements that all have a page number, page aggregation
    returns, for the distinct page numbers in increasing order, the text
    of the page: the non-empty texts of its elements in their original
    order (which is what the stable sort followed by the grouping of
    consecutive equal keys yields), joined with single spaces, newlines
    replaced by spaces, stripped; a page whose text is empty is left out;
    and the [page_number] of every output unit is the 1-based position of
    its page in that list of non-empty pages. *)
Theorem page_aggregation_numbered (elements : list Element) :
  Forall (λ el, is_Some (page_key el)) elements →
  ∃ (ps : list Z) (pages : list string),
    _combine_elements_by_page elements = Ok pages
    ∧ StronglySorted Z.lt ps
    ∧ (∀ p, p ∈ ps ↔ ∃ el, el ∈ elements ∧ page_key el = Some p)
    ∧ pages
      = List.filter (λ t, negb (String.eqb t ""))
          ((λ p, Py.strip
                   (Py.replace "010" " "
                      (Py.join " " (texts (on_page p elements))))) <$> ps)
    ∧ ∀ self config source docs,
        _process_elements_to_document self config elements source = Ok docs →
        ∃ per_page : list (list Document),
          docs = concat per_page
          ∧ length per_page = length pages
          ∧ ∀ (i : nat) content units,
              pages !! i = Some content → per_page !! i = Some units →
              page_documents self config source (Z.of_nat i + 1) content
              = Ok units
              ∧ Forall (λ d, dict_get "page_number" (metadata d)
                             = Some (VInt (Z.of_nat i + 1))) units.
Proof.
  intros Hnum.
  destruct (combine_elements_by_page_pages _ Hnum) as (ps & Hs & Hk & Hp).
  exists ps. eexists. split_and!; [exact Hp|done|done| |].
  - erewrite filter_ext; [f_equal|by intros []].
    apply list_fmap_ext. intros _ p _. apply page_text_joined.
  - intros self config source docs Hdocs.
    apply process_elements_units in Hdocs as (pages' & per_page & Hp' & -> & Hpp).
    rewrite Hp in Hp'. injection Hp' as <-.
    exists per_page. split_and!; [done| |].
    + apply Forall2_length in Hpp. by rewrite enumerate_length in Hpp.
    + intros i content units Hi Hu.
      match type of Hi with ?pages !! _ = _ =>
        assert (enumerate 1 pages !! i = Some (Z.of_nat i + 1, content)) as He
      end.
      { rewrite enumerate_lookup, Hi. simpl. do 2 f_equal. lia. }
      pose proof (Forall2_lookup_lr _ _ _ _ _ _ Hpp He Hu) as Hunits.
      simpl in Hunits. split; [done|].
      eapply Forall_impl; [exact (page_documents_units _ _ _ _ _ _ Hunits)|].
      by intros d (ft & _ & _ & _ & ? & _).
Qed.

Lemma page_aggregation_numbered_witness :
  ∃ (ps : list Z) (pages : list string),
    _combine_elements_by_page numbered = Ok pages
    ∧ StronglySorted Z.lt ps
    ∧ (∀ p, p ∈ ps ↔ ∃ el, el ∈ numbered ∧ page_key el = Some p)
    ∧ pages
      = List.filter (λ t, negb (String.eqb t ""))
          ((λ p, Py.strip
                   (Py.replace "010" " "
                      (Py.join " " (texts (on_page p numbered))))) <$> ps)
    ∧ ∀ self config source docs,
        _process_elements_to_document self config numbered source = Ok docs →
        ∃ per_page : list (list Document),
          docs = concat per_page
          ∧ length per_page = length pages
          ∧ ∀ (i : nat) content units,
              pages !! i = Some content → per_page !! i = Some units →
              page_documents self config source (Z.of_nat i + 1) content
              = Ok units
              ∧ Forall (λ d, dict_get "page_number" (metadata d)
                             = Some (VInt (Z.of_nat i + 1))) units.
Proof.
  apply (page_aggregation_numbered numbered). unfold numbered, parsed.
  repeat constructor; by eexists.
Defined.

(** Pages 5, 1, 5, 3 with a blank page 3: the texts of pages 1 and 5, the
    latter in the order of the input, and the page of number 5 becomes
    page 2 of the output. *)
Example page_aggregation_pages_5_1_5_3 :
  _combine_elements_by_page numbered
  = Ok ["one"; "five, first five, second"]
  ∧ _process_elements_to_document
      {| sources := ["doc.txt"]; doc_types := {[ "doc.txt" := TEXT ]};
         ocr_processor := None |}
      default_config numbered "doc.txt"
    = Ok [ {| page_content := "one";
              metadata := [ ("filename", VStr "doc.txt");
                            ("filetype", VStr "text/plain");
                            ("page_number", VInt 1);
                            ("source", VStr "doc.txt") ] |};
           {| page_content := "five, first five, second";
              metadata := [ ("filename", VStr "doc.txt");
                            ("filetype", VStr "text/plain");
                            ("page_number", VInt 2);
                            ("source", VStr "doc.txt") ] |} ].
Proof. split; reflexivity. Qed.

(* ===================================================================== *)
(** ** The orchestrator *)
(* ===================================================================== *)

Section Collect.
Context (f : string → list Document).

Lemma foldl_store_dom l (m : gmap string (list Document)) :
  dom (foldl (store f) m l) = dom m ∪ list_to_set (Path.name <$> l).
Proof.
  revert m. induction l as [|x l IH]; intros m; simpl.
  - by rewrite union_empty_r_L.
  - rewrite IH. unfold store. rewrite dom_insert_L.
    by rewrite (comm_L (∪) {[Path.name x]} (dom m)), <- (assoc_L (∪)).
Qed.

Lemma foldl_store_lookup_other l (m : gmap string (list Document)) k :
  (∀ s, s ∈ l → Path.name s ≠ k) → foldl (store f) m l !! k = m !! k.
Proof.
  revert m. induction l as [|x l IH]; intros m Hne; simpl; [done|].
  rewrite IH by (intros s Hs; apply Hne; by right).
  unfold store. apply lookup_insert_ne, Hne. by left.
Qed.

Lemma foldl_store_lookup l (m : gmap string (list Document)) s :
  s ∈ l →
  (∀ s', s' ∈ l → Path.name s' = Path.name s → s' = s) →
  foldl (store f) m l !! Path.name s = Some (f s).
Proof.
  revert m. induction l as [|x l IH]; intros m Hin Hinj.
  - by apply elem_of_nil in Hin.
  - simpl. destruct (decide (s ∈ l)) as [Hl|Hl].
    + apply IH; [done|]. intros s' Hs'. apply Hinj. by right.
    + apply elem_of_cons in Hin as [->|?]; [|done].
      rewrite foldl_store_lookup_other.
      * unfold store. apply lookup_insert_eq.
      * intros s' Hs' Hname. apply Hl.
        rewrite <- (Hinj s'); [done|by right|done].
Qed.

Lemma collect_dom completed :
  dom (collect f completed) = list_to_set (Path.name <$> completed).
Proof.
  unfold collect. by rewrite foldl_store_dom, dom_empty_L, union_empty_l_L.
Qed.

Lemma collect_lookup completed s :
  s ∈ completed →
  (∀ s', s' ∈ completed → Path.name s' = Path.name s → s' = s) →
  collect f completed !! Path.name s = Some (f s).
Proof. apply foldl_store_lookup. Qed.

Lemma collect_lookup_None completed k :
  (∀ s, s ∈ completed → Path.name s ≠ k) → collect f completed !! k = None.
Proof.
  intros H. unfold collect. by rewrite foldl_store_lookup_other.
Qed.
End Collect.

Lemma process_unfold W self config completed :
  0 < max_workers (default default_config config) →
  process W self config completed
  = (_init_ocr_processor self (default default_config config),
     Ok (collect (source_result W
                    (_init_ocr_processor self (default default_config config))
                    (default default_config config))
                 completed)).
Proof.
  intros Hw. unfold process, ThreadPoolExecutor.
  destruct (max_workers _ <=? 0) eqn:E; [apply Z.leb_le in E; lia|].
  reflexivity.
Qed.

Lemma list_to_set_names_perm (l1 l2 : list string) :
  l1 ≡ₚ l2 →
  (list_to_set (Path.name <$> l1) : gset string)
  = list_to_set (Path.name <$> l2).
Proof.
  intros Hp. apply set_eq. intros k.
  rewrite !elem_of_list_to_set, !list_elem_of_fmap.
  by setoid_rewrite Hp.
Qed.

(** C1, as the code has it.  For every processor, every configuration
    with a positive worker count and every completion order, [process]
    returns a mapping whose key set is exactly the set of the file names
    (final path components) of the sources, whether or not sources
    failed; it has one entry per source when the file names of the
    sources are pairwise different. *)
Theorem process_key_set
    (W : World) (self : DocumentProcessor) (config : option ProcessingConfig)
    (completed : list string) :
  0 < max_workers (default default_config config) →
  completed ≡ₚ sources self →
  ∃ self' results,
    process W self config completed = (self', Ok results)
    ∧ dom results = list_to_set (Path.name <$> sources self)
    ∧ (NoDup (Path.name <$> sources self) →
       size results = length (sources self)).
Proof.
  intros Hw Hp. rewrite (process_unfold _ _ _ _ Hw).
  eexists _, _. split; [reflexivity|].
  assert (dom (collect (source_result W
            (_init_ocr_processor self (default default_config config))
            (default default_config config)) completed)
          = list_to_set (Path.name <$> sources self)) as Hdom.
  { rewrite collect_dom. by apply list_to_set_names_perm. }
  split; [done|]. intros Hnd.
  rewrite <- size_dom, Hdom, size_list_to_set by done.
  by rewrite length_fmap.
Qed.

Example same_name_processor_init :
  __init__ ["a/x.pdf"; "b/x.pdf"] = Ok same_name_processor.
Proof. reflexivity. Qed.

Example two_files_processor_init :
  __init__ ["a/x.pdf"; "b/y.pdf"] = Ok two_files_processor.
Proof. reflexivity. Qed.

Lemma process_key_set_witness :
  ∃ self' results,
    process (text_world (λ _, false)) two_files_processor None
            ["b/y.pdf"; "a/x.pdf"]
    = (self', Ok results)
    ∧ dom results = list_to_set (Path.name <$> sources two_files_processor)
    ∧ (NoDup (Path.name <$> sources two_files_processor) →
       size results = length (sources two_files_processor)).
Proof.
  apply (process_key_set (text_world (λ _, false)) two_files_processor None
           ["b/y.pdf"; "a/x.pdf"]).
  - reflexivity.
  - apply perm_swap.
Defined.

(** C1 as stated fails.  Two sources with the same file name leave one
    entry, not one per source, and the keys are file names, not the
    source identifiers. *)
Lemma process_same_name_single_entry :
  ∃ self' results,
    process (text_world (λ _, false)) same_name_processor None
            ["a/x.pdf"; "b/x.pdf"]
    = (self', Ok results)
    ∧ size results ≠ length (sources same_name_processor)
    ∧ dom results ≠ list_to_set (sources same_name_processor).
Proof.
  eexists _, _. split; [reflexivity|]. split.
  - vm_compute. discriminate.
  - intros H.
    assert ("a/x.pdf" ∈ (list_to_set (sources same_name_processor) : gset string))
      as Hin by (apply elem_of_list_to_set; left).
    rewrite <- H in Hin. apply elem_of_dom in Hin as [v Hv].
    vm_compute in Hv. discriminate.
Qed.

(* ===================================================================== *)
(** ** Failure isolation *)
(* ===================================================================== *)

Lemma source_pipeline_raise W self config s e :
  source_pipeline W self config s = Raise e →
  source_result W self config s = [].
Proof.
  unfold source_pipeline, source_result, _get_elements.
  destruct (_get_elements_try W self config s) as [els|e']; simpl.
  - by intros ->.
  - reflexivity.
Qed.

Lemma source_result_ext W self1 self2 config s :
  _get_filetype self1 s = _get_filetype self2 s →
  ocr_processor self1 = ocr_processor self2 →
  source_result W self1 config s = source_result W self2 config s.
Proof.
  intros Hft Hocr.
  unfold source_result, _get_elements, _get_elements_try,
    _create_element_from_ocr, _process_elements_to_document, page_documents.
  by rewrite Hft, Hocr.
Qed.

Lemma init_get_filetype srcs self config s t :
  __init__ srcs = Ok self → s ∈ srcs → from_file s = Ok t →
  doc_types (_init_ocr_processor self config) !! s = Some t.
Proof.
  intros Hinit Hin Ht.
  destruct (init_inv _ _ Hinit) as (_ & _ & Hdt).
  destruct (Hdt s Hin) as (t' & Ht' & Hlook).
  destruct (init_ocr_processor_doc_types self config) as [-> _]. congruence.
Qed.

Lemma init_ocr_processor_of_init srcs self config :
  __init__ srcs = Ok self →
  ocr_processor (_init_ocr_processor self config)
  = if ocr_for_images config then Some {| model := ocr_model config |}
    else None.
Proof.
  intros Hinit. destruct (init_inv _ _ Hinit) as (_ & Hnone & _).
  unfold _init_ocr_processor. rewrite Hnone.
  by destruct (ocr_for_images config).
Qed.

Lemma elem_of_without s x l : x ∈ without s l ↔ x ∈ l ∧ x ≠ s.
Proof.
  unfold without. rewrite !list_elem_of_In, filter_In, negb_true_iff.
  by rewrite String.eqb_neq.
Qed.

Lemma without_Permutation s l1 l2 : l1 ≡ₚ l2 → without s l1 ≡ₚ without s l2.
Proof.
  unfold without. induction 1; simpl.
  - done.
  - destruct (negb _); [by constructor|done].
  - destruct (negb (String.eqb x s)), (negb (String.eqb y s));
      try done. apply perm_swap.
  - by etrans.
Qed.

(** C2, as the code has it.  Let the file names of the sources be
    pairwise different.  If the pipeline of a source raises at some stage
    (extraction, filtering, aggregation or chunking), [process] still
    returns a mapping, that mapping has the empty list under the name of
    that source, and the entry of every other source is the one of a run
    over the sources without the failing one. *)
Theorem failure_isolation
    (W : World) (srcs : list string) (self : DocumentProcessor)
    (config : option ProcessingConfig) (completed : list string) (s : string) :
  let cfg := default default_config config in
  __init__ srcs = Ok self →
  0 < max_workers cfg →
  completed ≡ₚ srcs →
  names_distinct srcs →
  s ∈ srcs →
  (∃ e, source_pipeline W (_init_ocr_processor self cfg) cfg s = Raise e) →
  ∃ self' results self_r self_r' results_r,
    process W self config completed = (self', Ok results)
    ∧ results !! Path.name s = Some []
    ∧ __init__ (without s srcs) = Ok self_r
    ∧ without s completed ≡ₚ sources self_r
    ∧ process W self_r config (without s completed) = (self_r', Ok results_r)
    ∧ ∀ s', s' ∈ srcs → s' ≠ s →
        results !! Path.name s' = results_r !! Path.name s'.
Proof.
  intros cfg Hinit Hw Hp Hnd Hs [e He].
  destruct (init_inv _ _ Hinit) as (_ & _ & Hdt).
  destruct (init_ok (without s srcs)) as [self_r Hinit_r].
  { intros x [Hx _]%elem_of_without. destruct (Hdt x Hx) as (t & ? & _).
    by exists t. }
  eexists _, _, self_r, _, _.
  rewrite (process_unfold W self config completed Hw).
  rewrite (process_unfold W self_r config (without s completed) Hw).
  fold cfg. split; [reflexivity|].
  assert (∀ x, x ∈ completed →
            ∀ x', x' ∈ completed → Path.name x' = Path.name x → x' = x)
    as Hinj.
  { intros x Hx x' Hx' Hn. rewrite Hp in Hx, Hx'. by apply Hnd. }
  split_and!; [|done| |reflexivity|].
  - rewrite collect_lookup; [|by rewrite Hp|by apply Hinj; rewrite Hp].
    by rewrite (source_pipeline_raise _ _ _ _ _ He).
  - destruct (init_inv _ _ Hinit_r) as (-> & _ & _).
    by apply without_Permutation.
  - intros s' Hs' Hne.
    rewrite collect_lookup; [|by rewrite Hp|by apply Hinj; rewrite Hp].
    rewrite collect_lookup.
    + f_equal. destruct (Hdt s' Hs') as (t & Ht & _).
      apply source_result_ext.
      * unfold _get_filetype.
        rewrite (init_get_filetype _ _ cfg _ _ Hinit Hs' Ht).
        rewrite (init_get_filetype _ _ cfg s' t Hinit_r); [done| |done].
        by apply elem_of_without.
      * by rewrite (init_ocr_processor_of_init _ _ _ Hinit),
          (init_ocr_processor_of_init _ _ _ Hinit_r).
    + apply elem_of_without. by rewrite Hp.
    + intros x [Hx _]%elem_of_without Hn.
      apply (Hinj s'); [by rewrite Hp|done|done].
Qed.

Lemma two_files_distinct : names_distinct ["a/x.pdf"; "b/y.pdf"].
Proof.
  intros s s' Hs Hs' Hn.
  apply list_elem_of_In in Hs, Hs'. simpl in Hs, Hs'.
  destruct Hs as [<-|[<-|[]]], Hs' as [<-|[<-|[]]];
    try reflexivity; vm_compute in Hn; discriminate.
Qed.

Lemma failure_isolation_witness :
  ∃ self' results self_r self_r' results_r,
    process (text_world (String.eqb "a/x.pdf")) two_files_processor None
            ["b/y.pdf"; "a/x.pdf"]
    = (self', Ok results)
    ∧ results !! Path.name "a/x.pdf" = Some []
    ∧ __init__ (without "a/x.pdf" ["a/x.pdf"; "b/y.pdf"]) = Ok self_r
    ∧ without "a/x.pdf" ["b/y.pdf"; "a/x.pdf"] ≡ₚ sources self_r
    ∧ process (text_world (String.eqb "a/x.pdf")) self_r None
              (without "a/x.pdf" ["b/y.pdf"; "a/x.pdf"])
      = (self_r', Ok results_r)
    ∧ ∀ s', s' ∈ ["a/x.pdf"; "b/y.pdf"] → s' ≠ "a/x.pdf" →
        results !! Path.name s' = results_r !! Path.name s'.
Proof.
  apply (failure_isolation (text_world (String.eqb "a/x.pdf"))
           ["a/x.pdf"; "b/y.pdf"] two_files_processor None
           ["b/y.pdf"; "a/x.pdf"] "a/x.pdf").
  - reflexivity.
  - reflexivity.
  - apply perm_swap.
  - exact two_files_distinct.
  - apply list_elem_of_In. simpl. tauto.
  - eexists. vm_compute. reflexivity.
Defined.

(** C2 as stated fails.  When a failing source shares its file name with
    a source that completes after it, the entry under that name is the
    output of the other source, not the empty list. *)
Lemma failed_source_entry_overwritten :
  ∃ e self' results,
    source_pipeline (text_world (String.eqb "a/x.pdf"))
      (_init_ocr_processor same_name_processor default_config)
      default_config "a/x.pdf" = Raise e
    ∧ process (text_world (String.eqb "a/x.pdf")) same_name_processor None
              ["a/x.pdf"; "b/x.pdf"]
      = (self', Ok results)
    ∧ results !! Path.name "a/x.pdf" ≠ Some [].
Proof.
  eexists _, _, _. split_and!; [vm_compute; reflexivity|reflexivity|].
  vm_compute. discriminate.
Qed.

(* ===================================================================== *)
(** ** Repeated runs *)
(* ===================================================================== *)

Lemma filter_fmap {A} (q : A → bool) (h : A → A) l :
  (∀ x, q (h x) = q x) → List.filter q (h <$> l) = h <$> List.filter q l.
Proof.
  intros Hq. induction l as [|x l IH]; simpl; [done|].
  rewrite Hq. destruct (q x); simpl; [f_equal|]; exact IH.
Qed.

Lemma filterM_fmap {A} (p : A → Outcome bool) (h : A → A) l :
  (∀ x, p (h x) = p x) →
  filterM p (h <$> l) = outcome_map (fmap h) (filterM p l).
Proof.
  intros Hp. induction l as [|x l IH]; simpl; [done|].
  rewrite Hp. destruct (p x) as [b|e]; simpl; [|done].
  change (filterM p (list_fmap A A h l)) with (filterM p (h <$> l)).
  rewrite IH. destruct (filterM p l) as [r|e]; simpl; [|done].
  by destruct b.
Qed.

Lemma mapM_fmap {A B} (f f' : A → Outcome B) (h : A → A) (h' : B → B) l :
  (∀ x, f' (h x) = outcome_map h' (f x)) →
  mapM f' (h <$> l) = outcome_map (fmap h') (mapM f l).
Proof.
  intros Hf. induction l as [|x l IH]; simpl; [done|].
  rewrite Hf. destruct (f x) as [y|e]; simpl; [|done].
  change (mapM f' (list_fmap A A h l)) with (mapM f' (h <$> l)).
  rewrite IH. by destruct (mapM f l).
Qed.

Section SortGroupMap.
Context {A : Type} (key : A → option Z) (h : A → A).
Hypothesis key_h : ∀ x, key (h x) = key x.

Lemma insert_sorted_fmap x (l : list A) :
  insert_sorted key (h x) (h <$> l)
  = outcome_map (fmap h) (insert_sorted key x l).
Proof.
  induction l as [|y l IH]; simpl; [done|].
  rewrite !key_h. destruct (py_lt (key y) (key x)) as [[]|]; simpl; [|done|done].
  change (insert_sorted key (h x) (list_fmap A A h l))
    with (insert_sorted key (h x) (h <$> l)).
  rewrite IH. by destruct (insert_sorted key x l).
Qed.

Lemma sorted_fmap (l : list A) :
  sorted key (h <$> l) = outcome_map (fmap h) (sorted key l).
Proof.
  induction l as [|x l IH]; simpl; [done|].
  change (sorted key (list_fmap A A h l)) with (sorted key (h <$> l)).
  rewrite IH. destruct (sorted key l) as [s|]; simpl; [|done].
  apply insert_sorted_fmap.
Qed.

Lemma groupby_fmap (l : list A) :
  groupby key (h <$> l)
  = (λ g : option Z * list A, (g.1, h <$> g.2)) <$> groupby key l.
Proof.
  induction l as [|x l IH]; simpl; [done|].
  change (groupby key (list_fmap A A h l)) with (groupby key (h <$> l)).
  rewrite IH, key_h.
  destruct (groupby key l) as [|[k g] gs]; simpl; [done|].
  by case_bool_decide.
Qed.
End SortGroupMap.

Lemma page_text_forget l : page_text (forget_items <$> l) = page_text l.
Proof.
  unfold page_text. do 3 f_equal.
  induction l as [|el l IH]; simpl; [done|].
  destruct (el_text el) as [[|c t]|]; simpl; [|f_equal|]; exact IH.
Qed.

Lemma get_page_number_forget el :
  get_page_number (forget_items el) = get_page_number el.
Proof.
  unfold get_page_number. simpl.
  by destruct (el_metadata el) as [[[?|] ? ?|?]|].
Qed.

Lemma combine_forget l :
  _combine_elements_by_page (forget_items <$> l) = _combine_elements_by_page l.
Proof.
  unfold _combine_elements_by_page.
  rewrite (mapM_fmap (λ el, k ← get_page_number el; Ok (k, el)) _
             forget_items (λ kel, (kel.1, forget_items kel.2))).
  2:{ intros el. rewrite get_page_number_forget.
      by destruct (get_page_number el). }
  destruct (mapM _ l) as [keyed|e]; simpl; [|done].
  rewrite (sorted_fmap fst (λ kel, (kel.1, forget_items kel.2))) by done.
  destruct (sorted fst keyed) as [sorted_elements|e]; simpl; [|done].
  f_equal. f_equal.
  rewrite (groupby_fmap fst (λ kel, (kel.1, forget_items kel.2))) by done.
  rewrite <- list_fmap_compose. apply list_fmap_ext. intros _ [k g] _. simpl.
  rewrite <- (page_text_forget (List.map snd g)). f_equal.
  clear. induction g as [|[k' el] g IH]; simpl; [done|]. f_equal. exact IH.
Qed.

Lemma process_elements_forget self config l s :
  _process_elements_to_document self config (forget_items <$> l) s
  = _process_elements_to_document self config l s.
Proof. unfold _process_elements_to_document. by rewrite combine_forget. Qed.

Lemma surviving_forget config l :
  surviving config (forget_items <$> l) = forget_items <$> surviving config l.
Proof.
  unfold surviving.
  destruct (filter_empty_elements config), (remove_headers config);
    rewrite ?filter_fmap; done.
Qed.

Lemma remove_references_try_forget l :
  remove_references_try (forget_items <$> l)
  = outcome_map (fmap forget_items) (remove_references_try l).
Proof.
  unfold remove_references_try.
  rewrite (filterM_fmap is_reference_title) by done.
  destruct (filterM is_reference_title l) as [[|first titles]|e]; simpl;
    [done| |done].
  destruct (el_id first) as [i|]; simpl; [|done].
  apply filterM_fmap. intros el. unfold not_child_of. simpl.
  by destruct (el_metadata el) as [[? ? ?|?]|].
Qed.

Lemma filter_elements_forget config l :
  _filter_elements config (forget_items <$> l)
  = forget_items <$> _filter_elements config l.
Proof.
  rewrite !filter_elements_unfold, surviving_forget.
  destruct (remove_references config); [|done].
  rewrite remove_references_try_forget.
  by destruct (remove_references_try (surviving config l)).
Qed.

Lemma get_elements_clock W self config s t :
  forget_items <$> _get_elements (with_clock W t) self config s
  = forget_items <$> _get_elements W self config s.
Proof.
  unfold _get_elements, _get_elements_try, with_clock.
  cbn [ocr_extract_text partition_pdf partition_xlsx partition_html
       partition_image partition_email partition_module urlparse_scheme].
  destruct (Py.endswith_any (Py.lower s) image_suffixes && ocr_for_images config);
    [|done].
  destruct (ocr_processor self) as [ocr|]; simpl; [|done].
  destruct (ocr_extract_text W ocr s) as [text|e]; simpl; [|done].
  unfold _create_element_from_ocr.
  by destruct (_get_filetype self s).
Qed.

(** The output units of a source do not depend on the clock. *)
Lemma source_result_clock W self config s t :
  source_result (with_clock W t) self config s = source_result W self config s.
Proof.
  unfold source_result.
  rewrite <- (process_elements_forget _ _ (_filter_elements _ (_get_elements (with_clock W t) _ _ _))).
  rewrite <- (process_elements_forget _ _ (_filter_elements _ (_get_elements W _ _ _))).
  by rewrite <- !filter_elements_forget, get_elements_clock.
Qed.

Lemma init_ocr_processor_idem self config :
  _init_ocr_processor (_init_ocr_processor self config) config
  = _init_ocr_processor self config.
Proof.
  destruct self as [srcs dt [ocr|]]; unfold _init_ocr_processor;
    destruct (ocr_for_images config); reflexivity.
Qed.

Lemma collect_ext f g (c1 c2 srcs : list string) :
  c1 ≡ₚ srcs → c2 ≡ₚ srcs → names_distinct srcs →
  (∀ s, s ∈ srcs → f s = g s) →
  collect f c1 = collect g c2.
Proof.
  intros H1 H2 Hnd Hfg. apply map_eq. intros k.
  destruct (decide (k ∈ Path.name <$> srcs)) as [Hk|Hk].
  - apply list_elem_of_fmap in Hk as (s & -> & Hs).
    rewrite !collect_lookup.
    + by rewrite Hfg.
    + by rewrite H2.
    + intros s'. rewrite H2. intros Hs' Hn. by apply Hnd.
    + by rewrite H1.
    + intros s'. rewrite H1. intros Hs' Hn. by apply Hnd.
  - rewrite !collect_lookup_None; [done| |].
    + intros s. rewrite H2. intros Hs <-. apply Hk.
      by apply list_elem_of_fmap_2.
    + intros s. rewrite H1. intros Hs <-. apply Hk.
      by apply list_elem_of_fmap_2.
Qed.

(** C8, as the code has it.  Let the file names of the sources be
    pairwise different and the adapters be functions of their arguments.
    Two runs of [process] with the same configuration, on the same
    processor one after the other or on a fresh one, at whatever times
    and in whatever completion orders, return the same mapping: the same
    keys and under each key the same list of output units, with equal
    content and equal metadata. *)
Theorem process_deterministic
    (W : World) (srcs : list string) (self : DocumentProcessor)
    (config : option ProcessingConfig) (c1 c2 : list string) (t : string) :
  __init__ srcs = Ok self →
  0 < max_workers (default default_config config) →
  c1 ≡ₚ srcs →
  c2 ≡ₚ srcs →
  names_distinct srcs →
  ∃ self1 results,
    process W self config c1 = (self1, Ok results)
    ∧ process (with_clock W t) self1 config c2 = (self1, Ok results)
    ∧ process (with_clock W t) self config c2 = (self1, Ok results).
Proof.
  intros Hinit Hw H1 H2 Hnd.
  rewrite !(process_unfold _ _ _ _ Hw).
  eexists _, _. split; [reflexivity|].
  rewrite (process_unfold _ _ _ _ Hw), init_ocr_processor_idem.
  assert (∀ f g : string → list Document,
            (∀ s, f s = g s) → collect f c2 = collect g c1) as Hc.
  { intros f g Hfg. apply (collect_ext f g c2 c1 srcs); auto. }
  split; f_equal; f_equal; apply Hc; intros s; apply source_result_clock.
Qed.

Lemma process_deterministic_witness :
  ∃ self1 results,
    process (text_world (λ _, false)) two_files_processor None
            ["a/x.pdf"; "b/y.pdf"]
    = (self1, Ok results)
    ∧ process (with_clock (text_world (λ _, false)) "2025-06-30T12:00:00")
              self1 None ["b/y.pdf"; "a/x.pdf"]
      = (self1, Ok results)
    ∧ process (with_clock (text_world (λ _, false)) "2025-06-30T12:00:00")
              two_files_processor None ["b/y.pdf"; "a/x.pdf"]
      = (self1, Ok results).
Proof.
  apply (process_deterministic (text_world (λ _, false))
           ["a/x.pdf"; "b/y.pdf"] two_files_processor None
           ["a/x.pdf"; "b/y.pdf"] ["b/y.pdf"; "a/x.pdf"]
           "2025-06-30T12:00:00").
  - reflexivity.
  - reflexivity.
  - reflexivity.
  - apply perm_swap.
  - exact two_files_distinct.
Defined.

(** C8 as stated fails.  With two sources of the same file name and
    adapters that are functions of their arguments, two runs with the same
    configuration whose futures complete in different orders return
    different lists under that name. *)
Lemma same_name_depends_on_completion_order :
  ∃ self1 results1 self2 results2,
    process (text_world (λ _, false)) same_name_processor None
            ["a/x.pdf"; "b/x.pdf"]
    = (self1, Ok results1)
    ∧ process (text_world (λ _, false)) self1 None ["b/x.pdf"; "a/x.pdf"]
      = (self2, Ok results2)
    ∧ dom results1 = dom results2
    ∧ results1 !! "x.pdf" ≠ results2 !! "x.pdf".
Proof.
  eexists _, _, _, _. split_and!; [reflexivity|reflexivity| |].
  - apply set_eq. intros k. rewrite !elem_of_dom.
    unfold process. simpl. unfold store.
    rewrite !lookup_insert. repeat case_decide; try done.
    all: rewrite ?lookup_empty; split; intros [? ?]; done.
  - vm_compute. discriminate.
Qed.

(* ===================================================================== *)
(** ** Construction, again *)
(* ===================================================================== *)

Lemma by_value_value t : by_value (value t) = Some t.
Proof. by destruct t. Qed.

Lemma by_value_Some v t : by_value v = Some t → value t = v.
Proof.
  unfold by_value. intros [_ H]%find_some. by apply String.eqb_eq in H.
Qed.

Lemma extension_not_jpg s : extension s ≠ "jpg".
Proof.
  unfold extension.
  destruct (String.eqb _ "jpg") eqn:E; [done|]. by apply String.eqb_neq in E.
Qed.

Lemma from_file_Ok_iff (s : string) (t : DocumentType) :
  from_file s = Ok t
  ↔ (url_like s = true ∧ t = HTML)
    ∨ (url_like s = false ∧ value t = extension s).
Proof.
  unfold from_file, url_like.
  destruct (Py.startswith_any _ _).
  - split; [intros [= <-]; by left|]. by intros [[_ ->]|[? _]].
  - split.
    + destruct (by_value (extension s)) as [t'|] eqn:E; [|done].
      intros [= <-]. right. split; [done|]. by apply by_value_Some.
    + intros [[? _]|[_ <-]]; [done|]. by rewrite by_value_value.
Qed.

(** X1.  [from_file] returns a type exactly in two cases: [HTML] for a
    path that begins, whatever the case of its letters, with [http://],
    [https://] or [www.]; otherwise the member whose value is the
    lowercased suffix of the path without its dot, [jpg] read as [jpeg].
    The member [JPG] is never returned. *)
Theorem from_file_classification (s : string) (t : DocumentType) :
  (from_file s = Ok t
   ↔ (url_like s = true ∧ t = HTML)
     ∨ (url_like s = false ∧ value t = extension s))
  ∧ from_file s ≠ Ok JPG.
Proof.
  split; [apply from_file_Ok_iff|].
  intros [[_ ?]|[_ H]]%from_file_Ok_iff; [done|].
  by apply (extension_not_jpg s).
Qed.

Lemma init_lookup srcs self :
  __init__ srcs = Ok self →
  ∀ s t, doc_types self !! s = Some t ↔ s ∈ srcs ∧ from_file s = Ok t.
Proof.
  unfold __init__.
  destruct (build_doc_types srcs ∅) as [m|e] eqn:Hb; [|done].
  intros [= <-] s t. simpl.
  destruct (build_doc_types_lookup _ _ _ Hb s) as [Hin Hout]. split.
  - intros Ht. destruct (decide (s ∈ srcs)) as [Hs|Hs].
    + destruct (Hin Hs) as (t' & Hf & Hl). split; [done|]. congruence.
    + rewrite Hout, lookup_empty in Ht by done. done.
  - intros [Hs Hf]. destruct (Hin Hs) as (t' & Hf' & Hl). congruence.
Qed.

(** X2.  Construction succeeds exactly when [from_file] accepts every
    source.  It then keeps the sources as given, has no OCR processor, and
    caches a type for the sources and for nothing else, the one
    [from_file] gives.  Otherwise it raises the error of the first source,
    in the order given, that [from_file] rejects. *)
Theorem init_characterisation (srcs : list string) :
  match __init__ srcs with
  | Ok self =>
      sources self = srcs
      ∧ ocr_processor self = None
      ∧ dom (doc_types self) = list_to_set srcs
      ∧ ∀ s t, doc_types self !! s = Some t ↔ s ∈ srcs ∧ from_file s = Ok t
  | Raise e =>
      ∃ l1 s l2,
        srcs = l1 ++ s :: l2
        ∧ (∀ x, x ∈ l1 → ∃ t, from_file x = Ok t)
        ∧ from_file s = Raise e
  end.
Proof.
  destruct (__init__ srcs) as [self|e] eqn:Hinit.
  - destruct (init_inv _ _ Hinit) as (Hsrcs & Hnone & Hdt).
    pose proof (init_lookup _ _ Hinit) as Hl.
    split_and!; [done|done| |done].
    apply set_eq. intros s. rewrite elem_of_dom, elem_of_list_to_set. split.
    + intros [t Ht]. by apply Hl in Ht as [? _].
    + intros (t & _ & Ht)%Hdt. by eexists.
  - unfold __init__ in Hinit.
    assert (∀ l acc e,
      build_doc_types l acc = Raise e →
      ∃ l1 s l2, l = l1 ++ s :: l2
                 ∧ (∀ x, x ∈ l1 → ∃ t, from_file x = Ok t)
                 ∧ from_file s = Raise e) as Hraise.
    { induction l as [|x l IH]; intros acc e'; simpl; [done|].
      destruct (from_file x) as [t|e''] eqn:Hx; simpl.
      - intros (l1 & s & l2 & -> & Hl1 & Hs)%IH.
        exists (x :: l1), s, l2. split_and!; [done| |done].
        intros y [->|Hy]%elem_of_cons; eauto.
      - intros [= <-]. exists [], x, l. split_and!; [done| |done].
        by intros y ?%elem_of_nil. }
    apply (Hraise srcs ∅).
    destruct (build_doc_types srcs ∅); simpl in Hinit; [done|congruence].
Qed.

(** X3.  On a processor built by construction, also after [process] has
    set up OCR, [_get_filetype] returns a file type for every registered
    source and raises the key error for any other path. *)
Theorem get_filetype_registered (srcs : list string) (self : DocumentProcessor)
    (config : ProcessingConfig) (s : string) :
  __init__ srcs = Ok self →
  (s ∈ srcs → ∃ filetype,
     _get_filetype (_init_ocr_processor self config) s = Ok filetype)
  ∧ (s ∉ srcs →
     _get_filetype (_init_ocr_processor self config) s = Raise (KeyError s)).
Proof.
  intros Hinit. pose proof (init_lookup _ _ Hinit) as Hl.
  destruct (init_inv _ _ Hinit) as (_ & _ & Hdt).
  unfold _get_filetype.
  destruct (init_ocr_processor_doc_types self config) as [-> _].
  split.
  - intros (t & _ & ->)%Hdt. by eexists.
  - intros Hs. destruct (doc_types self !! s) as [t|] eqn:Ht; [|done].
    by apply Hl in Ht as [? _].
Qed.

Lemma get_filetype_registered_witness :
  ("a/x.pdf" ∈ ["a/x.pdf"; "b/y.pdf"] → ∃ filetype,
     _get_filetype (_init_ocr_processor two_files_processor default_config)
       "a/x.pdf" = Ok filetype)
  ∧ ("a/x.pdf" ∉ ["a/x.pdf"; "b/y.pdf"] →
     _get_filetype (_init_ocr_processor two_files_processor default_config)
       "a/x.pdf" = Raise (KeyError "a/x.pdf")).
Proof.
  apply (get_filetype_registered ["a/x.pdf"; "b/y.pdf"] two_files_processor
           default_config "a/x.pdf").
  reflexivity.
Defined.

(* ===================================================================== *)
(** ** The OCR processor across runs *)
(* ===================================================================== *)

Lemma process_Ok W self config completed self' results :
  process W self config completed = (self', Ok results) →
  0 < max_workers (default default_config config)
  ∧ self' = _init_ocr_processor self (default default_config config)
  ∧ results = collect (source_result W self' (default default_config config))
                      completed.
Proof.
  intros H.
  destruct (decide (0 < max_workers (default default_config config))) as [Hw|Hw].
  - rewrite (process_unfold _ _ _ _ Hw) in H. by injection H as <- <-.
  - unfold process, ThreadPoolExecutor in H.
    destruct (max_workers _ <=? 0) eqn:E; [done|]. apply Z.leb_gt in E. lia.
Qed.

(** X4.  A call of [process] that fails on the worker count has already
    created the OCR processor.  With OCR enabled, no OCR processor yet
    and a worker count that is not positive, the call raises the
    [ValueError] of the executor and returns nothing, the sources and
    their cached types are as before, and the processor now holds an OCR
    processor of the configured model; a later call with a valid
    configuration keeps that one, whatever model it names. *)
Theorem failed_process_keeps_ocr_processor
    (W : World) (self : DocumentProcessor) (c1 c2 : ProcessingConfig)
    (completed1 completed2 : list string) :
  ocr_processor self = None →
  ocr_for_images c1 = true →
  max_workers c1 ≤ 0 →
  0 < max_workers c2 →
  ∃ self1 results2,
    process W self (Some c1) completed1
    = (self1, Raise (ValueError "max_workers must be greater than 0"))
    ∧ sources self1 = sources self
    ∧ doc_types self1 = doc_types self
    ∧ ocr_processor self1 = Some {| model := ocr_model c1 |}
    ∧ process W self1 (Some c2) completed2 = (self1, Ok results2).
Proof.
  intros Hnone Hocr Hw1 Hw2.
  destruct (init_ocr_processor_fresh self c1 Hnone Hocr) as (Hp & Hd & Hs).
  exists (_init_ocr_processor self c1). eexists. split_and!.
  - unfold process, ThreadPoolExecutor. simpl.
    by rewrite (proj2 (Z.leb_le _ _) Hw1).
  - done.
  - done.
  - done.
  - rewrite (process_unfold W _ (Some c2) completed2 Hw2). simpl.
    f_equal. unfold _init_ocr_processor at 1. rewrite Hp. simpl.
    by rewrite andb_false_r.
Qed.

Lemma failed_process_keeps_ocr_processor_witness :
  ∃ self1 results2,
    process (quiet_world (Ok "a<b"))
      {| sources := ["scan.png"];
         doc_types := {[ "scan.png" := PNG ]};
         ocr_processor := None |}
      (Some no_workers_config) ["scan.png"]
    = (self1, Raise (ValueError "max_workers must be greater than 0"))
    ∧ sources self1 = ["scan.png"]
    ∧ doc_types self1 = {[ "scan.png" := PNG ]}
    ∧ ocr_processor self1 = Some {| model := "tesseract" |}
    ∧ process (quiet_world (Ok "a<b")) self1 (Some paddle_config) ["scan.png"]
      = (self1, Ok results2).
Proof.
  refine (failed_process_keeps_ocr_processor (quiet_world (Ok "a<b"))
            {| sources := ["scan.png"];
               doc_types := {[ "scan.png" := PNG ]};
               ocr_processor := None |}
            no_workers_config paddle_config ["scan.png"] ["scan.png"]
            _ _ _ _).
  - reflexivity.
  - reflexivity.
  - simpl. lia.
  - simpl. lia.
Defined.

(** X5.  The OCR processor of a first run with OCR enabled is the one
    every later run on the same processor uses, whatever model the later
    configuration names: an image is then read with the first model. *)
Theorem ocr_processor_of_first_run_is_kept
    (W : World) (self self1 : DocumentProcessor)
    (c1 c2 : ProcessingConfig) (completed1 completed2 : list string)
    (results1 : gmap string (list Document)) (s : string) :
  ocr_processor self = None →
  ocr_for_images c1 = true →
  process W self (Some c1) completed1 = (self1, Ok results1) →
  0 < max_workers c2 →
  ocr_for_images c2 = true →
  Py.endswith_any (Py.lower s) image_suffixes = true →
  ∃ results2,
    process W self1 (Some c2) completed2 = (self1, Ok results2)
    ∧ ocr_processor self1 = Some {| model := ocr_model c1 |}
    ∧ _get_elements W self1 c2 s
      = catch (text ← ocr_extract_text W {| model := ocr_model c1 |} s;
               _create_element_from_ocr W self1 text s)
              (λ _, []).
Proof.
  intros Hnone Hocr1 (_ & Hself1 & _)%process_Ok Hw Hocr2 Himg.
  simpl in Hself1.
  destruct (init_ocr_processor_fresh self c1 Hnone Hocr1) as (Hp & _ & _).
  rewrite <- Hself1 in Hp.
  assert (_init_ocr_processor self1 c2 = self1) as Hsame.
  { unfold _init_ocr_processor. by rewrite Hocr2, Hp. }
  rewrite (process_unfold W self1 (Some c2) completed2 Hw). simpl.
  rewrite Hsame. eexists. split_and!; [done|done|].
  unfold _get_elements, _get_elements_try. by rewrite Himg, Hocr2, Hp.
Qed.

Lemma ocr_processor_of_first_run_is_kept_witness :
  ∃ results2,
    process (quiet_world (Ok "a<b")) scan_processor (Some paddle_config)
            ["scan.png"]
    = (scan_processor, Ok results2)
    ∧ ocr_processor scan_processor = Some {| model := ocr_model ocr_config |}
    ∧ _get_elements (quiet_world (Ok "a<b")) scan_processor paddle_config
        "scan.png"
      = catch (text ← ocr_extract_text (quiet_world (Ok "a<b"))
                        {| model := ocr_model ocr_config |} "scan.png";
               _create_element_from_ocr (quiet_world (Ok "a<b"))
                 scan_processor text "scan.png")
              (λ _, []).
Proof.
  apply (ocr_processor_of_first_run_is_kept (quiet_world (Ok "a<b"))
           {| sources := ["scan.png"];
              doc_types := {[ "scan.png" := PNG ]};
              ocr_processor := None |}
           scan_processor ocr_config paddle_config ["scan.png"] ["scan.png"]
           (collect (source_result (quiet_world (Ok "a<b")) scan_processor
                       ocr_config) ["scan.png"])
           "scan.png"); reflexivity.
Defined.

(* ===================================================================== *)
(** ** The element filter selects *)
(* ===================================================================== *)

Lemma filter_sublist {A} (q : A → bool) l : sublist (List.filter q l) l.
Proof.
  induction l as [|x l IH]; simpl; [constructor|].
  destruct (q x); by constructor.
Qed.

Lemma filterM_sublist {A} (p : A → Outcome bool) l r :
  filterM p l = Ok r → sublist r l.
Proof.
  intros H.
  rewrite (filterM_Ok p (λ x, match p x with Ok true => true | _ => false end)
             l r); [apply filter_sublist| |done].
  intros x b _ ->. by destruct b.
Qed.

Lemma surviving_sublist config l : sublist (surviving config l) l.
Proof.
  unfold surviving.
  destruct (filter_empty_elements config), (remove_headers config);
    try done; try apply filter_sublist.
  etrans; apply filter_sublist.
Qed.

Lemma filter_elements_sublist_surviving config l :
  sublist (_filter_elements config l) (surviving config l).
Proof.
  rewrite filter_elements_unfold.
  destruct (remove_references config); [|done].
  destruct (remove_references_try (surviving config l)) as [r|e] eqn:E;
    simpl; [|done].
  unfold remove_references_try in E.
  apply bind_Ok in E as (titles & _ & E).
  destruct titles as [|first titles]; [by injection E as <-|].
  apply bind_Ok in E as (i & _ & E). by apply filterM_sublist in E.
Qed.

(** X6.  The element filter only selects: its result is a subsequence of
    its input (nothing added, duplicated or reordered), and with the three
    toggles off it is the input itself. *)
Theorem filter_elements_selects (config : ProcessingConfig) (l : list Element) :
  sublist (_filter_elements config l) l
  ∧ (filter_empty_elements config = false →
     remove_headers config = false →
     remove_references config = false →
     _filter_elements config l = l).
Proof.
  split.
  - etrans; [apply filter_elements_sublist_surviving|apply surviving_sublist].
  - intros He Hh Hr. rewrite filter_elements_unfold, Hr.
    unfold surviving. by rewrite He, Hh.
Qed.

(** X7.  What the enabled filters guarantee of every element returned,
    also after the reference step: with the empty filter on it has a text
    that is not blank, and with the header filter on its category is not
    [Header]. *)
Theorem filter_elements_guarantees
    (config : ProcessingConfig) (l : list Element) (el : Element) :
  el ∈ _filter_elements config l →
  (filter_empty_elements config = true →
   ∃ t, el_text el = Some t ∧ Py.strip t ≠ EmptyString)
  ∧ (remove_headers config = true → el_category el ≠ Some "Header").
Proof.
  intros Hel.
  assert (el ∈ surviving config l) as Hs.
  { eapply elem_of_sublist; [exact Hel|]. apply filter_elements_sublist_surviving. }
  unfold surviving in Hs. split.
  - intros He. rewrite He in Hs.
    assert (el ∈ List.filter has_content l) as Hc.
    { destruct (remove_headers config); [|done].
      eapply elem_of_sublist; [exact Hs|]. apply filter_sublist. }
    apply list_elem_of_In, filter_In in Hc as [_ Hc].
    unfold has_content in Hc. destruct (el_text el) as [t|]; [|done].
    exists t. split; [done|]. apply andb_prop in Hc as [_ Hc].
    by destruct (Py.strip t).
  - intros Hh. rewrite Hh in Hs.
    apply list_elem_of_In, filter_In in Hs as [_ Hs].
    apply negb_true_iff, String.eqb_neq in Hs. unfold getattr_category in Hs.
    destruct (el_category el); congruence.
Qed.

Lemma filter_elements_guarantees_witness :
  (filter_empty_elements references_config = true →
   ∃ t, el_text (parsed "continued" "NarrativeText" "e4" (Some 2) (Some "e3"))
        = Some t ∧ Py.strip t ≠ EmptyString)
  ∧ (remove_headers references_config = true →
     el_category (parsed "continued" "NarrativeText" "e4" (Some 2) (Some "e3"))
     ≠ Some "Header").
Proof.
  apply (filter_elements_guarantees references_config paper).
  apply list_elem_of_In. vm_compute. tauto.
Defined.

(* ===================================================================== *)
(** ** Spreadsheets *)
(* ===================================================================== *)

Lemma filterM_metadata (q : Metadata → bool) l :
  filterM (λ el, md ← getattr_or_raise "metadata" (el_metadata el); Ok (q md)) l
  = if forallb has_metadata l
    then Ok (List.filter (λ el, match el_metadata el with
                                | Some md => q md
                                | None => false
                                end) l)
    else Raise (AttributeError "metadata").
Proof.
  induction l as [|el l IH]; simpl; [done|].
  unfold has_metadata at 1. destruct (el_metadata el) as [md|]; simpl; [|done].
  rewrite IH. destruct (forallb has_metadata l); simpl; [|done].
  by destruct (q md).
Qed.

Lemma endswith_xlsx_not_before lp :
  Py.endswith_any lp [".xlsx"; ".xls"] = true →
  Py.endswith_any lp image_suffixes = false ∧ Py.endswith lp ".pdf" = false.
Proof.
  unfold Py.endswith_any, Py.endswith, image_suffixes. cbn [existsb].
  change (String.rev ".xlsx") with "xslx.".
  change (String.rev ".xls") with "slx.".
  rewrite orb_false_r.
  intros [H|H]%orb_prop.
  - apply startswith_String in H as (s1 & -> & _). by split.
  - apply startswith_String in H as (s1 & -> & _). by split.
Qed.

(** X8.  A spreadsheet source is read by the spreadsheet partition function
    and only the elements that have an HTML table representation are kept,
    in order; when the function raises, or hands over an element without
    metadata, no element is extracted. *)
Theorem spreadsheet_extraction
    (W : World) (self : DocumentProcessor) (config : ProcessingConfig)
    (s : string) :
  Py.endswith_any (Py.lower s) [".xlsx"; ".xls"] = true →
  _get_elements W self config s
  = match partition_xlsx W s with
    | Ok elements =>
        if forallb has_metadata elements
        then List.filter has_table_html elements
        else []
    | Raise _ => []
    end.
Proof.
  intros Hx. destruct (endswith_xlsx_not_before _ Hx) as [Himg Hpdf].
  unfold _get_elements, _get_elements_try. rewrite Himg, Hpdf, Hx. simpl.
  destruct (partition_xlsx W s) as [els|e]; simpl; [|done].
  rewrite (filterM_metadata (λ md, bool_decide (is_Some (getattr_text_as_html md)))).
  by destruct (forallb has_metadata els).
Qed.

Lemma spreadsheet_extraction_witness :
  _get_elements (sheet_world) two_files_processor default_config "Sheet.XLSX"
  = match partition_xlsx sheet_world "Sheet.XLSX" with
    | Ok elements =>
        if forallb has_metadata elements
        then List.filter has_table_html elements
        else []
    | Raise _ => []
    end.
Proof.
  apply (spreadsheet_extraction sheet_world two_files_processor default_config
           "Sheet.XLSX").
  reflexivity.
Defined.

(* ===================================================================== *)
(** ** Full chunks *)
(* ===================================================================== *)

Lemma pack_word_packed_full n st seen w :
  0 < n → word w → packed_full n st seen →
  packed_full n (pack_word n st w) (seen ++ [w])
  ∧ current_chunk (pack_word n st w) ≠ [].
Proof.
  intros Hn Hw (gs & Hch & Hgs & Hseen & Hcnt & Hle & Hnil).
  unfold pack_word. rewrite (split_word w Hw). simpl length.
  destruct (current_count st + Z.of_nat 1 >? n) eqn:Hcmp;
    rewrite Z.gtb_ltb in Hcmp;
    [apply Z.ltb_lt in Hcmp | apply Z.ltb_ge in Hcmp].
  - case_bool_decide as Hcur.
    + rewrite Hcur in Hcnt. simpl in Hcnt. lia.
    + split; [|done]. exists (gs ++ [current_chunk st]). simpl.
      split_and!; [| | |done|lia|done].
      * by rewrite Hch, fmap_app.
      * apply Forall_app. split; [done|]. constructor; [lia|done].
      * rewrite concat_app. simpl. rewrite app_nil_r. by rewrite Hseen.
  - split; [|simpl; by destruct (current_chunk st)].
    exists gs. simpl. split_and!; [done|done| | |lia|].
    + by rewrite app_assoc, Hseen.
    + rewrite length_app. simpl. lia.
    + by destruct (current_chunk st).
Qed.

Lemma foldl_pack_word_packed_full n ws st seen :
  0 < n → Forall word ws → packed_full n st seen →
  packed_full n (foldl (pack_word n) st ws) (seen ++ ws)
  ∧ (ws ≠ [] → current_chunk (foldl (pack_word n) st ws) ≠ []).
Proof.
  intros Hn Hws. revert st seen.
  induction Hws as [|w ws Hw Hws IH]; intros st seen Hst; simpl.
  - by rewrite app_nil_r.
  - replace (seen ++ w :: ws) with ((seen ++ [w]) ++ ws)
      by (by rewrite <- app_assoc).
    destruct (pack_word_packed_full n st seen w Hn Hw Hst) as [Hst' Hne].
    destruct (IH _ _ Hst') as [IH1 IH2]. split; [done|]. intros _.
    destruct ws as [|w' ws]; [done|]. by apply IH2.
Qed.

Lemma length_concat_full n (gs : list (list string)) :
  Forall (λ g, Z.of_nat (length g) = n) gs →
  Z.of_nat (length (concat gs)) = n * Z.of_nat (length gs).
Proof.
  induction 1 as [|g gs Hg Hgs IH]; simpl; [lia|].
  rewrite length_app. lia.
Qed.

(** The chunks of the default packer for a positive bound: joins of
    groups of exactly [n] words, then one last group of 1 to [n] words. *)
Lemma default_chunks_full content n :
  0 < n → Py.split content ≠ [] →
  ∃ (gs : list (list string)) (g : list string),
    default_chunks content n = Py.join " " <$> (gs ++ [g])
    ∧ Forall (λ g, Z.of_nat (length g) = n) gs
    ∧ 1 ≤ Z.of_nat (length g) ≤ n
    ∧ concat (gs ++ [g]) = Py.split content.
Proof.
  intros Hn Hne. unfold default_chunks.
  set (st0 := {| chunks := []; current_chunk := []; current_count := 0 |}).
  assert (packed_full n st0 []) as H0.
  { exists []. simpl. split_and!; [done|done|done|done|lia|done]. }
  destruct (foldl_pack_word_packed_full n _ st0 [] Hn (split_words content) H0)
    as [(gs & Hch & Hgs & Hseen & Hcnt & Hle & _) Hcur].
  specialize (Hcur Hne). simpl in Hseen.
  rewrite bool_decide_eq_false_2 by done.
  exists gs, (current_chunk (foldl (pack_word n) st0 (Py.split content))).
  split_and!.
  - by rewrite Hch, fmap_app.
  - done.
  - destruct (current_chunk _); [done|]. simpl. lia.
  - lia.
  - rewrite concat_app. simpl. by rewrite app_nil_r.
Qed.

Lemma pack_word_packed_single n st seen w :
  n ≤ 1 → word w → packed_single st seen →
  packed_single (pack_word n st w) (seen ++ [w]).
Proof.
  intros Hn Hw (Hseen & Hcnt & Hle).
  unfold pack_word, packed_single. rewrite (split_word w Hw). simpl length.
  destruct (current_chunk st) as [|x [|y cur]] eqn:Hcur; simpl in Hcnt.
  - rewrite app_nil_r in Hseen. rewrite Hcnt.
    destruct (_ >? n); simpl; rewrite ?Hcur; simpl.
    + split_and!; [by rewrite Hseen|done|lia].
    + split_and!; [by rewrite Hseen|done|lia].
  - rewrite Hcnt.
    destruct (_ >? n) eqn:E;
      [|rewrite Z.gtb_ltb in E; apply Z.ltb_ge in E; lia].
    simpl. split_and!; [|done|lia]. by rewrite <- Hseen, <- app_assoc.
  - lia.
Qed.

Lemma foldl_pack_word_packed_single n ws st seen :
  n ≤ 1 → Forall word ws → packed_single st seen →
  packed_single (foldl (pack_word n) st ws) (seen ++ ws).
Proof.
  intros Hn Hws. revert st seen.
  induction Hws as [|w ws Hw Hws IH]; intros st seen Hst; simpl.
  - by rewrite app_nil_r.
  - replace (seen ++ w :: ws) with ((seen ++ [w]) ++ ws)
      by (by rewrite <- app_assoc).
    apply IH. by apply pack_word_packed_single.
Qed.

Lemma default_chunks_single content n :
  n ≤ 1 → default_chunks content n = Py.split content.
Proof.
  intros Hn. unfold default_chunks.
  set (st0 := {| chunks := []; current_chunk := []; current_count := 0 |}).
  assert (packed_single st0 []) as H0 by (by split_and!).
  destruct (foldl_pack_word_packed_single n _ st0 [] Hn (split_words content) H0)
    as (Hseen & Hcnt & Hle).
  simpl in Hseen. case_bool_decide as Hcur.
  - by rewrite Hcur, app_nil_r in Hseen.
  - destruct (current_chunk _) as [|x [|y cur]]; [done| |simpl in Hcnt; lia].
    done.
Qed.

Lemma default_chunks_length content n :
  0 < n → Py.split content ≠ [] →
  Z.of_nat (length (default_chunks content n))
  = (Z.of_nat (length (Py.split content)) + n - 1) / n.
Proof.
  intros Hn Hne.
  destruct (default_chunks_full content n Hn Hne)
    as (gs & g & -> & Hgs & Hg & Hcat).
  rewrite length_fmap, length_app, <- Hcat, concat_app, length_app. simpl.
  rewrite app_nil_r, !Nat2Z.inj_add, (length_concat_full n gs Hgs).
  apply Z.div_unique with (r := Z.of_nat (length g) - 1); lia.
Qed.

(** X9.  With no custom splitter and a positive chunk size, a text of at
    least one word is cut into the least possible number of chunks, the
    number of its words divided by the chunk size and rounded up: every
    chunk but the last has exactly [chunk_size] words, and the last has
    at least one. *)
Theorem default_chunks_are_full
    (config : ProcessingConfig) (content : string) (n : Z) :
  custom_splitter config = None →
  0 < n →
  Py.split content ≠ [] →
  ∃ chunks : list string,
    _chunk_content config content n = Ok chunks
    ∧ Z.of_nat (length chunks)
      = (Z.of_nat (length (Py.split content)) + n - 1) / n
    ∧ ∀ (i : nat) c, chunks !! i = Some c →
        1 ≤ Z.of_nat (length (Py.split c)) ≤ n
        ∧ ((S i < length chunks)%nat → Z.of_nat (length (Py.split c)) = n).
Proof.
  intros Hnone Hn Hne. unfold _chunk_content. rewrite Hnone.
  exists (default_chunks content n).
  split; [done|]. split; [by apply default_chunks_length|].
  destruct (default_chunks_full content n Hn Hne)
    as (gs & g & Hch & Hgs & Hg & Hcat).
  rewrite Hch.
  assert (Forall word (concat (gs ++ [g]))) as Hw
    by (rewrite Hcat; apply split_words).
  apply Forall_word_concat in Hw.
  intros i c Hc. rewrite list_lookup_fmap in Hc.
  destruct ((gs ++ [g]) !! i) as [h|] eqn:Hi; [|done].
  simpl in Hc. injection Hc as <-.
  assert (Forall word h) as Hh.
  { rewrite Forall_forall in Hw. apply Hw. by eapply list_elem_of_lookup_2. }
  rewrite (split_join h Hh). rewrite length_fmap, length_app. simpl.
  destruct (decide (i < length gs)%nat) as [Hlt|Hge].
  - rewrite lookup_app_l in Hi by done.
    rewrite Forall_forall in Hgs.
    specialize (Hgs h (list_elem_of_lookup_2 _ _ _ Hi)). lia.
  - rewrite lookup_app_r in Hi by lia.
    destruct (i - length gs)%nat eqn:E; simpl in Hi; [|done].
    injection Hi as <-. split; [lia|]. lia.
Qed.

Lemma default_chunks_are_full_witness :
  ∃ chunks : list string,
    _chunk_content default_config "a b c d e" 2 = Ok chunks
    ∧ Z.of_nat (length chunks)
      = (Z.of_nat (length (Py.split "a b c d e")) + 2 - 1) / 2
    ∧ ∀ (i : nat) c, chunks !! i = Some c →
        1 ≤ Z.of_nat (length (Py.split c)) ≤ 2
        ∧ ((S i < length chunks)%nat → Z.of_nat (length (Py.split c)) = 2).
Proof.
  apply (default_chunks_are_full default_config "a b c d e" 2);
    [reflexivity|lia|vm_compute; discriminate].
Defined.

(** X10.  With no custom splitter and a chunk size of at most one (zero and
    negative sizes included) every word is a chunk of its own. *)
Theorem default_chunks_one_word_each
    (config : ProcessingConfig) (content : string) (n : Z) :
  custom_splitter config = None →
  n ≤ 1 →
  _chunk_content config content n = Ok (Py.split content).
Proof.
  intros Hnone Hn. unfold _chunk_content. rewrite Hnone.
  by rewrite default_chunks_single.
Qed.

Lemma default_chunks_one_word_each_witness :
  _chunk_content default_config "a b c d e" 0 = Ok (Py.split "a b c d e").
Proof.
  apply (default_chunks_one_word_each default_config "a b c d e" 0);
    [reflexivity|lia].
Defined.

(* ===================================================================== *)
(** ** The units of a page *)
(* ===================================================================== *)

Lemma enumerate_snd {A} (l : list A) start : (enumerate start l).*2 = l.
Proof. revert start. induction l as [|x l IH]; intros; simpl; [done|]. by rewrite IH. Qed.

(** The contents of the units of a page: the chunks of the splitter, or
    the page itself. *)
Lemma page_documents_contents self config source idx content units :
  page_documents self config source idx content = Ok units →
  if _should_chunk_content content (chunk_size config)
  then ∃ chunks,
         _chunk_content config content (chunk_size config) = Ok chunks
         ∧ page_content <$> units = chunks
  else page_content <$> units = [content].
Proof.
  unfold page_documents.
  destruct (_should_chunk_content content (chunk_size config)).
  - intros (chunks & Hc & Hm)%bind_Ok. exists chunks. split; [done|].
    apply mapM_Ok in Hm. rewrite <- (enumerate_snd chunks 1).
    remember (enumerate 1 chunks) as ec eqn:Hec. clear Hec.
    induction Hm as [|[ci c] d l r Hd HF IH]; [done|].
    apply bind_Ok in Hd as (ft & _ & [= <-]). simpl. by f_equal.
  - by intros (ft & _ & [= <-])%bind_Ok.
Qed.

(** X11.  The units of a page mirror the splitter.  A page that is not
    split gives one unit with the page text as it is and no chunk number.
    A page that is split gives one unit per chunk the splitter (custom or
    default) returned, with the chunk as its content, in order, numbered
    from 1. *)
Theorem page_documents_mirror_chunks
    (self : DocumentProcessor) (config : ProcessingConfig)
    (source : string) (idx : Z) (content : string) (units : list Document) :
  page_documents self config source idx content = Ok units →
  if _should_chunk_content content (chunk_size config)
  then ∃ chunks,
         _chunk_content config content (chunk_size config) = Ok chunks
         ∧ page_content <$> units = chunks
         ∧ ∀ (i : nat) d, units !! i = Some d →
             dict_get "chunk_number" (metadata d)
             = Some (VInt (Z.of_nat i + 1))
  else ∃ d, units = [d]
            ∧ page_content d = content
            ∧ dict_get "chunk_number" (metadata d) = None.
Proof.
  intros Hu. pose proof (page_documents_contents _ _ _ _ _ _ Hu) as Hc.
  unfold page_documents in Hu.
  destruct (_should_chunk_content content (chunk_size config)).
  - destruct Hc as (chunks & Hc & Hpc). exists chunks.
    split_and!; [done|done|].
    rewrite Hc in Hu. simpl in Hu. apply mapM_Ok in Hu.
    intros i d Hd.
    destruct (Forall2_lookup_r _ _ _ _ _ Hu Hd) as ([ci c] & Hi & Hx).
    rewrite enumerate_lookup in Hi.
    destruct (chunks !! i) as [c'|]; [|done]. simpl in Hi.
    injection Hi as <- <-.
    apply bind_Ok in Hx as (ft & _ & [= <-]). simpl. do 2 f_equal. lia.
  - apply bind_Ok in Hu as (ft & _ & [= <-]). by eexists.
Qed.

Lemma page_documents_mirror_chunks_witness :
  let d := {| page_content := "hello world";
              metadata := [ ("filename", VStr "x.pdf");
                            ("filetype", VStr "application/pdf");
                            ("page_number", VInt 1);
                            ("source", VStr "a/x.pdf") ] |} in
  if _should_chunk_content "hello world" (chunk_size default_config)
  then ∃ chunks,
         _chunk_content default_config "hello world"
           (chunk_size default_config) = Ok chunks
         ∧ page_content <$> [d] = chunks
         ∧ ∀ (i : nat) d', [d] !! i = Some d' →
             dict_get "chunk_number" (metadata d')
             = Some (VInt (Z.of_nat i + 1))
  else ∃ d', [d] = [d']
             ∧ page_content d' = "hello world"
             ∧ dict_get "chunk_number" (metadata d') = None.
Proof.
  apply (page_documents_mirror_chunks two_files_processor default_config
           "a/x.pdf" 1 "hello world").
  reflexivity.
Defined.

Lemma page_documents_total self config source idx content filetype :
  _get_filetype self source = Ok filetype →
  custom_splitter config = None →
  ∃ units, page_documents self config source idx content = Ok units.
Proof.
  intros Hft Hnone. unfold page_documents, _chunk_content.
  rewrite Hft, Hnone. simpl.
  destruct (_should_chunk_content content (chunk_size config)); [|by eexists].
  apply mapM_total. intros [ci c] _. by eexists.
Qed.

Lemma concat_split_words (ws : list string) :
  Forall word ws → concat (Py.split <$> ws) = ws.
Proof.
  induction 1 as [|w ws Hw Hws IH]; [done|].
  rewrite fmap_cons. simpl concat. by rewrite (split_word w Hw), IH.
Qed.

Lemma default_chunks_words content n :
  concat (Py.split <$> default_chunks content n) = Py.split content.
Proof.
  destruct (decide (0 < n)) as [Hn|Hn].
  - destruct (default_chunks_groups content n Hn) as (gs & -> & Hgs & Hcat).
    rewrite split_join_groups; [done|].
    apply Forall_word_concat. rewrite Hcat. apply split_words.
  - rewrite default_chunks_single by lia.
    apply concat_split_words, split_words.
Qed.

(** The units of a page under the default splitter: as many as there are
    chunks, or one, and with the words of the page. *)
Lemma page_documents_words self config source filetype idx content :
  _get_filetype self source = Ok filetype →
  custom_splitter config = None →
  ∃ units,
    page_documents self config source idx content = Ok units
    ∧ concat (Py.split <$> (page_content <$> units)) = Py.split content
    ∧ length units
      = if _should_chunk_content content (chunk_size config)
        then length (default_chunks content (chunk_size config)) else 1%nat.
Proof.
  intros Hft Hnone.
  destruct (page_documents_total self config source idx content _ Hft Hnone)
    as [units Hu].
  exists units. split; [done|].
  pose proof (page_documents_contents _ _ _ _ _ _ Hu) as Hm.
  destruct (_should_chunk_content content (chunk_size config)).
  - destruct Hm as (chunks & Hc & Hpc).
    unfold _chunk_content in Hc. rewrite Hnone in Hc. injection Hc as <-.
    rewrite Hpc. split; [apply default_chunks_words|].
    by rewrite <- Hpc, length_fmap.
  - rewrite Hm. simpl. rewrite app_nil_r. split; [done|].
    apply (f_equal length) in Hm. by rewrite length_fmap in Hm.
Qed.

(** X12.  With no custom splitter no word of a page is lost, repeated or
    moved across its units, whatever the chunk size (zero and negative
    sizes included): the words of the units, one unit after the other,
    are the words of the page.  For a positive chunk size a page of at
    least one word gives the number of its words divided by the chunk
    size, rounded up, units. *)
Theorem page_units_keep_words
    (self : DocumentProcessor) (config : ProcessingConfig)
    (source filetype : string) (idx : Z) (content : string) :
  _get_filetype self source = Ok filetype →
  custom_splitter config = None →
  ∃ units,
    page_documents self config source idx content = Ok units
    ∧ concat (Py.split <$> (page_content <$> units)) = Py.split content
    ∧ (0 < chunk_size config → Py.split content ≠ [] →
       Z.of_nat (length units)
       = (Z.of_nat (length (Py.split content)) + chunk_size config - 1)
         / chunk_size config).
Proof.
  intros Hft Hnone.
  destruct (page_documents_words self config source filetype idx content
              Hft Hnone) as (units & Hu & Hw & Hlen).
  exists units. split_and!; [done|done|]. intros Hn Hne. rewrite Hlen.
  unfold _should_chunk_content.
  destruct (_ >? chunk_size config) eqn:E; rewrite Z.gtb_ltb in E.
  - by apply default_chunks_length.
  - apply Z.ltb_ge in E.
    apply Z.div_unique with (r := Z.of_nat (length (Py.split content)) - 1).
    + left. destruct (Py.split content); [done|]. simpl in *. lia.
    + lia.
Qed.

Lemma page_units_keep_words_witness :
  ∃ units,
    page_documents two_files_processor small_chunks_config "a/x.pdf" 1
      "one two three four five" = Ok units
    ∧ concat (Py.split <$> (page_content <$> units))
      = Py.split "one two three four five"
    ∧ (0 < chunk_size small_chunks_config →
       Py.split "one two three four five" ≠ [] →
       Z.of_nat (length units)
       = (Z.of_nat (length (Py.split "one two three four five"))
          + chunk_size small_chunks_config - 1)
         / chunk_size small_chunks_config).
Proof.
  apply (page_units_keep_words two_files_processor small_chunks_config
           "a/x.pdf" "application/pdf" 1 "one two three four five");
    reflexivity.
Defined.

(* ===================================================================== *)
(** ** The shape of page texts *)
(* ===================================================================== *)

Lemma occurs_app c s1 s2 : occurs c (s1 +:+ s2) ↔ occurs c s1 ∨ occurs c s2.
Proof.
  induction s1 as [|a s1 IH].
  - rewrite append_empty_l. simpl. tauto.
  - rewrite append_String. simpl. rewrite IH. tauto.
Qed.

Lemma rev_app_append s1 s2 : String.rev_app s1 s2 = String.rev s1 +:+ s2.
Proof.
  unfold String.rev. revert s2.
  induction s1 as [|a s1 IH]; intros s2; simpl; [done|].
  rewrite IH, (IH (String a "")), append_assoc. done.
Qed.

Lemma rev_String a s : String.rev (String a s) = String.rev s +:+ String a "".
Proof. unfold String.rev at 1. simpl. apply rev_app_append. Qed.

Lemma rev_append s1 s2 : String.rev (s1 +:+ s2) = String.rev s2 +:+ String.rev s1.
Proof.
  induction s1 as [|a s1 IH].
  - by rewrite append_empty_l, append_empty_r.
  - by rewrite append_String, !rev_String, IH, append_assoc.
Qed.

Lemma rev_involutive s : String.rev (String.rev s) = s.
Proof.
  induction s as [|a s IH]; [done|].
  by rewrite rev_String, rev_append, IH.
Qed.

Lemma occurs_rev c s : occurs c (String.rev s) ↔ occurs c s.
Proof.
  induction s as [|a s IH]; [done|].
  rewrite rev_String, occurs_app, IH. simpl. tauto.
Qed.

Lemma lstrip_decompose s :
  ∃ pre, s = pre +:+ Py.lstrip s ∧ starts_clean (Py.lstrip s).
Proof.
  induction s as [|a s (pre & Hs & Hc)]; simpl.
  - exists "". by rewrite append_empty_l.
  - destruct (Py.isspace a) eqn:Ha.
    + exists (String a pre). split; [|done]. by rewrite append_String, <- Hs.
    + exists "". rewrite append_empty_l. split; [done|]. exact Ha.
Qed.

Lemma lstrip_clean s : starts_clean s → Py.lstrip s = s.
Proof. destruct s as [|a s]; simpl; [done|]. by intros ->. Qed.

Lemma occurs_lstrip c s : occurs c (Py.lstrip s) → occurs c s.
Proof.
  destruct (lstrip_decompose s) as (pre & Hs & _). intros H.
  rewrite Hs. apply occurs_app. by right.
Qed.

Lemma occurs_strip c s : occurs c (Py.strip s) → occurs c s.
Proof.
  unfold Py.strip. intros H.
  apply (proj1 (occurs_rev _ _)), occurs_lstrip in H.
  apply (proj1 (occurs_rev _ _)) in H. by apply occurs_lstrip.
Qed.

Lemma starts_clean_app s1 s2 :
  s1 ≠ EmptyString → starts_clean (s1 +:+ s2) → starts_clean s1.
Proof. by destruct s1. Qed.

Lemma strip_strip s : Py.strip (Py.strip s) = Py.strip s.
Proof.
  unfold Py.strip.
  destruct (lstrip_decompose s) as (p1 & _ & Ha).
  set (a := Py.lstrip s) in *.
  destruct (lstrip_decompose (String.rev a)) as (p2 & Hb & Hc).
  set (c := Py.lstrip (String.rev a)) in *.
  assert (starts_clean (String.rev c)) as Hrc.
  { destruct (decide (String.rev c = EmptyString)) as [->|Hne]; [done|].
    apply (starts_clean_app _ (String.rev p2)); [done|].
    by rewrite <- rev_append, <- Hb, rev_involutive. }
  by rewrite (lstrip_clean _ Hrc), rev_involutive, (lstrip_clean _ Hc).
Qed.

Lemma not_occurs_replace a b s : a ≠ b → ¬ occurs a (Py.replace a b s).
Proof.
  intros Hab. induction s as [|c s IH]; simpl; [tauto|].
  intros [H|H]; [|done].
  destruct (Ascii.eqb c a) eqn:E; [congruence|].
  apply Ascii.eqb_neq in E. congruence.
Qed.

Lemma filter_length_le {A} (q : A → bool) l :
  (length (List.filter q l) ≤ length l)%nat.
Proof. induction l as [|x l IH]; simpl; [done|]. destruct (q x); simpl; lia. Qed.

Lemma keyed_raise elements e :
  mapM (λ el, k ← get_page_number el; Ok (k, el)) elements = Raise e →
  forallb has_metadata elements = false ∧ e = AttributeError "metadata".
Proof.
  revert e. unfold get_page_number.
  induction elements as [|el l IH]; intros e; simpl; [done|].
  unfold has_metadata at 1.
  destruct (el_metadata el) as [md|]; simpl; [|by intros [= <-]].
  destruct (mapM _ l) as [r|e'] eqn:Hl; simpl; [done|].
  intros [= <-]. by apply IH.
Qed.

(** X13.  Page aggregation raises in two cases only: with the attribute
    error of [metadata] when some element has no metadata, and otherwise
    with a type error when there are two elements or more and a page
    number among them is not set.  In every other case it returns page
    texts, at most one per element, each of them not empty, free of
    newlines, and without leading or trailing whitespace. *)
Theorem combine_elements_by_page_shape (elements : list Element) :
  match _combine_elements_by_page elements with
  | Ok pages =>
      forallb has_metadata elements = true
      ∧ ((length elements ≤ 1)%nat
         ∨ Forall (λ el, is_Some (page_key el)) elements)
      ∧ (length pages ≤ length elements)%nat
      ∧ Forall (λ page, page ≠ EmptyString
                        ∧ ¬ occurs "010" page
                        ∧ Py.strip page = page) pages
  | Raise e =>
      (forallb has_metadata elements = false ∧ e = AttributeError "metadata")
      ∨ (forallb has_metadata elements = true
         ∧ (2 ≤ length elements)%nat
         ∧ Exists (λ el, page_key el = None) elements
         ∧ e = TypeError)
  end.
Proof.
  unfold _combine_elements_by_page.
  destruct (mapM _ elements) as [keyed|e] eqn:Hk; simpl;
    [|left; by apply keyed_raise].
  assert (forallb has_metadata elements = true) as Hmeta.
  { apply mapM_Ok in Hk. clear -Hk.
    induction Hk as [|el kel l r Hel Hk IH]; [done|]. simpl.
    rewrite IH, andb_true_r. unfold get_page_number, has_metadata in *.
    by destruct (el_metadata el). }
  apply keyed_Ok in Hk. subst keyed.
  destruct (sorted fst _) as [sorted_elements|e] eqn:Hs; simpl.
  - split_and!; [done| | |].
    + apply sorted_Ok_inv in Hs as [Hs|Hs];
        [left; by rewrite length_fmap in Hs|right].
      rewrite Forall_forall in Hs. apply Forall_forall. intros el Hel.
      apply (Hs (page_key el, el)), list_elem_of_fmap. by exists el.
    + etrans; [apply filter_length_le|]. rewrite length_map.
      etrans; [apply groupby_length|].
      by rewrite (Permutation_length (sorted_Ok_Permutation _ _ _ Hs)),
        length_fmap.
    + apply Forall_forall. intros page [Hin Ht]%list_elem_of_In%filter_In.
      apply in_map_iff in Hin as (g & <- & _). split_and!.
      * by destruct (page_text _).
      * unfold page_text. intros H%occurs_strip.
        by apply (not_occurs_replace "010" " ") in H.
      * unfold page_text. apply strip_strip.
  - right. rewrite (sorted_raise _ _ _ Hs). split_and!; [done| | |done].
    + destruct elements as [|x [|y l]]; simpl in *; [done|done|lia].
    + destruct (decide (Forall (λ el, is_Some (page_key el)) elements))
        as [Hnum|Hex].
      * rewrite (sorted_int fst key_number) in Hs; [done|].
        apply Forall_fmap. eapply Forall_impl; [exact Hnum|].
        by intros el [n Hn]; simpl; unfold key_number; simpl; rewrite Hn.
      * apply not_Forall_Exists in Hex; [|apply _].
        eapply Exists_impl; [exact Hex|]. simpl. intros el Hel.
        destruct (page_key el); [|done]. exfalso. apply Hel. by eexists.
Qed.

(* ===================================================================== *)
(** ** Interleaved pages and the entries of the result *)
(* ===================================================================== *)

Lemma StronglySorted_lt_unique (l1 l2 : list Z) :
  StronglySorted Z.lt l1 → StronglySorted Z.lt l2 →
  (∀ p, p ∈ l1 ↔ p ∈ l2) → l1 = l2.
Proof.
  intros H1. revert l2.
  induction H1 as [|x l1 Hl1 IH Hx]; intros l2 H2 Hmem.
  - destruct l2 as [|y l2]; [done|].
    assert (y ∈ ([] : list Z)) as ?%elem_of_nil by (apply Hmem; left). done.
  - destruct H2 as [|y l2 Hl2 Hy].
    { assert (x ∈ ([] : list Z)) as ?%elem_of_nil by (apply Hmem; left). done. }
    rewrite Forall_forall in Hx, Hy.
    assert (x = y) as <-.
    { assert (x ∈ y :: l2) as [?|Hxy%Hy]%elem_of_cons by (apply Hmem; left);
        [done|].
      assert (y ∈ x :: l1) as [?|Hyx%Hx]%elem_of_cons by (apply Hmem; left);
        [done|]. lia. }
    f_equal. apply IH; [done|]. intros p. split.
    + intros Hp. assert (p ∈ x :: l2) as [->|?]%elem_of_cons
        by (apply Hmem; by right); [|done].
      specialize (Hx _ Hp). lia.
    + intros Hp. assert (p ∈ x :: l1) as [->|?]%elem_of_cons
        by (apply Hmem; by right); [|done].
      specialize (Hy _ Hp). lia.
Qed.

Lemma on_page_nonempty p l :
  (∃ el, el ∈ l ∧ page_key el = Some p) ↔ on_page p l ≠ [].
Proof.
  unfold on_page. split.
  - intros (x & Hx & Hk) Hnil.
    assert (x ∈ List.filter (λ el, bool_decide (page_key el = Some p)) l)
      as Hin.
    { apply list_elem_of_In, filter_In. split; [by apply list_elem_of_In|].
      by apply bool_decide_eq_true. }
    rewrite Hnil in Hin. by apply elem_of_nil in Hin.
  - intros Hne. destruct (List.filter _ l) as [|x r] eqn:E; [done|].
    assert (x ∈ List.filter (λ el, bool_decide (page_key el = Some p)) l)
      as Hin by (rewrite E; left).
    apply list_elem_of_In, filter_In in Hin as [Hin Hk].
    exists x. split; [by apply list_elem_of_In|].
    by apply bool_decide_eq_true in Hk.
Qed.

(** X14.  Page aggregation depends only on the elements of each page in
    their order: two sequences of elements, all with a page number, that
    have for every page number the same elements of that page in the same
    order give the same page texts, however the pages are interleaved. *)
Theorem combine_elements_by_page_interleaving (l1 l2 : list Element) :
  Forall (λ el, is_Some (page_key el)) l1 →
  Forall (λ el, is_Some (page_key el)) l2 →
  (∀ p, on_page p l1 = on_page p l2) →
  _combine_elements_by_page l1 = _combine_elements_by_page l2.
Proof.
  intros H1 H2 Hsame.
  destruct (combine_elements_by_page_pages _ H1) as (ps1 & Hs1 & Hk1 & ->).
  destruct (combine_elements_by_page_pages _ H2) as (ps2 & Hs2 & Hk2 & ->).
  assert (ps1 = ps2) as <-.
  { apply StronglySorted_lt_unique; [done|done|]. intros p.
    by rewrite Hk1, Hk2, !on_page_nonempty, Hsame. }
  do 2 f_equal. apply list_fmap_ext. intros _ p _. by rewrite Hsame.
Qed.

Lemma combine_elements_by_page_interleaving_witness :
  _combine_elements_by_page numbered = _combine_elements_by_page interleaved.
Proof.
  apply (combine_elements_by_page_interleaving numbered interleaved).
  - unfold numbered, parsed. repeat constructor; by eexists.
  - unfold interleaved, parsed. repeat constructor; by eexists.
  - intros p. unfold on_page, numbered, interleaved, parsed, page_key. simpl.
    destruct (decide (p = 5)) as [->|]; [reflexivity|].
    destruct (decide (p = 1)) as [->|]; [reflexivity|].
    destruct (decide (p = 3)) as [->|]; [reflexivity|].
    rewrite !bool_decide_eq_false_2 by congruence. reflexivity.
Defined.

Lemma foldl_store_lookup_Some f l (m : gmap string (list Document)) k v :
  foldl (store f) m l !! k = Some v →
  (∃ s, s ∈ l ∧ Path.name s = k ∧ v = f s) ∨ m !! k = Some v.
Proof.
  revert m. induction l as [|x l IH]; intros m; simpl; [by right|].
  intros [(s & Hs & Hk & Hv)|H]%IH.
  - left. exists s. split_and!; [by right|done|done].
  - unfold store in H. rewrite lookup_insert in H.
    case_decide as Hx; [|by right].
    injection H as <-. left. exists x. split_and!; [by left|done|done].
Qed.

Lemma source_result_units W self config s :
  Forall (λ d, dict_get "filename" (metadata d) = Some (VStr (Path.name s))
               ∧ dict_get "source" (metadata d) = Some (VStr s)
               ∧ ∃ idx, dict_get "page_number" (metadata d) = Some (VInt idx)
                        ∧ 1 ≤ idx)
         (source_result W self config s).
Proof.
  unfold source_result.
  destruct (_process_elements_to_document _ _ _ _) as [docs|e] eqn:E;
    simpl; [|done].
  apply process_elements_units in E as (pages & per_page & _ & -> & Hpp).
  apply Forall_concat. apply Forall_forall. intros units Hu.
  apply list_elem_of_lookup in Hu as [i Hi].
  destruct (Forall2_lookup_r _ _ _ _ _ Hpp Hi) as ([idx c] & He & Hx).
  rewrite enumerate_lookup in He.
  destruct (pages !! i) as [c'|]; [|done]. simpl in He. injection He as <- <-.
  eapply Forall_impl; [exact (page_documents_units _ _ _ _ _ _ Hx)|].
  intros d (ft & _ & Hf & _ & Hp & Hs). split_and!; [done|done|].
  eexists. split; [done|]. lia.
Qed.

(** X15.  Every entry of the mapping returned by [process] is the output of
    one of the completed sources whose file name is its key, and every
    output unit in it names that key as its file name, that source as its
    source, and a page number of at least 1: this holds also when several
    sources share a file name. *)
Theorem process_entries_filed_by_name
    (W : World) (self self' : DocumentProcessor)
    (config : option ProcessingConfig) (completed : list string)
    (results : gmap string (list Document)) (k : string)
    (docs : list Document) :
  process W self config completed = (self', Ok results) →
  results !! k = Some docs →
  ∃ s, s ∈ completed
       ∧ Path.name s = k
       ∧ docs = source_result W self' (default default_config config) s
       ∧ Forall (λ d, dict_get "filename" (metadata d) = Some (VStr k)
                      ∧ dict_get "source" (metadata d) = Some (VStr s)
                      ∧ ∃ idx, dict_get "page_number" (metadata d)
                               = Some (VInt idx) ∧ 1 ≤ idx) docs.
Proof.
  intros (_ & _ & ->)%process_Ok Hk. unfold collect in Hk.
  apply foldl_store_lookup_Some in Hk as [(s & Hs & <- & ->)|Hk];
    [|by rewrite lookup_empty in Hk].
  exists s. split_and!; [done|done|done|]. apply source_result_units.
Qed.

Lemma process_entries_filed_by_name_witness :
  let W := text_world (λ _, false) in
  let self' := _init_ocr_processor same_name_processor default_config in
  let docs := source_result W self' default_config "b/x.pdf" in
  ∃ s, s ∈ ["a/x.pdf"; "b/x.pdf"]
       ∧ Path.name s = "x.pdf"
       ∧ docs = source_result W self' (default default_config None) s
       ∧ Forall (λ d, dict_get "filename" (metadata d) = Some (VStr "x.pdf")
                      ∧ dict_get "source" (metadata d) = Some (VStr s)
                      ∧ ∃ idx, dict_get "page_number" (metadata d)
                               = Some (VInt idx) ∧ 1 ≤ idx) docs.
Proof.
  apply (process_entries_filed_by_name (text_world (λ _, false))
           same_name_processor
           (_init_ocr_processor same_name_processor default_config) None
           ["a/x.pdf"; "b/x.pdf"]
           (collect (source_result (text_world (λ _, false))
                       (_init_ocr_processor same_name_processor default_config)
                       default_config)
                    ["a/x.pdf"; "b/x.pdf"])
           "x.pdf"); reflexivity.
Defined.

(** X16.  When several completed sources share a file name, the entry
    under that name is the output of the one whose future completed
    last. *)
Theorem process_last_completed_wins
    (W : World) (self : DocumentProcessor) (config : option ProcessingConfig)
    (before after : list string) (s : string) :
  0 < max_workers (default default_config config) →
  (∀ x, x ∈ after → Path.name x ≠ Path.name s) →
  ∃ self' results,
    process W self config (before ++ s :: after) = (self', Ok results)
    ∧ results !! Path.name s
      = Some (source_result W self' (default default_config config) s).
Proof.
  intros Hw Hafter. rewrite (process_unfold _ _ _ _ Hw).
  eexists _, _. split; [reflexivity|].
  unfold collect. rewrite foldl_app. simpl.
  rewrite foldl_store_lookup_other by done.
  unfold store. apply lookup_insert_eq.
Qed.

Lemma process_last_completed_wins_witness :
  ∃ self' results,
    process (text_world (λ _, false)) three_files_processor None
            (["b/x.pdf"] ++ "a/x.pdf" :: ["b/y.pdf"])
    = (self', Ok results)
    ∧ results !! Path.name "a/x.pdf"
      = Some (source_result (text_world (λ _, false)) self'
                (default default_config None) "a/x.pdf").
Proof.
  apply (process_last_completed_wins (text_world (λ _, false))
           three_files_processor None ["b/x.pdf"] ["b/y.pdf"] "a/x.pdf").
  - reflexivity.
  - intros x Hx. apply list_elem_of_In in Hx. simpl in Hx.
    destruct Hx as [<-|[]]. vm_compute. discriminate.
Defined.

(* ===================================================================== *)
(** ** Letter case *)
(* ===================================================================== *)

Lemma lower_char_idem c : Py.lower_char (Py.lower_char c) = Py.lower_char c.
Proof. by destruct c as [[] [] [] [] [] [] [] []]. Qed.

Lemma lower_char_eqb_slash c : Ascii.eqb (Py.lower_char c) "/" = Ascii.eqb c "/".
Proof. by destruct c as [[] [] [] [] [] [] [] []]. Qed.

Lemma lower_char_eqb_dot c : Ascii.eqb (Py.lower_char c) "." = Ascii.eqb c ".".
Proof. by destruct c as [[] [] [] [] [] [] [] []]. Qed.

Lemma lower_idem s : Py.lower (Py.lower s) = Py.lower s.
Proof. induction s as [|c s IH]; simpl; [done|]. by rewrite lower_char_idem, IH. Qed.

Lemma lower_append s1 s2 : Py.lower (s1 +:+ s2) = Py.lower s1 +:+ Py.lower s2.
Proof.
  induction s1 as [|c s1 IH]; [done|].
  rewrite append_String. simpl. by rewrite IH, append_String.
Qed.

Lemma split_on_slash_lower s :
  Py.split_on "/" (Py.lower s) = Py.lower <$> Py.split_on "/" s.
Proof.
  induction s as [|c s IH]; simpl; [done|].
  rewrite lower_char_eqb_slash, IH.
  destruct (Ascii.eqb c "/"); simpl; [done|].
  by destruct (Py.split_on "/" s).
Qed.

Lemma lower_eqb_empty s : String.eqb (Py.lower s) "" = String.eqb s "".
Proof. by destruct s. Qed.

Lemma lower_eqb_dot s : String.eqb (Py.lower s) "." = String.eqb s ".".
Proof.
  destruct s as [|c [|d s]]; simpl; try done.
  - by rewrite lower_char_eqb_dot.
  - by rewrite lower_char_eqb_dot.
Qed.

Lemma last_fmap_lower (l : list string) :
  List.last (Py.lower <$> l) "" = Py.lower (List.last l "").
Proof.
  induction l as [|x l IH]; [done|].
  destruct l as [|y l]; [done|]. exact IH.
Qed.

Lemma name_lower s : Path.name (Py.lower s) = Py.lower (Path.name s).
Proof.
  unfold Path.name, Path.parts. rewrite split_on_slash_lower.
  rewrite (filter_fmap _ Py.lower).
  - apply last_fmap_lower.
  - intros x. by rewrite lower_eqb_empty, lower_eqb_dot.
Qed.

Lemma rfind_dot_lower s : Py.rfind "." (Py.lower s) = Py.rfind "." s.
Proof.
  induction s as [|c s IH]; simpl; [done|].
  by rewrite IH, lower_char_eqb_dot.
Qed.

Lemma length_lower s : String.length (Py.lower s) = String.length s.
Proof. induction s as [|c s IH]; simpl; [done|]. by rewrite IH. Qed.

Lemma drop_lower i s : Py.drop i (Py.lower s) = Py.lower (Py.drop i s).
Proof.
  revert s. induction i as [|i IH]; intros [|c s]; simpl; try done.
Qed.

Lemma suffix_lower s : Path.suffix (Py.lower s) = Py.lower (Path.suffix s).
Proof.
  unfold Path.suffix, Py.len.
  rewrite name_lower, rfind_dot_lower, length_lower.
  destruct (Py.rfind "." (Path.name s)) as [i|]; [|done].
  destruct (_ && _); [apply drop_lower|done].
Qed.

Lemma extension_lower s : extension (Py.lower s) = extension s.
Proof. unfold extension. by rewrite suffix_lower, lower_idem. Qed.

Lemma url_like_lower s : url_like (Py.lower s) = url_like s.
Proof. unfold url_like. by rewrite lower_idem. Qed.

(** X17.  Classification ignores the case of letters.  For every source
    over the code points U+0000 to U+00FF, on which [lower] is Python's
    case mapping character by character, the source and its lowercased
    form are classified alike, or rejected with the same message. *)
Theorem from_file_ignores_case (s : string) :
  from_file (Py.lower s) = from_file s.
Proof.
  unfold from_file. by rewrite lower_idem, extension_lower.
Qed.

(* ===================================================================== *)
(** ** Suffix tests and cached types *)
(* ===================================================================== *)

Lemma startswith_decompose s p :
  Py.startswith s p = true → ∃ r, s = p +:+ r.
Proof.
  revert s. induction p as [|b p IH]; intros s H.
  - exists s. by rewrite append_empty_l.
  - apply startswith_String in H as (s' & -> & H).
    destruct (IH _ H) as [r ->]. exists r. by rewrite append_String.
Qed.

Lemma endswith_decompose s p :
  Py.endswith s p = true → ∃ b, s = b +:+ p.
Proof.
  unfold Py.endswith. intros [r Hr]%startswith_decompose.
  exists (String.rev r).
  by rewrite <- (rev_involutive s), Hr, rev_append, rev_involutive.
Qed.

Lemma split_on_plain sep w :
  (∀ c, occurs c w → c ≠ sep) → Py.split_on sep w = [w].
Proof.
  induction w as [|c w IH]; intros Hw; simpl; [done|].
  destruct (Ascii.eqb c sep) eqn:E.
  - apply Ascii.eqb_eq in E. exfalso. apply (Hw c); [by left|done].
  - rewrite IH; [done|]. intros d Hd. apply Hw. by right.
Qed.

Lemma split_on_app sep b w :
  (∀ c, occurs c w → c ≠ sep) →
  ∃ init lastb,
    Py.split_on sep b = init ++ [lastb]
    ∧ Py.split_on sep (b +:+ w) = init ++ [lastb +:+ w].
Proof.
  intros Hw. induction b as [|c b (init & lastb & Hb & Hbw)].
  - exists [], "". rewrite !append_empty_l. split; [done|].
    by apply split_on_plain.
  - rewrite append_String. simpl. rewrite Hb, Hbw.
    destruct (Ascii.eqb c sep).
    + exists ("" :: init), lastb. done.
    + destruct init as [|i0 init]; simpl.
      * exists [], (String c lastb). by rewrite append_String.
      * exists (String c i0 :: init), lastb. done.
Qed.

Lemma plain_occurs e c : plain e = true → occurs c e → c ≠ "/"%char ∧ c ≠ "."%char.
Proof.
  induction e as [|a e IH]; simpl; [done|].
  intros [[Ha1 Ha2]%andb_prop He]%andb_prop [->|Hc]; [|by apply IH].
  apply negb_true_iff, Ascii.eqb_neq in Ha1, Ha2. done.
Qed.

Lemma rfind_plain e : plain e = true → Py.rfind "." e = None.
Proof.
  induction e as [|a e IH]; simpl; [done|].
  intros [[_ Ha]%andb_prop He]%andb_prop. rewrite (IH He).
  apply negb_true_iff in Ha. by rewrite Ha.
Qed.

Lemma rfind_dot_app x e :
  plain e = true →
  Py.rfind "." (x +:+ String "." e) = Some (String.length x).
Proof.
  intros He. induction x as [|a x IH].
  - rewrite append_empty_l. simpl. by rewrite (rfind_plain e He).
  - rewrite append_String. simpl. by rewrite IH.
Qed.

Lemma drop_length_app x r : Py.drop (String.length x) (x +:+ r) = r.
Proof. induction x as [|a x IH]; [done|]. by rewrite append_String. Qed.

Lemma length_append s1 s2 :
  String.length (s1 +:+ s2) = (String.length s1 + String.length s2)%nat.
Proof.
  induction s1 as [|a s1 IH]; [done|]. rewrite append_String. simpl. by rewrite IH.
Qed.

(** The suffix of a path that ends with a dot and a plain extension. *)
Lemma suffix_dot_plain b e :
  plain e = true → e ≠ EmptyString →
  Path.suffix (b +:+ String "." e) = String "." e
  ∨ Path.suffix (b +:+ String "." e) = EmptyString.
Proof.
  intros He Hne. unfold Path.suffix, Path.name, Path.parts.
  destruct (split_on_app "/" b (String "." e)) as (init & lastb & _ & ->).
  { intros c [<-|Hc]; [done|]. by apply (plain_occurs e c He). }
  rewrite List.filter_app. simpl.
  assert (String.eqb (lastb +:+ String "." e) "" = false) as ->.
  { apply String.eqb_neq. by destruct lastb. }
  assert (String.eqb (lastb +:+ String "." e) "." = false) as ->.
  { apply String.eqb_neq. destruct lastb as [|a [|a' l]], e; done. }
  simpl. rewrite last_last, (rfind_dot_app lastb e He).
  destruct (_ && _); [left|by right]. apply drop_length_app.
Qed.

Lemma lstrip_char_plain e : plain e = true → Py.lstrip_char "." e = e.
Proof.
  destruct e as [|a e]; simpl; [done|].
  intros [[_ Ha]%andb_prop _]%andb_prop.
  apply negb_true_iff in Ha. by rewrite Ha.
Qed.

(** The type of an accepted source whose lowercased path ends with a dot
    and the plain lowercase extension [e]. *)
Lemma from_file_endswith s t e :
  from_file s = Ok t → url_like s = false →
  plain e = true → e ≠ EmptyString → Py.lower e = e →
  Py.endswith (Py.lower s) (String "." e) = true →
  value t = if String.eqb e "jpg" then "jpeg" else e.
Proof.
  intros Hf Hurl He Hne Hlow [b Hb]%endswith_decompose.
  apply from_file_Ok_iff in Hf as [[? _]|[_ Hv]]; [congruence|].
  rewrite <- extension_lower in Hv. unfold extension in Hv. rewrite Hb in Hv.
  destruct (suffix_dot_plain b e He Hne) as [Hs|Hs]; rewrite Hs in Hv.
  - simpl in Hv. change (Py.lower_char ".") with "."%char in Hv.
    simpl in Hv. by rewrite Hlow, (lstrip_char_plain e He) in Hv.
  - by destruct t.
Qed.

Lemma value_inj t1 t2 : value t1 = value t2 → t1 = t2.
Proof. intros H. apply (f_equal by_value) in H. rewrite !by_value_value in H. by injection H. Qed.

(** X18.  For a source accepted at construction that is not URL-like, the
    suffix tests by which [_get_elements] picks a strategy agree with the
    type cached at construction: a path that passes the test of a PDF,
    spreadsheet, HTML, image, email or office suffix has the type of that
    suffix. *)
Theorem dispatch_agrees_with_type (s : string) (t : DocumentType) :
  from_file s = Ok t →
  url_like s = false →
  let lp := Py.lower s in
  (Py.endswith lp ".pdf" = true → t = PDF)
  ∧ (Py.endswith_any lp [".xlsx"; ".xls"] = true → t = XLSX ∨ t = XLS)
  ∧ (Py.endswith lp ".html" = true → t = HTML)
  ∧ (Py.endswith_any lp image_suffixes = true →
     t = PNG ∨ t = JPEG ∨ t = TIFF ∨ t = BMP ∨ t = HEIC)
  ∧ (Py.endswith_any lp [".eml"; ".msg"] = true → t = EML ∨ t = MSG)
  ∧ (Py.endswith_any lp [".docx"; ".doc"; ".pptx"; ".ppt"] = true →
     t = DOCX ∨ t = DOC ∨ t = PPTX ∨ t = PPT).
Proof.
  intros Hf Hurl lp.
  assert (∀ e t', plain e = true → e ≠ EmptyString → Py.lower e = e →
            value t' = (if String.eqb e "jpg" then "jpeg" else e) →
            Py.endswith lp (String "." e) = true → t = t') as Hcase.
  { intros e t' He Hne Hlow Hv Hend. apply value_inj. rewrite Hv.
    by apply (from_file_endswith s t e). }
  unfold Py.endswith_any, image_suffixes. cbn [existsb].
  rewrite !orb_false_r.
  split_and!.
  - by apply (Hcase "pdf" PDF).
  - intros [H|H]%orb_prop;
      [left; by apply (Hcase "xlsx" XLSX)|right; by apply (Hcase "xls" XLS)].
  - by apply (Hcase "html" HTML).
  - intros [H|[H|[H|[H|[H|H]%orb_prop]%orb_prop]%orb_prop]%orb_prop]%orb_prop.
    + left. by apply (Hcase "png" PNG).
    + right; left. by apply (Hcase "jpg" JPEG).
    + right; left. by apply (Hcase "jpeg" JPEG).
    + right; right; left. by apply (Hcase "tiff" TIFF).
    + do 3 right; left. by apply (Hcase "bmp" BMP).
    + do 4 right. by apply (Hcase "heic" HEIC).
  - intros [H|H]%orb_prop;
      [left; by apply (Hcase "eml" EML)|right; by apply (Hcase "msg" MSG)].
  - intros [H|[H|[H|H]%orb_prop]%orb_prop]%orb_prop.
    + left. by apply (Hcase "docx" DOCX).
    + right; left. by apply (Hcase "doc" DOC).
    + right; right; left. by apply (Hcase "pptx" PPTX).
    + do 3 right. by apply (Hcase "ppt" PPT).
Qed.

Lemma dispatch_agrees_with_type_witness :
  let lp := Py.lower "docs/Report.PDF" in
  (Py.endswith lp ".pdf" = true → PDF = PDF)
  ∧ (Py.endswith_any lp [".xlsx"; ".xls"] = true → PDF = XLSX ∨ PDF = XLS)
  ∧ (Py.endswith lp ".html" = true → PDF = HTML)
  ∧ (Py.endswith_any lp image_suffixes = true →
     PDF = PNG ∨ PDF = JPEG ∨ PDF = TIFF ∨ PDF = BMP ∨ PDF = HEIC)
  ∧ (Py.endswith_any lp [".eml"; ".msg"] = true → PDF = EML ∨ PDF = MSG)
  ∧ (Py.endswith_any lp [".docx"; ".doc"; ".pptx"; ".ppt"] = true →
     PDF = DOCX ∨ PDF = DOC ∨ PDF = PPTX ∨ PDF = PPT).
Proof.
  apply (dispatch_agrees_with_type "docs/Report.PDF" PDF); reflexivity.
Defined.

(* ===================================================================== *)
(** ** Words through aggregation *)
(* ===================================================================== *)

Lemma cons_word_app w ws l : Py.cons_word w (ws ++ l) = Py.cons_word w ws ++ l.
Proof. by destruct w. Qed.

Lemma split_scan_app_space s1 c s2 :
  Py.isspace c = true →
  Py.split_scan (s1 +:+ String c s2)
  = ((Py.split_scan s1).1, (Py.split_scan s1).2 ++ Py.split s2).
Proof.
  intros Hc. induction s1 as [|a s1 IH].
  - rewrite append_empty_l. simpl. rewrite Hc. unfold Py.split.
    by destruct (Py.split_scan s2).
  - rewrite append_String. simpl. rewrite IH.
    destruct (Py.split_scan s1) as [w ws]. simpl.
    destruct (Py.isspace a); [|done]. by rewrite cons_word_app.
Qed.

Lemma split_app_space s1 c s2 :
  Py.isspace c = true →
  Py.split (s1 +:+ String c s2) = Py.split s1 ++ Py.split s2.
Proof.
  intros Hc. unfold Py.split at 1 2. rewrite (split_scan_app_space _ _ _ Hc).
  destruct (Py.split_scan s1) as [w ws]. simpl. apply cons_word_app.
Qed.

Lemma split_join_texts (ts : list string) :
  Py.split (Py.join " " ts) = concat (Py.split <$> ts).
Proof.
  induction ts as [|t ts IH]; [done|].
  destruct ts as [|t' ts]; [simpl; by rewrite app_nil_r|].
  change (Py.join " " (t :: t' :: ts))
    with (t +:+ String " " (Py.join " " (t' :: ts))).
  rewrite split_app_space by done. by rewrite IH.
Qed.

Lemma split_scan_replace_newline s :
  Py.split_scan (Py.replace "010" " " s) = Py.split_scan s.
Proof.
  induction s as [|c s IH]; simpl; [done|]. rewrite IH.
  destruct (Ascii.eqb c "010") eqn:E; [|done].
  apply Ascii.eqb_eq in E. by subst c.
Qed.

Lemma split_replace_newline s :
  Py.split (Py.replace "010" " " s) = Py.split s.
Proof. unfold Py.split. by rewrite split_scan_replace_newline. Qed.

Lemma split_blank s : blank s = true → Py.split s = [].
Proof.
  unfold Py.split. induction s as [|c s IH]; simpl; [done|].
  intros [Hc Hs]%andb_prop. rewrite Hc. specialize (IH Hs).
  by destruct (Py.split_scan s).
Qed.

Lemma split_blank_app p s : blank p = true → Py.split (p +:+ s) = Py.split s.
Proof.
  unfold Py.split. induction p as [|c p IH]; intros Hp.
  - by rewrite append_empty_l.
  - apply andb_prop in Hp as [Hc Hp]. rewrite append_String. simpl.
    rewrite Hc. specialize (IH Hp). by destruct (Py.split_scan (p +:+ s)).
Qed.

Lemma split_app_blank s p : blank p = true → Py.split (s +:+ p) = Py.split s.
Proof.
  intros Hp. destruct p as [|c p].
  - by rewrite append_empty_r.
  - apply andb_prop in Hp as [Hc Hp].
    by rewrite split_app_space, (split_blank p Hp), app_nil_r.
Qed.

Lemma lstrip_blank s : ∃ pre, s = pre +:+ Py.lstrip s ∧ blank pre = true.
Proof.
  induction s as [|a s (pre & Hs & Hp)]; simpl.
  - exists "". by rewrite append_empty_l.
  - destruct (Py.isspace a) eqn:Ha.
    + exists (String a pre). split; [by rewrite append_String, <- Hs|].
      simpl. by rewrite Ha.
    + exists "". by rewrite append_empty_l.
Qed.

Lemma blank_app p1 p2 : blank (p1 +:+ p2) = blank p1 && blank p2.
Proof.
  induction p1 as [|c p1 IH]; [done|].
  rewrite append_String. simpl. by rewrite IH, andb_assoc.
Qed.

Lemma blank_rev p : blank (String.rev p) = blank p.
Proof.
  induction p as [|c p IH]; [done|].
  rewrite rev_String, blank_app, IH. simpl.
  by rewrite andb_true_r, andb_comm.
Qed.

Lemma split_lstrip s : Py.split (Py.lstrip s) = Py.split s.
Proof.
  destruct (lstrip_blank s) as (pre & Hs & Hp).
  rewrite Hs at 2. by rewrite split_blank_app.
Qed.

Lemma split_strip s : Py.split (Py.strip s) = Py.split s.
Proof.
  unfold Py.strip. rewrite <- (split_lstrip s).
  destruct (lstrip_blank (String.rev (Py.lstrip s))) as (pre & Hr & Hp).
  rewrite <- (rev_involutive (Py.lstrip s)) at 2.
  rewrite Hr at 2. rewrite rev_append.
  by rewrite split_app_blank by (by rewrite blank_rev).
Qed.

Lemma omap_texts_words (g : list Element) :
  concat (Py.split <$>
            omap (λ el, match el_text el with
                        | Some t => if Py.truthy t then Some t else None
                        | None => None
                        end) g)
  = concat (Py.split <$> (element_text <$> g)).
Proof.
  induction g as [|el g IH]; [done|].
  simpl. unfold element_text at 1.
  destruct (el_text el) as [[|c t]|]; simpl;
    [exact IH|f_equal; exact IH|exact IH].
Qed.

(** The words of a page text are the words of the texts of its elements. *)
Lemma page_text_words g :
  Py.split (page_text g) = concat (Py.split <$> (element_text <$> g)).
Proof.
  unfold page_text.
  by rewrite split_strip, split_replace_newline, split_join_texts,
    omap_texts_words.
Qed.

(* ===================================================================== *)
(** ** Words from elements to units *)
(* ===================================================================== *)

Lemma concat_split_filter_truthy (l : list string) :
  concat (Py.split <$> List.filter Py.truthy l) = concat (Py.split <$> l).
Proof.
  induction l as [|x l IH]; [done|]. simpl.
  destruct x as [|c x]; simpl; [exact IH|]. f_equal. exact IH.
Qed.

(** The words of the page texts are the words of the elements, page by
    page in increasing order of the page numbers. *)
Lemma combine_elements_by_page_words elements :
  Forall (λ el, is_Some (page_key el)) elements →
  ∃ (ps : list Z) (pages : list string),
    _combine_elements_by_page elements = Ok pages
    ∧ StronglySorted Z.lt ps
    ∧ (∀ p, p ∈ ps ↔ ∃ el, el ∈ elements ∧ page_key el = Some p)
    ∧ concat (Py.split <$> pages)
      = concat ((λ p, element_words (on_page p elements)) <$> ps).
Proof.
  intros Hnum.
  destruct (combine_elements_by_page_pages _ Hnum) as (ps & Hs & Hk & Hp).
  exists ps. eexists. split_and!; [exact Hp|done|done|].
  rewrite concat_split_filter_truthy, <- list_fmap_compose. f_equal.
  apply list_fmap_ext. intros _ p _. simpl. apply page_text_words.
Qed.

Lemma pages_documents_words self config source filetype pages start :
  _get_filetype self source = Ok filetype →
  custom_splitter config = None →
  ∃ per_page,
    mapM (λ '(idx, content), page_documents self config source idx content)
         (enumerate start pages) = Ok per_page
    ∧ concat (Py.split <$> (page_content <$> concat per_page))
      = concat (Py.split <$> pages).
Proof.
  intros Hft Hnone. revert start.
  induction pages as [|content pages IH]; intros start; simpl.
  - by exists [].
  - destruct (page_documents_words self config source filetype start content
                Hft Hnone) as (units & -> & Hw & _).
    destruct (IH (start + 1)) as (per_page & -> & Hws). simpl.
    exists (units :: per_page). split; [done|].
    simpl. by rewrite !fmap_app, concat_app, Hw, Hws.
Qed.

(** X19.  With no custom splitter no word is lost between the elements and
    the output units, whatever the chunk size: for elements that all have
    a page number and a registered source, the words of the units, one
    unit after the other, are the words of the element texts, page by page
    in increasing order of the page numbers and within a page in the
    order of the elements. *)
Theorem documents_keep_words
    (self : DocumentProcessor) (config : ProcessingConfig)
    (elements : list Element) (source filetype : string) :
  _get_filetype self source = Ok filetype →
  custom_splitter config = None →
  Forall (λ el, is_Some (page_key el)) elements →
  ∃ (docs : list Document) (ps : list Z),
    _process_elements_to_document self config elements source = Ok docs
    ∧ StronglySorted Z.lt ps
    ∧ (∀ p, p ∈ ps ↔ ∃ el, el ∈ elements ∧ page_key el = Some p)
    ∧ concat (Py.split <$> (page_content <$> docs))
      = concat ((λ p, element_words (on_page p elements)) <$> ps).
Proof.
  intros Hft Hnone Hnum. unfold _process_elements_to_document.
  destruct (combine_elements_by_page_words elements Hnum)
    as (ps & pages & Hp & Hs & Hk & Hwords).
  rewrite Hp. simpl.
  destruct (pages_documents_words self config source filetype pages 1
              Hft Hnone) as (per_page & -> & Hw).
  simpl. eexists. exists ps. split_and!; [done|done|done|].
  by rewrite Hw.
Qed.

Lemma documents_keep_words_witness :
  ∃ (docs : list Document) (ps : list Z),
    _process_elements_to_document two_files_processor small_chunks_config
      numbered "a/x.pdf" = Ok docs
    ∧ StronglySorted Z.lt ps
    ∧ (∀ p, p ∈ ps ↔ ∃ el, el ∈ numbered ∧ page_key el = Some p)
    ∧ concat (Py.split <$> (page_content <$> docs))
      = concat ((λ p, element_words (on_page p numbered)) <$> ps).
Proof.
  apply (documents_keep_words two_files_processor small_chunks_config
           numbered "a/x.pdf" "application/pdf"); [reflexivity|reflexivity|].
  unfold numbered, parsed. repeat constructor; by eexists.
Defined.

Lemma split_nil_blank s : Py.split s = [] → blank s = true.
Proof.
  unfold Py.split. induction s as [|c s IH]; simpl; [done|].
  destruct (Py.split_scan s) as [w ws]. destruct (Py.isspace c); simpl.
  - exact IH.
  - done.
Qed.

Lemma lstrip_blank_nil s : blank s = true → Py.lstrip s = EmptyString.
Proof.
  induction s as [|c s IH]; simpl; [done|].
  intros [-> Hs]%andb_prop. by apply IH.
Qed.

Lemma has_content_words el :
  has_content el = true → Py.split (element_text el) ≠ [].
Proof.
  unfold has_content, element_text.
  destruct (el_text el) as [t|]; [|done].
  intros [_ Hs]%andb_prop Hnil. apply split_nil_blank in Hnil.
  unfold Py.strip in Hs. by rewrite (lstrip_blank_nil t Hnil) in Hs.
Qed.

Lemma page_text_nonempty g el :
  el ∈ g → has_content el = true → Py.truthy (page_text g) = true.
Proof.
  intros Hel Hc.
  assert (Py.split (page_text g) ≠ []) as Hne.
  { rewrite page_text_words. intros Hnil.
    apply (has_content_words el Hc).
    apply list_elem_of_split in Hel as (g1 & g2 & ->).
    rewrite !fmap_app, concat_app in Hnil. simpl in Hnil.
    apply app_eq_nil in Hnil as [_ Hnil]. by apply app_eq_nil in Hnil as [? _]. }
  by destruct (page_text g).
Qed.

Lemma filter_all {A} (q : A → bool) l :
  (∀ x, x ∈ l → q x = true) → List.filter q l = l.
Proof.
  induction l as [|x l IH]; intros H; simpl; [done|].
  rewrite (H x) by left. f_equal. apply IH. intros y Hy. apply H. by right.
Qed.

Lemma surviving_has_content config l el :
  filter_empty_elements config = true →
  el ∈ _filter_elements config l → has_content el = true.
Proof.
  intros He Hel.
  assert (el ∈ surviving config l) as Hs.
  { eapply elem_of_sublist; [exact Hel|].
    apply filter_elements_sublist_surviving. }
  unfold surviving in Hs. rewrite He in Hs.
  assert (el ∈ List.filter has_content l) as Hc.
  { destruct (remove_headers config); [|done].
    eapply elem_of_sublist; [exact Hs|]. apply filter_sublist. }
  by apply list_elem_of_In, filter_In in Hc as [_ Hc].
Qed.

(** X20.  With the empty filter on, page aggregation of the filtered
    elements drops no page: when they all have a page number there is
    exactly one page text per distinct page number, in increasing order
    of the page numbers, so that the page at position [i] of the output
    is the page with the [i]-th smallest page number. *)
Theorem filtered_pages_keep_every_page
    (config : ProcessingConfig) (raw : list Element) :
  filter_empty_elements config = true →
  let elements := _filter_elements config raw in
  Forall (λ el, is_Some (page_key el)) elements →
  ∃ ps : list Z,
    StronglySorted Z.lt ps
    ∧ (∀ p, p ∈ ps ↔ ∃ el, el ∈ elements ∧ page_key el = Some p)
    ∧ _combine_elements_by_page elements
      = Ok ((λ p, joined_text (texts (on_page p elements))) <$> ps).
Proof.
  intros He elements Hnum.
  destruct (combine_elements_by_page_pages _ Hnum) as (ps & Hs & Hk & Hp).
  exists ps. split_and!; [done|done|]. rewrite Hp. f_equal.
  rewrite filter_all.
  - apply list_fmap_ext. intros _ p _. apply page_text_joined.
  - intros page (p & -> & Hin)%list_elem_of_fmap.
    apply Hk in Hin as (el & Hel & Hkey).
    apply (page_text_nonempty _ el).
    + unfold on_page. apply list_elem_of_In, filter_In.
      split; [by apply list_elem_of_In|by apply bool_decide_eq_true].
    + by apply (surviving_has_content config raw).
Qed.

Lemma filtered_pages_keep_every_page_witness :
  let elements := _filter_elements default_config numbered in
  ∃ ps : list Z,
    StronglySorted Z.lt ps
    ∧ (∀ p, p ∈ ps ↔ ∃ el, el ∈ elements ∧ page_key el = Some p)
    ∧ _combine_elements_by_page elements
      = Ok ((λ p, joined_text (texts (on_page p elements))) <$> ps).
Proof.
  apply (filtered_pages_keep_every_page default_config numbered).
  - reflexivity.
  - unfold numbered, parsed. simpl. repeat constructor; by eexists.
Defined.
